(** * Raid sign-up and loot-split bot: a shallow embedding of [Test1.py]

    The development follows the layout of the Python module:
    - [PyFloat]   : Python floats (IEEE-754 binary64) and the builtins
                    [float()] and [max] as far as the module uses them;
    - [Values]    : [parse_value];
    - [Ledger]    : the [player_values] table and its helper functions;
    - [Signup]    : the registry of an announcement cog and the body of the
                    sign-up callbacks;
    - [RaidAnnouncement], [FFAnnouncement] : the callbacks of the two cogs
                    and the countdown loop of each;
    - [Split]     : the [SplitTracker] cog;
    - [Runs], [Samples] : what the statements are about, and sample data;
    - [Settings], [Creation], [Display], [Admin], [Mentions], [Rendered] :
                    the role settings, the commands [f2b] and [ff], the
                    value commands and the embeds of the split tracker.

    Dictionaries are finite maps ([gmap]); lists keep their order.  A
    callback is a function from the state to the state it leaves, the
    requests it makes to the chat platform, and how it ends: by returning or
    by raising.  The state is the one at the end of the call, also when the
    call raises.  The callbacks that change the state without an await in
    between, or under [data_lock], are taken one at a time;
    [finalize_split], which awaits the store between its test and its write
    and holds no lock, is taken in the steps between its awaits; the
    countdown loops take what they see at each wake-up as input.  The ledger
    store is taken by its contract: what is written for a player is what is
    read, a NaN being stored as NULL and read as [None] ([Store]).  The
    calls to the chat platform succeed unless a parameter says otherwise. *)

From Stdlib Require Import ZArith String Ascii List Bool Lia DecimalString DecimalPos.
From Stdlib Require Import Floats.SpecFloat.
From stdpp Require Import gmap strings list fin_maps.

Open Scope Z_scope.

(** ** Python floats *)

Module PyFloat.

(** A Python float is a binary64 number. *)
Abbreviation pyfloat := spec_float.

Definition prec : Z := 53.
Definition emax : Z := 1024.

Definition fadd : pyfloat -> pyfloat -> pyfloat := SFadd prec emax.
Definition fsub : pyfloat -> pyfloat -> pyfloat := SFsub prec emax.
Definition fmul : pyfloat -> pyfloat -> pyfloat := SFmul prec emax.
Definition fdiv : pyfloat -> pyfloat -> pyfloat := SFdiv prec emax.
(** [fltb x y] is Python's [x < y] (and [y > x]); false on NaN. *)
Definition fltb : pyfloat -> pyfloat -> bool := SFltb.
Definition fleb : pyfloat -> pyfloat -> bool := SFleb.

(** The float nearest to an integer: what Python does to the [int] operand
    of a mixed [float]/[int] operation, and to an integer literal stored in
    a REAL column. *)
Definition of_Z (n : Z) : pyfloat := binary_normalize prec emax n 0 false.

Definition fzero : pyfloat := of_Z 0.

(** [max(a, b)] of Python: the first argument unless the second is
    strictly greater. *)
Definition py_max (a b : pyfloat) : pyfloat := if fltb a b then b else a.

(** *** The builtin [float(str)]

    The grammar is that of the Python language reference, restricted to
    ASCII text:
      floatvalue  ::= [sign] (floatnumber | "inf" | "infinity" | "nan")
      floatnumber ::= number [exponent]
      number      ::= [digitpart] "." digitpart | digitpart ["."]
      digitpart   ::= digit (["_"] digit)*
      exponent    ::= ("e" | "E") [sign] digitpart
    surrounded by optional white space, letters in either case.  A text
    outside the grammar raises ValueError, which is [None] here.  The
    value is the decimal number rounded once, to nearest even. *)

Definition is_digit (c : ascii) : bool :=
  let n := Z.of_N (N_of_ascii c) in (48 <=? n) && (n <=? 57).

Definition digit_val (c : ascii) : Z := Z.of_N (N_of_ascii c) - 48.

(** The white space of [str.split()] and [str.isspace()] in ASCII ... *)
Definition is_space (c : ascii) : bool :=
  let n := Z.of_N (N_of_ascii c) in
  ((9 <=? n) && (n <=? 13)) || ((28 <=? n) && (n <=? 32)).

(** ... and the white space that [float()] and [int()] skip around an ASCII
    text: the separators 28 to 31 are not part of it. *)
Definition is_blank (c : ascii) : bool :=
  let n := Z.of_N (N_of_ascii c) in
  ((9 <=? n) && (n <=? 13)) || (n =? 32).

Definition lower_ascii (c : ascii) : ascii :=
  let n := N_of_ascii c in
  if ((65 <=? n) && (n <=? 90))%N then ascii_of_N (n + 32) else c.

Fixpoint lstrip (l : list ascii) : list ascii :=
  match l with
  | c :: r => if is_blank c then lstrip r else l
  | [] => []
  end.

Definition strip (l : list ascii) : list ascii :=
  rev (lstrip (rev (lstrip l))).

(** The rest of a digitpart whose first digit has been read: the digits
    read and the text left over. *)
Fixpoint digits_tail (l : list ascii) : list Z * list ascii :=
  match l with
  | c :: r =>
      if is_digit c then
        let '(ds, r') := digits_tail r in (digit_val c :: ds, r')
      else if Ascii.eqb c "_" then
        match r with
        | d :: r2 =>
            if is_digit d then
              let '(ds, r') := digits_tail r2 in (digit_val d :: ds, r')
            else ([], l)
        | [] => ([], l)
        end
      else ([], l)
  | [] => ([], [])
  end.

Definition digitpart (l : list ascii) : option (list Z * list ascii) :=
  match l with
  | c :: r =>
      if is_digit c then
        let '(ds, r') := digits_tail r in Some (digit_val c :: ds, r')
      else None
  | [] => None
  end.

Definition opt_digitpart (l : list ascii) : list Z * list ascii :=
  match digitpart l with
  | Some p => p
  | None => ([], l)
  end.

Definition opt_sign (l : list ascii) : bool * list ascii :=
  match l with
  | c :: r =>
      if Ascii.eqb c "-" then (true, r)
      else if Ascii.eqb c "+" then (false, r)
      else (false, l)
  | [] => (false, [])
  end.

Definition digits_to_Z (ds : list Z) : Z :=
  fold_left (fun acc d => 10 * acc + d) ds 0.

(** [number]: the digits with the point removed, how many of them follow
    the point, and the text left over. *)
Definition number (l : list ascii) : option (list Z * Z * list ascii) :=
  match digitpart l with
  | Some (ip, r) =>
      match r with
      | c :: r1 =>
          if Ascii.eqb c "." then
            let '(fp, r2) := opt_digitpart r1 in
            Some (ip ++ fp, Z.of_nat (length fp), r2)
          else Some (ip, 0, r)
      | [] => Some (ip, 0, [])
      end
  | None =>
      match l with
      | c :: r1 =>
          if Ascii.eqb c "." then
            match digitpart r1 with
            | Some (fp, r2) => Some (fp, Z.of_nat (length fp), r2)
            | None => None
            end
          else None
      | [] => None
      end
  end.

(** [exponent]: absent is 0; an "e" that no digitpart follows is an error. *)
Definition exponent (l : list ascii) : option Z :=
  match l with
  | [] => Some 0
  | c :: r =>
      if Ascii.eqb (lower_ascii c) "e" then
        let '(neg, r1) := opt_sign r in
        match digitpart r1 with
        | Some (ds, []) =>
            Some (if neg then - digits_to_Z ds else digits_to_Z ds)
        | _ => None
        end
      else None
  end.

(** [m * 10^e] with sign [neg], rounded once. *)
Definition of_decimal (neg : bool) (m e : Z) : pyfloat :=
  match m with
  | Zpos p =>
      if 0 <=? e then
        binary_normalize prec emax
          (if neg then - (m * 10 ^ e) else m * 10 ^ e) 0 false
      else
        match 10 ^ (- e) with
        | Zpos q => fdiv (S754_finite neg p 0) (S754_finite false q 0)
        | _ => S754_nan
        end
  | _ => S754_zero neg
  end.

Definition float_of_chars (l : list ascii) : option pyfloat :=
  let '(neg, body) := opt_sign (strip l) in
  let low := string_of_list_ascii (map lower_ascii body) in
  if (String.eqb low "inf" || String.eqb low "infinity")%string then
    Some (S754_infinity neg)
  else if String.eqb low "nan" then Some S754_nan
  else
    match number body with
    | Some (ds, nfrac, r) =>
        match exponent r with
        | Some e => Some (of_decimal neg (digits_to_Z ds) (e - nfrac))
        | None => None
        end
    | None => None
    end.

Definition float_of_string (s : string) : option pyfloat :=
  float_of_chars (list_ascii_of_string s).

End PyFloat.

Import PyFloat.

(** ** The value parser *)

Module Values.

(** [str.lower()] on ASCII text. *)
Fixpoint lower (s : string) : string :=
  match s with
  | EmptyString => EmptyString
  | String c r => String (lower_ascii c) (lower r)
  end.

(** [s.endswith(c)] for a suffix of one character. *)
Fixpoint endswith (s : string) (c : ascii) : bool :=
  match s with
  | EmptyString => false
  | String a EmptyString => Ascii.eqb a c
  | String _ r => endswith r c
  end.

(** The slice [s[:-1]]. *)
Fixpoint drop_last (s : string) : string :=
  match s with
  | EmptyString => EmptyString
  | String _ EmptyString => EmptyString
  | String a r => String a (drop_last r)
  end.

(** [parse_value]: [None] is the value returned from the [except
    ValueError] branch. *)
Definition parse_value (value_str : string) : option pyfloat :=
  let value_str := lower value_str in
  if endswith value_str "k" then
    match float_of_string (drop_last value_str) with
    | Some x => Some (fmul x (of_Z 1000))
    | None => None
    end
  else if endswith value_str "m" then
    match float_of_string (drop_last value_str) with
    | Some x => Some (fmul x (of_Z 1000000))
    | None => None
    end
  else float_of_string value_str.

End Values.

Import Values.

(** ** The ledger store

    One guild's [player_values] table: [player_id] is the primary key and
    [total_value] a REAL.  A connection [conn] is the table it gives access
    to. *)

Module Ledger.

(** [SELECT total_value ... WHERE player_id = ?], 0 when there is no row. *)
Definition get_player_value (conn : gmap Z pyfloat) (player_id : Z) : pyfloat :=
  match conn !! player_id with
  | Some v => v
  | None => fzero
  end.

(** [INSERT OR REPLACE]. *)
Definition update_player_value (conn : gmap Z pyfloat) (player_id : Z)
    (new_value : pyfloat) : gmap Z pyfloat :=
  <[player_id := new_value]> conn.

(** [UPDATE ... SET total_value = 0 WHERE player_id = ?]: no row, no change. *)
Definition reset_player_value (conn : gmap Z pyfloat) (player_id : Z)
    : gmap Z pyfloat :=
  alter (fun _ => fzero) player_id conn.

Definition add_to_player_value (conn : gmap Z pyfloat) (player_id : Z)
    (amount : pyfloat) : gmap Z pyfloat :=
  let current_value := get_player_value conn player_id in
  update_player_value conn player_id (fadd current_value amount).

Definition remove_from_player_value (conn : gmap Z pyfloat) (player_id : Z)
    (amount : pyfloat) : gmap Z pyfloat :=
  let current_value := get_player_value conn player_id in
  update_player_value conn player_id (py_max (fsub current_value amount) fzero).

End Ledger.

Import Ledger.

(** SQLite stores a NaN as NULL, and [get_player_value] returns [None] for a
    row that holds NULL: [result[0] if result else 0] with [result = (None,)].
    In the ledger such a row is the NaN entry. *)
Module Store.

Definition reads_none (conn : gmap Z pyfloat) (player_id : Z) : bool :=
  match conn !! player_id with
  | Some S754_nan => true
  | _ => false
  end.

End Store.

Import Store.

(** ** Outcomes and effects

    What a callback asks of the chat platform is recorded as a list of
    effects, in the order of the calls.  The texts are those of the source. *)

Inductive exn : Type :=
| KeyError
| HTTPException
| TypeError
| AttributeError.

Inductive outcome : Type :=
| Returned
| Raised (e : exn).

Inductive effect : Type :=
| Respond (text : string)
    (** [interaction.response.send_message(text)] *)
| EditRoles (listing : list (string * list string))
    (** [interaction.response.edit_message] with the re-rendered role field *)
| DeleteMessage (message_id : Z)
    (** [button_interaction.message.delete()] *)
| ChannelSend (channel : Z) (text : string)
    (** [channel.send(text)] *)
| React (message_id : Z)
    (** [message.add_reaction] *)
| EditTracker (tracker_id : Z) (shown : list (Z * bool))
    (** [tracked_message.edit]: each participant with the check mark shown *)
| VerificationPrompt (channel : Z) (post_id : Z)
    (** the verification embed with its Confirm and Cancel buttons *)
| ThreadEdit (archived : bool)
    (** [interaction.channel.edit(archived=...)] *).

(** ** Events and sign-ups *)

Module Signup.

(** One entry of [active_events].  Times are in microseconds, the
    resolution of [datetime]. *)
Record event : Type := Event {
  message_id : option Z;
  channel_id : Z;
  user_roles : gmap string (list string);
  active_users_roles : gmap string string;
  start_time : Z;
  cancelled : bool
}.

(** The state of an announcement cog. *)
Record registry : Type := Registry {
  active_events : gmap Z event;
  message_id_to_event_id : gmap Z Z
}.

Definition empty_registry : registry := Registry ∅ ∅.

(** [{role_name: [] for role_name in roles_list}] *)
Definition empty_slots (roles_list : list string) : gmap string (list string) :=
  list_to_map ((fun role_name => (role_name, [])) <$> roles_list).

Definition new_event (roles_list : list string) (channel start : Z) : event :=
  Event None channel (empty_slots roles_list) ∅ start false.

(** What [f2b] and [ff] do to the registry: the event is stored under its
    fresh id, and once the announcement is posted its message id is
    recorded in both dictionaries. *)
Definition announce (roles_list : list string) (event_id channel start msg : Z)
    (st : registry) : registry :=
  let ev := new_event roles_list channel start in
  Registry
    (<[event_id := Event (Some msg) (channel_id ev) (user_roles ev)
                     (active_users_roles ev) (start_time ev) (cancelled ev)]>
       (active_events st))
    (<[msg := event_id]> (message_id_to_event_id st)).

(** [list.remove(x)]: the first occurrence goes. *)
Fixpoint py_remove (x : string) (l : list string) : list string :=
  match l with
  | [] => []
  | y :: r => if decide (x = y) then r else y :: py_remove x r
  end.

Definition with_slots (ev : event) (ur : gmap string (list string))
    (aur : gmap string string) : event :=
  Event (message_id ev) (channel_id ev) ur aur (start_time ev) (cancelled ev).

Inductive toggled : Type :=
| Unsigned (ev : event)
| SignedUp (ev : event)
| AlreadySignedUp
| NoSuchRole.

(** The block under [data_lock] of both sign-up callbacks. *)
Definition slot_toggle (role_name user_mention : string) (ev : event) : toggled :=
  match user_roles ev !! role_name with
  | None => NoSuchRole
  | Some l =>
      if bool_decide (user_mention ∈ l) then
        Unsigned (with_slots ev
                    (<[role_name := py_remove user_mention l]> (user_roles ev))
                    (delete user_mention (active_users_roles ev)))
      else if bool_decide (is_Some (active_users_roles ev !! user_mention)) then
        AlreadySignedUp
      else
        let swept :=
          (fun others =>
             if bool_decide (user_mention ∈ others)
             then py_remove user_mention others else others)
            <$> user_roles ev in
        match swept !! role_name with
        | None => NoSuchRole
        | Some l' =>
            SignedUp (with_slots ev
                        (<[role_name := l' ++ [user_mention]]> swept)
                        (<[user_mention := role_name]> (active_users_roles ev)))
        end
  end.

(** The role field as the callbacks rebuild it: every shown role with the
    users of its slot.  The shown roles are keys of the dictionary. *)
Definition listing (shown : list string) (ur : gmap string (list string))
    : list (string * list string) :=
  (fun r => (r, default [] (ur !! r))) <$> shown.

Definition not_found_text : string := "Error: Event not found.".
Definition cancelled_text : string := "Event has been canceled.".
Definition already_text : string :=
  "You have already signed up for a role. Unsign first.".

Definition put_event (event_id : Z) (ev : event) (st : registry) : registry :=
  Registry (<[event_id := ev]> (active_events st)) (message_id_to_event_id st).

(** The body shared by [role_signup_callback(role_name)] of [f2b] and
    [signup_callback] of [ff]; [shown] is [roles_list] in the first and
    [selected_roles] in the second. *)
Definition signup_body (shown : list string) (role_name : string)
    (msg : Z) (user_mention : string) (st : registry)
    : registry * list effect * outcome :=
  match message_id_to_event_id st !! msg with
  | None => (st, [Respond not_found_text], Returned)
  | Some event_id_lookup =>
      match active_events st !! event_id_lookup with
      | None => (st, [], Raised KeyError)
      | Some event_data =>
          if cancelled event_data then (st, [Respond cancelled_text], Returned)
          else
            match slot_toggle role_name user_mention event_data with
            | NoSuchRole => (st, [], Raised KeyError)
            | AlreadySignedUp => (st, [Respond already_text], Returned)
            | Unsigned ev' | SignedUp ev' =>
                (put_event event_id_lookup ev' st,
                 [EditRoles (listing shown (user_roles ev'))], Returned)
            end
      end
  end.

Definition cancel_done_text : string := "🚫 Event cancelled by the event creator.".
Definition no_permission_text : string :=
  "You do not have permission to cancel the event.".
Definition role_unset_text : string :=
  "Content Admin role is not set. Please set it using /settings.".

Definition set_cancelled (ev : event) : event :=
  Event (message_id ev) (channel_id ev) (user_roles ev)
    (active_users_roles ev) (start_time ev) true.

End Signup.

Import Signup.

(** ** What the countdown loops share *)

Module Countdown.

Definition reminder_text : string := "⚠️ Reminder: The event starts in 5 minutes! ⚠️".
Definition start_text : string := "🚨 Time's up! The event is starting now! 🚨".

(** [remaining.total_seconds() <= n] on a [timedelta] of [remaining]
    microseconds: the division by 10^6 is rounded monotonically and [n] is
    an integer, so the test is the one on the integers. *)
Definition total_seconds_le (remaining n : Z) : bool := remaining <=? n * 1000000.

(** How a run ends on the polls it is given: still in [asyncio.sleep],
    left by [break], or left by an exception. *)
Inductive loop_end : Type :=
| Sleeping (five_minute_reminder_sent : bool)
| Broke
| Crashed (e : exn).

(** One observation of the loop when it wakes up: the registry as it is
    then, and the clock. *)
Definition poll : Type := registry * Z.

End Countdown.

Import Countdown.

(** The [f2b] cog. *)
Module RaidAnnouncement.

Definition roles_list : list string :=
  ["🛡️ Tank"; "🪓 Carrioncaller"; "💀 Curseskull"; "🐻 Bear"; "🌳 Ent";
   "🔥 Dawnsong"; "💚 Hallowfall"].

Definition role_signup_callback (role_name : string) (msg : Z)
    (user_mention : string) (st : registry) : registry * list effect * outcome :=
  signup_body roles_list role_name msg user_mention st.

(** [role_set]: the "Content Admin rights" setting holds a role;
    [permitted]: the user has that role or created the event. *)
Definition cancel_event_callback (role_set permitted : bool) (msg : Z)
    (st : registry) : registry * list effect * outcome :=
  match message_id_to_event_id st !! msg with
  | None => (st, [Respond not_found_text], Returned)
  | Some event_id_lookup =>
      if role_set then
        if permitted then
          let out := [Respond cancel_done_text; DeleteMessage msg] in
          match active_events st !! event_id_lookup with
          | Some ev =>
              let flagged := <[event_id_lookup := set_cancelled ev]> (active_events st) in
              (Registry (delete event_id_lookup flagged)
                 (delete msg (message_id_to_event_id st)),
               out, Returned)
          | None => (st, out, Returned)
          end
        else (st, [Respond no_permission_text], Returned)
      else (st, [Respond role_unset_text], Returned)
  end.

(** The method [track_event_time] of the cog. *)
Fixpoint track_event_time (event_id event_start_time channel : Z)
    (five_minute_reminder_sent : bool) (polls : list poll)
    : list effect * loop_end :=
  match polls with
  | [] => ([], Sleeping five_minute_reminder_sent)
  | (st, now) :: rest =>
      let remaining_time := event_start_time - now in
      if match active_events st !! event_id with
         | Some ev => cancelled ev
         | None => false
         end
      then ([], Broke)
      else if total_seconds_le remaining_time 0 then
        ([ChannelSend channel start_text], Broke)
      else if total_seconds_le remaining_time 300 && negb five_minute_reminder_sent then
        let '(out, e) :=
          track_event_time event_id event_start_time channel true rest in
        (ChannelSend channel reminder_text :: out, e)
      else
        track_event_time event_id event_start_time channel
          five_minute_reminder_sent rest
  end.

End RaidAnnouncement.

(** The [ff] cog. *)
Module FFAnnouncement.

Definition signup_callback (selected_roles : list string) (role : string)
    (msg : Z) (user_mention : string) (st : registry)
    : registry * list effect * outcome :=
  signup_body selected_roles role msg user_mention st.

(** The flag is set before the two awaited calls, the entries are deleted
    after them: [cancel_flag] is the registry a poll sees in between. *)
Definition cancel_flag (event_id : Z) (ev : event) (st : registry) : registry :=
  put_event event_id (set_cancelled ev) st.

Definition cancel_event_callback (role_set permitted : bool) (msg : Z)
    (st : registry) : registry * list effect * outcome :=
  match message_id_to_event_id st !! msg with
  | None => (st, [Respond not_found_text], Returned)
  | Some event_id_lookup =>
      if role_set then
        if permitted then
          match active_events st !! event_id_lookup with
          | None => (st, [], Raised KeyError)
          | Some ev =>
              let st1 := cancel_flag event_id_lookup ev st in
              (Registry (delete event_id_lookup (active_events st1))
                 (delete msg (message_id_to_event_id st1)),
               [Respond cancel_done_text; DeleteMessage msg], Returned)
          end
        else (st, [Respond no_permission_text], Returned)
      else (st, [Respond role_unset_text], Returned)
  end.

End FFAnnouncement.

(** [interaction.cog] on the interaction of a slash command.
    [discord.Interaction] declares its attributes in [__slots__] and [cog] is
    not among them ([commands.Context] has it, an interaction has not): the
    lookup raises AttributeError, whatever the registry of the cog holds. *)
Definition interaction_cog (st : registry) : option registry := None.

(** The module-level [track_event_time] awaited by [ff]. *)
Fixpoint track_event_time (event_id event_start_time channel : Z)
    (five_minute_reminder_sent : bool) (polls : list poll)
    : list effect * loop_end :=
  match polls with
  | [] => ([], Sleeping five_minute_reminder_sent)
  | (st, now) :: rest =>
      let remaining_time := event_start_time - now in
      match interaction_cog st with
      | None => ([], Crashed AttributeError)
      | Some cog =>
          match active_events cog !! event_id with
          | None => ([], Crashed KeyError)
          | Some ev =>
              if cancelled ev then ([], Broke)
              else if total_seconds_le remaining_time 0 then
                ([ChannelSend channel start_text], Broke)
              else if total_seconds_le remaining_time 300
                      && negb five_minute_reminder_sent then
                let '(out, e) :=
                  track_event_time event_id event_start_time channel true rest in
                (ChannelSend channel reminder_text :: out, e)
              else
                track_event_time event_id event_start_time channel
                  five_minute_reminder_sent rest
          end
      end
  end.

(** ** The loot-split tracker *)

Module Split.

(** *** Text helpers of [split_members] *)

(** [str.split()]: the words between runs of white space. *)
Fixpoint split_ws (l cur : list ascii) : list (list ascii) :=
  match l with
  | [] => match cur with [] => [] | _ => [rev cur] end
  | c :: r =>
      if is_space c then
        match cur with
        | [] => split_ws r []
        | _ => rev cur :: split_ws r []
        end
      else split_ws r (c :: cur)
  end.

Definition py_split (s : string) : list (list ascii) :=
  split_ws (list_ascii_of_string s) [].

Definition startswith (pre l : list ascii) : bool :=
  bool_decide (take (length pre) l = pre).

(** [mention.startswith('<@') and mention.endswith('>')] *)
Definition is_mention (mention : list ascii) : bool :=
  startswith (list_ascii_of_string "<@") mention
  && bool_decide (last mention = Some ">"%char).

(** [mention[2:-1].replace('!', '')] *)
Definition member_id_text (mention : list ascii) : list ascii :=
  filter (fun c => c <> "!"%char) (removelast (drop 2 mention)).

(** The builtin [int(str)] in base 10 on ASCII text; [None] is ValueError. *)
Definition py_int (l : list ascii) : option Z :=
  let '(neg, body) := opt_sign (strip l) in
  match digitpart body with
  | Some (ds, []) => Some (if neg then - digits_to_Z ds else digits_to_Z ds)
  | _ => None
  end.

(** What [interaction.guild.fetch_member] answers for an id. *)
Inductive fetched : Type :=
| IsMember
| Falsy
| FetchFails.

(** *** State *)

Record player_info : Type := PlayerInfo {
  submitted : bool;
  image_count : Z;
  value_added : bool
}.

(** One entry of [tagged_members]; members are known by their id. *)
Record split : Type := SplitOf {
  players : gmap Z player_info;
  worth : pyfloat
}.

(** The cog's two dictionaries and the guild's ledger. *)
Record world : Type := World {
  tagged_members : gmap Z split;
  tracked_message_ids : gmap Z Z;
  conn : gmap Z pyfloat
}.

Inductive mentions_read : Type :=
| Members (members : list Z)
| InvalidMention (mention : list ascii)
| InvalidFormat (mention : list ascii)
| FetchRaised.

(** The loop over [player_mentions]. *)
Fixpoint read_mentions (fetch_member : Z -> fetched)
    (player_mentions : list (list ascii)) (members : list Z) : mentions_read :=
  match player_mentions with
  | [] => Members members
  | mention :: rest =>
      if is_mention mention then
        match py_int (member_id_text mention) with
        | None => InvalidMention mention
        | Some id =>
            match fetch_member id with
            | IsMember => read_mentions fetch_member rest (members ++ [id])
            | Falsy => read_mentions fetch_member rest members
            | FetchFails => FetchRaised
            end
        end
      else InvalidFormat mention
  end.

Definition fresh_info : player_info := PlayerInfo false 0 false.

(** [{member: {...} for member in members}] *)
Definition fresh_players (members : list Z) : gmap Z player_info :=
  list_to_map ((fun member => (member, fresh_info)) <$> members).

Definition no_players_text : string :=
  "Please provide player mentions separated by spaces.".
Definition invalid_mention_text (mention : list ascii) : string :=
  "Invalid mention: " ++ string_of_list_ascii mention.
Definition invalid_format_text (mention : list ascii) : string :=
  "Invalid mention format: " ++ string_of_list_ascii mention.
Definition invalid_value_text : string :=
  "Invalid value format. Use numbers with 'k' or 'm' as suffix.".

Inductive split_effect : Type :=
| Plain (e : effect)
| SplitStarted (members : list Z) (share : option pyfloat)
    (** the "Loot split starting!" response and the tracker embed; [share]
        is [None] in the "No value provided" branch *).

(** [split_members]; [post_id] is [interaction.channel.id] and [tracker]
    the id of the embed message that is posted. *)
Definition split_members (fetch_member : Z -> fetched) (post_id tracker : Z)
    (players : string) (value : option string) (st : world)
    : world * list split_effect * outcome :=
  if String.eqb players "" then
    (st, [Plain (Respond no_players_text)], Returned)
  else
    match read_mentions fetch_member (py_split players) [] with
    | InvalidMention mention =>
        (st, [Plain (Respond (invalid_mention_text mention))], Returned)
    | InvalidFormat mention =>
        (st, [Plain (Respond (invalid_format_text mention))], Returned)
    | FetchRaised => (st, [], Raised HTTPException)
    | Members members =>
        let stored :=
          <[post_id := SplitOf (fresh_players members) fzero]> (tagged_members st) in
        let st1 := World stored (tracked_message_ids st) (conn st) in
        match value with
        | Some value_text =>
            if (0 <? length members)%nat then
              match parse_value value_text with
              | None => (st1, [Plain (Respond invalid_value_text)], Returned)
              | Some total =>
                  let share := fdiv total (of_Z (Z.of_nat (length members))) in
                  (World
                     (<[post_id := SplitOf (fresh_players members) share]> stored)
                     (<[post_id := tracker]> (tracked_message_ids st))
                     (conn st),
                   [SplitStarted members (Some share)], Returned)
              end
            else
              (World stored (<[post_id := tracker]> (tracked_message_ids st))
                 (conn st),
               [SplitStarted members None], Returned)
        | None =>
            (World stored (<[post_id := tracker]> (tracked_message_ids st))
               (conn st),
             [SplitStarted members None], Returned)
        end
    end.

(** *** Proof submissions *)

Record message : Type := Message {
  msg_id : Z;
  msg_channel : Z;
  msg_author : Z;
  attachments : nat;
  content : string
}.

(** [message.attachments or any([url for url in message.content.split()
    if url.startswith('http')])] *)
Definition carries_proof (m : message) : bool :=
  (0 <? attachments m)%nat
  || existsb (startswith (list_ascii_of_string "http")) (py_split (content m)).

Definition all_submitted (ps : gmap Z player_info) : bool :=
  forallb (fun p => submitted (snd p)) (map_to_list ps).

Definition on_message (m : message) (st : world)
    : world * list effect * outcome :=
  if carries_proof m then
    match tagged_members st !! msg_channel m with
    | None => (st, [], Returned)
    | Some sp =>
        match players sp !! msg_author m with
        | None => (st, [], Returned)
        | Some info =>
            let info' :=
              PlayerInfo true (image_count info + 1) (value_added info) in
            let ps := <[msg_author m := info']> (players sp) in
            let st' :=
              World (<[msg_channel m := SplitOf ps (worth sp)]> (tagged_members st))
                (tracked_message_ids st) (conn st) in
            let shown :=
              (fun p => (fst p, submitted (snd p))) <$> map_to_list ps in
            match tracked_message_ids st !! msg_channel m with
            | Some tracker =>
                if tracker =? 0 then (st', [React (msg_id m)], Returned)
                else
                  (st',
                   [React (msg_id m); EditTracker tracker shown]
                     ++ (if all_submitted ps
                         then [VerificationPrompt (msg_channel m) (msg_channel m)]
                         else []),
                   Returned)
            | None => (st', [React (msg_id m)], Returned)
            end
        end
    end
  else (st, [], Returned).

(** *** Confirmation and cancellation *)

Definition eligible (info : player_info) : bool :=
  submitted info && negb (value_added info).

(** One turn of the loop of [finalize_split] on the ledger ... *)
Definition credit (share : pyfloat) (player : Z) (info : player_info)
    (c : gmap Z pyfloat) : gmap Z pyfloat :=
  if eligible info then add_to_player_value c player share else c.

(** ... and on the participant's record. *)
Definition mark (info : player_info) : player_info :=
  if eligible info then PlayerInfo (submitted info) (image_count info) true
  else info.

Definition confirmed_text : string :=
  "✅ The loot split has been successfully confirmed, values have been updated.".
Definition confirmed_closed_text : string :=
  "✅ The loot split has been successfully confirmed, values have been updated, and the thread will now be closed.".
Definition split_cancelled_text : string := "The loot split has been canceled.".

(** Where the confirming interaction comes from. *)
Inductive origin : Type :=
| Channel
| Thread (archived : bool).

(** [finalize_split] awaits the store between its test of a participant and
    [info['value_added'] = True], and awaits again before it deletes the
    split; it does not take [data_lock].  A call is therefore taken in the
    steps between its awaits, and the steps of another call can come between
    them. *)

(** What the calls for a context share: the registry with the ledger, and
    the [players] dict of the split, which a call that iterates over it keeps
    hold of when another call has deleted the split. *)
Record shared : Type := Shared {
  the_world : world;
  held : gmap Z player_info
}.

Definition start (post_id : Z) (st : world) : shared :=
  Shared st match tagged_members st !! post_id with
            | Some sp => players sp
            | None => ∅
            end.

(** Where a call stands while it is suspended. *)
Inductive stage : Type :=
| Connecting
    (** [await get_database_for_guild(guild_id)] *)
| Reading (player : Z) (worth : pyfloat) (todo : list Z)
    (** in [add_to_player_value]: [await get_player_value(conn, player_id)] *)
| Writing (player : Z) (new_value : pyfloat) (todo : list Z)
    (** [await update_player_value(conn, player_id, current_value + amount)]:
        the row is not written yet *)
| Flagging (player : Z) (todo : list Z)
    (** the row is written and the call is not resumed yet *)
| Closing
    (** [await conn.close()] *)
| Answering
    (** the awaited calls to the chat platform *)
| Ended (o : outcome).

(** The loop from its head: the participants left are tested in turn until
    one has [submitted] and not [value_added]; for that one [worth] is read
    from the registry and [add_to_player_value] is entered. *)
Fixpoint scan (post_id : Z) (todo : list Z) (m : shared) : stage :=
  match todo with
  | [] => Closing
  | player :: rest =>
      match held m !! player with
      | Some info =>
          if eligible info then
            match tagged_members (the_world m) !! post_id with
            | Some sp => Reading player (worth sp) rest
            | None => Ended (Raised KeyError)
            end
          else scan post_id rest m
      | None => scan post_id rest m
      end
  end.

(** [info['value_added'] = True] on the dict that the call holds, which is
    that of the split of the context as long as the split is there. *)
Definition set_added (info : player_info) : player_info :=
  PlayerInfo (submitted info) (image_count info) true.

Definition flag (post_id player : Z) (m : shared) : shared :=
  let st := the_world m in
  Shared
    (World
       (alter (fun sp => SplitOf (alter set_added player (players sp)) (worth sp))
          post_id (tagged_members st))
       (tracked_message_ids st) (conn st))
    (alter set_added player (held m)).

Definition answers (from : origin) : list effect :=
  match from with
  | Thread archived =>
      (if archived then [ThreadEdit false] else [])
        ++ [Respond confirmed_closed_text; ThreadEdit true]
  | Channel => [Respond confirmed_text]
  end.

(** One step of a call: from where it is suspended to its next await, or to
    its end.  [respond_ok] tells whether the calls to the chat platform
    succeed; when they do not, the first of them raises and the call is left
    before its last statement. *)
Definition step (from : origin) (respond_ok : bool) (post_id : Z) (s : stage)
    (m : shared) : stage * shared * list effect :=
  let st := the_world m in
  match s with
  | Connecting =>
      match tagged_members st !! post_id with
      | Some sp => (scan post_id (map_to_list (players sp)).*1 m, m, [])
      | None => (Ended (Raised KeyError), m, [])
      end
  | Reading player worth todo =>
      if reads_none (conn st) player then (Ended (Raised TypeError), m, [])
      else (Writing player (fadd (get_player_value (conn st) player) worth) todo,
            m, [])
  | Writing player new_value todo =>
      (Flagging player todo,
       Shared
         (World (tagged_members st) (tracked_message_ids st)
            (update_player_value (conn st) player new_value))
         (held m),
       [])
  | Flagging player todo =>
      let m' := flag post_id player m in
      (scan post_id todo m', m', [])
  | Closing => (Answering, m, [])
  | Answering =>
      if respond_ok then
        match tagged_members st !! post_id with
        | Some _ =>
            (Ended Returned,
             Shared
               (World (delete post_id (tagged_members st))
                  (tracked_message_ids st) (conn st))
               (held m),
             answers from)
        | None => (Ended (Raised KeyError), m, answers from)
        end
      else (Ended (Raised HTTPException), m, [])
  | Ended o => (Ended o, m, [])
  end.

(** [fuel] steps of a call with no step of another call in between. *)
Fixpoint run (from : origin) (respond_ok : bool) (post_id : Z) (fuel : nat)
    (s : stage) (m : shared) : stage * shared * list effect :=
  match fuel with
  | O => (s, m, [])
  | S fuel' =>
      let '(s1, m1, out1) := step from respond_ok post_id s m in
      let '(s2, m2, out2) := run from respond_ok post_id fuel' s1 m1 in
      (s2, m2, out1 ++ out2)
  end.

(** The steps that a call can take at most: three for each participant,
    and three more. *)
Definition steps_of (post_id : Z) (st : world) : nat :=
  match tagged_members st !! post_id with
  | Some sp => 3 * length (map_to_list (players sp)) + 3
  | None => 1
  end.

(** The steps that a call has left at most, once it has its connection. *)
Definition steps_left (s : stage) : nat :=
  match s with
  | Connecting => 0
  | Reading _ _ todo => 3 * length todo + 5
  | Writing _ _ todo => 3 * length todo + 4
  | Flagging _ todo => 3 * length todo + 3
  | Closing => 2
  | Answering => 1
  | Ended _ => 0
  end.

(** [finalize_split] when no other call runs during its awaits. *)
Definition finalize_split (from : origin) (respond_ok : bool) (post_id : Z)
    (st : world) : world * list effect * outcome :=
  let '(s, m, out) :=
    run from respond_ok post_id (steps_of post_id st) Connecting
      (start post_id st) in
  (the_world m, out, match s with
                     | Ended o => o
                     | _ => Returned
                     end).

(** Two calls of [finalize_split] for the same context, as after two presses
    on the Confirm button, each with where it stands. *)
Record call : Type := Call {
  from_of : origin;
  respond_ok_of : bool;
  stage_of : stage
}.

(** The steps of the two calls in the order of [schedule]: [true] is a step
    of the first call, [false] one of the second. *)
Fixpoint interleave (post_id : Z) (schedule : list bool) (a b : call)
    (m : shared) : call * call * shared * list effect :=
  match schedule with
  | [] => (a, b, m, [])
  | first :: rest =>
      let c := if first then a else b in
      let '(s1, m1, out1) :=
        step (from_of c) (respond_ok_of c) post_id (stage_of c) m in
      let c1 := Call (from_of c) (respond_ok_of c) s1 in
      let '(a2, b2, m2, out2) :=
        interleave post_id rest (if first then c1 else a)
          (if first then b else c1) m1 in
      (a2, b2, m2, out1 ++ out2)
  end.

Definition cancel_split (post_id : Z) (st : world)
    : world * list effect * outcome :=
  match tagged_members st !! post_id with
  | None => (st, [], Raised KeyError)
  | Some _ =>
      (World (delete post_id (tagged_members st)) (tracked_message_ids st)
         (conn st),
       [Respond split_cancelled_text], Returned)
  end.

End Split.

Import Split.

(** ** Runs and the predicates of the statements *)

Module Runs.

(** *** Registries reached by actions *)

(** What can happen to a registry: an announcement by [f2b] or [ff], a
    press on a sign-up button of either cog, a press on a cancel button. *)
Inductive action : Type :=
| Announce (roles_list : list string) (event_id channel start msg : Z)
| Press (shown : list string) (role_name : string) (msg : Z)
    (user_mention : string)
| CancelRaid (role_set permitted : bool) (msg : Z)
| CancelFF (role_set permitted : bool) (msg : Z).

Definition act (st : registry) (a : action) : registry :=
  match a with
  | Announce roles_list event_id channel start msg =>
      announce roles_list event_id channel start msg st
  | Press shown role_name msg user_mention =>
      (signup_body shown role_name msg user_mention st).1.1
  | CancelRaid role_set permitted msg =>
      (RaidAnnouncement.cancel_event_callback role_set permitted msg st).1.1
  | CancelFF role_set permitted msg =>
      (FFAnnouncement.cancel_event_callback role_set permitted msg st).1.1
  end.

Definition run_actions (acts : list action) : registry :=
  fold_left act acts empty_registry.

(** *** Slots *)

(** [user] is in the slot of [role]. *)
Definition occupies (user role : string) (ev : event) : Prop :=
  ∃ l, user_roles ev !! role = Some l ∧ user ∈ l.

Definition at_most_one_role (ev : event) : Prop :=
  ∀ user r1 r2, occupies user r1 ev → occupies user r2 ev → r1 = r2.

(** No user twice in the slots of an event. *)
Definition slots_wf (ev : event) : Prop :=
  (∀ role l, user_roles ev !! role = Some l → NoDup l) ∧ at_most_one_role ev.

(** The active-role marker of a user is set exactly when the user is in a
    slot. *)
Definition markers_wf (ev : event) : Prop :=
  ∀ user, is_Some (active_users_roles ev !! user) ↔ ∃ role, occupies user role ev.

Definition event_wf (ev : event) : Prop := slots_wf ev ∧ markers_wf ev.

Definition registry_wf (st : registry) : Prop :=
  ∀ event_id ev, active_events st !! event_id = Some ev → event_wf ev.

(** The toggle as the specification words it, for a role [role] that has
    a slot [l] in the event. *)
Inductive toggle_spec (role user : string) (ev : event) : toggled → Prop :=
| spec_unsign l :
    user_roles ev !! role = Some l →
    user ∈ l →
    toggle_spec role user ev
      (Unsigned (with_slots ev
                   (<[role := filter (fun x => x ≠ user) l]> (user_roles ev))
                   (delete user (active_users_roles ev))))
| spec_conflict l other :
    user_roles ev !! role = Some l →
    user ∉ l →
    occupies user other ev →
    toggle_spec role user ev AlreadySignedUp
| spec_signup l :
    user_roles ev !! role = Some l →
    (∀ other, ¬ occupies user other ev) →
    toggle_spec role user ev
      (SignedUp (with_slots ev
                   (<[role := l ++ [user]]> (user_roles ev))
                   (<[user := role]> (active_users_roles ev)))).

(** What the callback answers on each result of the toggle. *)
Definition answer (shown : list string) (event_id : Z) (st : registry)
    (t : toggled) : registry * list effect * outcome :=
  match t with
  | Unsigned ev' | SignedUp ev' =>
      (put_event event_id ev' st,
       [EditRoles (listing shown (user_roles ev'))], Returned)
  | AlreadySignedUp => (st, [Respond already_text], Returned)
  | NoSuchRole => (st, [], Raised KeyError)
  end.

(** *** Countdown *)

(** The event is in the registry a poll sees, and not cancelled. *)
Definition live (event_id : Z) (p : poll) : Prop :=
  ∃ ev, active_events p.1 !! event_id = Some ev ∧ cancelled ev = false.

(** What the test of [RaidAnnouncement.track_event_time] lets through: the
    event is not in the registry, or it is there and not cancelled. *)
Definition unflagged (event_id : Z) (p : poll) : Prop :=
  ∀ ev, active_events p.1 !! event_id = Some ev → cancelled ev = false.

(** The polls before the first one that finds no time left. *)
Fixpoint waiting (start : Z) (polls : list poll) : list poll :=
  match polls with
  | [] => []
  | p :: rest =>
      if total_seconds_le (start - p.2) 0 then [] else p :: waiting start rest
  end.

(** Some poll finds no time left. *)
Definition fired (start : Z) (polls : list poll) : bool :=
  existsb (fun p => total_seconds_le (start - p.2) 0) polls.

(** Some poll before that finds at most 300 seconds left. *)
Definition reminded (start : Z) (polls : list poll) : bool :=
  existsb (fun p => total_seconds_le (start - p.2) 300) (waiting start polls).

Definition countdown_spec (start channel : Z) (five_minute_reminder_sent : bool)
    (polls : list poll) : list effect * loop_end :=
  ((if negb five_minute_reminder_sent && reminded start polls
    then [ChannelSend channel reminder_text] else [])
     ++ (if fired start polls then [ChannelSend channel start_text] else []),
   if fired start polls then Broke
   else Sleeping (five_minute_reminder_sent || reminded start polls)).

(** How many times a text is sent to a channel. *)
Definition sends (text : string) (out : list effect) : nat :=
  length (List.filter
            (fun e => match e with
                      | ChannelSend _ t => String.eqb t text
                      | _ => false
                      end) out).

(** One reminder and one start message. *)
Definition exactly_once_each (out : list effect) : Prop :=
  sends reminder_text out = 1%nat ∧ sends start_text out = 1%nat.

(** *** Loot splits *)

Definition state_of {S E : Type} (r : S * list E * outcome) : S := r.1.1.
Definition effects_of {S E : Type} (r : S * list E * outcome) : list E := r.1.2.
Definition outcome_of {S E : Type} (r : S * list E * outcome) : outcome := r.2.

(** A call on a context without a split, as the specification words it:
    it returns, tells the caller, and changes nothing. *)
Definition reports_not_found (st : world) (r : world * list effect * outcome)
    : Prop :=
  outcome_of r = Returned ∧ effects_of r ≠ [] ∧ state_of r = st.

Definition deliver (st : world) (m : message) : world := state_of (on_message m st).

(** The ledger entry of [player] after [finalize_split] on a split [sp]. *)
Definition credited_once (sp : split) (before : gmap Z pyfloat) (player : Z)
    : pyfloat :=
  match players sp !! player with
  | Some info =>
      if eligible info
      then fadd (get_player_value before player) (worth sp)
      else get_player_value before player
  | None => get_player_value before player
  end.

(** Two versions of a split with the same share and the same
    [value_added] flags. *)
Definition same_credit (sp sp' : split) : Prop :=
  worth sp' = worth sp ∧
  ∀ player, value_added <$> players sp' !! player
            = value_added <$> players sp !! player.

End Runs.

Import Runs.

(** ** Sample data *)

Module Samples.

(** An announcement with the slots Tank and Healer, then two sign-ups. *)
Definition two_signups : list action :=
  [Announce ["Tank"; "Healer"] 1234 10 600000000 55;
   Press ["Tank"; "Healer"] "Tank" 55 "<@1>";
   Press ["Tank"; "Healer"] "Healer" 55 "<@2>"].

Definition two_signups_event : event :=
  Event (Some 55) 10
    (<["Tank" := ["<@1>"]]> (<["Healer" := ["<@2>"]]> ∅))
    (<["<@1>" := "Tank"]> (<["<@2>" := "Healer"]> ∅))
    600000000 false.

(** The creator presses the cancel button of that announcement. *)
Definition cancel_pressed : registry * list effect * outcome :=
  RaidAnnouncement.cancel_event_callback true true 55 (run_actions two_signups).

(** The polls of the loop of that event, which starts at 600 s: one at
    240 s, before the cancel button is pressed, then one every 60 s. *)
Definition polls_around_cancel : list poll :=
  (run_actions two_signups, 240000000)
    :: ((fun now => (cancel_pressed.1.1, now))
          <$> [300000000; 360000000; 420000000; 480000000; 540000000;
               600000000; 660000000]).

(** A split of 9000 among three members, two of whom have sent a proof. *)
Definition three_way : split :=
  SplitOf (<[1 := PlayerInfo true 1 false]>
             (<[2 := PlayerInfo true 2 false]>
                (<[3 := PlayerInfo false 0 false]> ∅)))
    (of_Z 3000).

Definition split_running : world :=
  World (<[5 := three_way]> ∅) (<[5 := 77]> ∅) (<[1 := of_Z 100]> ∅).

Definition no_split : world := World ∅ ∅ (<[1 := of_Z 100]> ∅).

(** A message with an attachment, sent by member 3 in channel 5. *)
Definition proof_message : message := Message 900 5 3 1 "".

(** Two presses on the Confirm button of the split of channel 5, the second
    while the first call awaits the store: both calls get their connection
    and test the first participant; then, for each of the two participants
    who sent a proof, the first call reads and writes the row, the second
    call reads and writes it, and both are resumed and set the flag; the
    first call answers and deletes the split, then the second. *)
Definition confirm_pressed : call := Call Channel true Connecting.

Definition overlapping : list bool :=
  [true; false]
    ++ [true; true; false; false; true; false]
    ++ [true; true; false; false; true; false]
    ++ [true; true; false; false].

(** The same two presses, the second when the first call has ended. *)
Definition one_after_the_other : list bool :=
  repeat true 12 ++ repeat false 12.

End Samples.

Import Samples.

(** ** Role settings and permissions *)

Module Settings.

(** The [settings] table of a guild: [setting_name] is the primary key. *)

(** [INSERT OR REPLACE INTO settings]. *)
Definition set_role_setting (settings : gmap string Z) (setting_name : string)
    (role_id : Z) : gmap string Z :=
  <[setting_name := role_id]> settings.

(** [SELECT role_id ... WHERE setting_name = ?], [None] when there is no row. *)
Definition get_role_setting (settings : gmap string Z) (setting_name : string)
    : option Z :=
  settings !! setting_name.

Definition content_admin : string := "Content Admin rights".
Definition split_admin : string := "Split-admin rights".

(** The truth value of [role_id] in [if role_id:]. *)
Definition truthy (role_id : option Z) : bool :=
  match role_id with
  | Some r => negb (r =? 0)
  | None => false
  end.

(** Who presses a button or runs a command: the id of the user and the ids
    of the roles the user holds. *)
Record member : Type := Member {
  user_id : Z;
  roles_held : list Z
}.

(** [guild.get_role(role_id)] and [discord.utils.get(guild.roles, id=role_id)]:
    the role when the guild has it, else [None]. *)
Definition get_role (guild_roles : list Z) (role_id : Z) : option Z :=
  if bool_decide (role_id ∈ guild_roles) then Some role_id else None.

(** [role in user.roles], false when the role is [None]. *)
Definition holds (user : member) (role : option Z) : bool :=
  match role with
  | Some r => bool_decide (r ∈ roles_held user)
  | None => false
  end.

(** The test of the cancel callbacks once the setting is truthy:
    [content_role in button_interaction.user.roles or
     button_interaction.user == interaction.user]. *)
Definition may_cancel (guild_roles : list Z) (role_id : Z) (user : member)
    (creator : Z) : bool :=
  holds user (get_role guild_roles role_id) || (user_id user =? creator).

(** The cancel callback of [f2b] with its reads of the settings and of the
    guild. *)
Definition raid_cancel_pressed (settings : gmap string Z) (guild_roles : list Z)
    (user : member) (creator msg : Z) (st : registry)
    : registry * list effect * outcome :=
  let role_id := get_role_setting settings content_admin in
  RaidAnnouncement.cancel_event_callback (truthy role_id)
    (match role_id with
     | Some r => may_cancel guild_roles r user creator
     | None => false
     end) msg st.

(** The cancel callback of [ff], likewise. *)
Definition ff_cancel_pressed (settings : gmap string Z) (guild_roles : list Z)
    (user : member) (creator msg : Z) (st : registry)
    : registry * list effect * outcome :=
  let role_id := get_role_setting settings content_admin in
  FFAnnouncement.cancel_event_callback (truthy role_id)
    (match role_id with
     | Some r => may_cancel guild_roles r user creator
     | None => false
     end) msg st.

Definition no_permission_command_text : string :=
  "You do not have permission to use this command.".
Definition split_admin_unset_text : string :=
  "Split-admin rights role is not set. Please set it using /settings.".

(** [AdminCommands.cog_check]: the answer and the message sent with a
    refusal. *)
Definition cog_check (settings : gmap string Z) (guild_roles : list Z)
    (user : member) : bool * list effect :=
  let role_id := get_role_setting settings split_admin in
  if truthy role_id then
    match role_id with
    | Some r =>
        if holds user (get_role guild_roles r) then (true, [])
        else (false, [Respond no_permission_command_text])
    | None => (false, [Respond split_admin_unset_text])
    end
  else (false, [Respond split_admin_unset_text]).

End Settings.

Import Settings.

(** ** Creating an event *)

Module Creation.

(** The text of a [str] is taken in UTF-8; [code_points] gives its
    characters back, [None] for bytes that are the UTF-8 form of no text. *)
Definition byte (c : ascii) : Z := Z.of_N (N_of_ascii c).

Definition trail (c : ascii) : option Z :=
  if (128 <=? byte c) && (byte c <=? 191) then Some (byte c - 128) else None.

Fixpoint code_points (l : list ascii) : option (list Z) :=
  match l with
  | [] => Some []
  | a :: r =>
      let x := byte a in
      if x <? 128 then cons x <$> code_points r
      else if (194 <=? x) && (x <=? 223) then
        match r with
        | b :: r1 =>
            match trail b with
            | Some y => cons ((x - 192) * 64 + y) <$> code_points r1
            | None => None
            end
        | _ => None
        end
      else if (224 <=? x) && (x <=? 239) then
        match r with
        | b :: c :: r2 =>
            match trail b, trail c with
            | Some y, Some z =>
                let cp := ((x - 224) * 64 + y) * 64 + z in
                if (2048 <=? cp) && negb ((55296 <=? cp) && (cp <=? 57343))
                then cons cp <$> code_points r2
                else None
            | _, _ => None
            end
        | _ => None
        end
      else if (240 <=? x) && (x <=? 244) then
        match r with
        | b :: c :: d :: r3 =>
            match trail b, trail c, trail d with
            | Some y, Some z, Some w =>
                let cp := (((x - 240) * 64 + y) * 64 + z) * 64 + w in
                if (65536 <=? cp) && (cp <=? 1114111)
                then cons cp <$> code_points r3
                else None
            | _, _, _ => None
            end
        | _ => None
        end
      else None
  end.

(** The decimal digits of Unicode (category Nd), which are what [\d]
    matches in a pattern on [str] and what [int] reads: they come in runs of
    ten, from the zero to the nine of a script.  The zeros are those of the
    Unicode database 14.0.0, the one of CPython 3.11. *)
Definition decimal_zeros : list Z :=
  [48; 1632; 1776; 1984; 2406; 2534; 2662; 2790; 2918; 3046; 3174; 3302;
   3430; 3558; 3664; 3792; 3872; 4160; 4240; 6112; 6160; 6470; 6608; 6784;
   6800; 6992; 7088; 7232; 7248; 42528; 43216; 43264; 43472; 43504; 43600;
   44016; 65296; 66720; 68912; 69734; 69872; 69942; 70096; 70384; 70736;
   70864; 71248; 71360; 71472; 71904; 72016; 72784; 73040; 73120; 92768;
   92864; 93008; 120782; 120792; 120802; 120812; 120822; 123200; 123632;
   125264; 130032].

(** The value of a decimal digit. *)
Definition decimal (c : Z) : option Z :=
  match List.find (fun z => (z <=? c) && (c <=? z + 9)) decimal_zeros with
  | Some z => Some (c - z)
  | None => None
  end.

(** [datetime.strptime(time, "%H:%M")]: the text is matched from its start
    against [(?P<H>2[0-3]|[0-1]\d|\d):(?P<M>[0-5]\d|\d)], the fields are
    read by [int], and nothing may follow the match.  [None] is ValueError. *)

(** The alternatives of the hour that match, in the order of the pattern,
    each with what follows it. *)
Definition hour_alternatives (l : list Z) : list (Z * list Z) :=
  match l with
  | a :: b :: r =>
      (if (a =? 50) && (48 <=? b) && (b <=? 51) then [(20 + (b - 48), r)] else [])
      ++ (if (a =? 48) || (a =? 49) then
            match decimal b with
            | Some d => [(10 * (a - 48) + d, r)]
            | None => []
            end
          else [])
  | _ => []
  end
  ++ match l with
     | a :: r =>
         match decimal a with
         | Some d => [(d, r)]
         | None => []
         end
     | [] => []
     end.

(** The minute: the first of its alternatives that matches. *)
Definition read_minute (l : list Z) : option (Z * list Z) :=
  match l with
  | a :: r =>
      match (if (48 <=? a) && (a <=? 53) then
               match r with
               | b :: r' =>
                   match decimal b with
                   | Some d => Some (10 * (a - 48) + d, r')
                   | None => None
                   end
               | [] => None
               end
             else None) with
      | Some found => Some found
      | None =>
          match decimal a with
          | Some d => Some (d, r)
          | None => None
          end
      end
  | [] => None
  end.

(** The colon and the minute after an alternative of the hour. *)
Definition after_hour (alternative : Z * list Z) : option (Z * Z * list Z) :=
  match alternative.2 with
  | c :: r =>
      if c =? 58 then
        match read_minute r with
        | Some (m, rest) => Some (alternative.1, m, rest)
        | None => None
        end
      else None
  | [] => None
  end.

Definition strptime_hm (time : string) : option (Z * Z) :=
  match code_points (list_ascii_of_string time) with
  | Some l =>
      match head (omap after_hour (hour_alternatives l)) with
      | Some (h, m, []) => Some (h, m)
      | _ => None
      end
  | None => None
  end.

(** A day, in microseconds. *)
Definition day_us : Z := 86400000000.

(** The start time of the event: the hour and minute asked, on the UTC day
    of [now], and a day later when that moment is before [now]. *)
Definition start_time_for (h m now : Z) : Z :=
  let today := now - now mod day_us in
  let event_start_time := today + (h * 3600 + m * 60) * 1000000 in
  if event_start_time <? now then event_start_time + day_us
  else event_start_time.

(** The loop [while event_id in self.active_events] on the numbers that
    [random.randint(1000, 9999)] gives; [None] when all of them are used and
    the loop goes on. *)
Fixpoint pick_event_id (draws : list Z) (active : gmap Z event) : option Z :=
  match draws with
  | [] => None
  | event_id :: rest =>
      if bool_decide (is_Some (active !! event_id))
      then pick_event_id rest active
      else Some event_id
  end.

Definition invalid_time_text : string :=
  "Invalid time format. Please use HH:MM UTC (e.g., 14:00 UTC).".

(** How a command gets to its countdown: it answers with an error and
    returns, or it is still drawing an event id, or the announcement is
    posted and [track_event_time] runs for the event. *)
Inductive setup : Type :=
| Refused (text : string)
| Drawing
| Tracking (st : registry) (event_id start : Z).

(** [f2b] up to the call of [track_event_time]; [msg] is the id of the
    announcement as posted. *)
Definition f2b (time : string) (now : Z) (draws : list Z) (channel msg : Z)
    (st : registry) : setup :=
  match strptime_hm time with
  | None => Refused invalid_time_text
  | Some (h, m) =>
      let event_start_time := start_time_for h m now in
      match pick_event_id draws (active_events st) with
      | None => Drawing
      | Some event_id =>
          Tracking
            (announce RaidAnnouncement.roles_list event_id channel
               event_start_time msg st)
            event_id event_start_time
      end
  end.

(** [FFAnnouncement.role_choices], in the order of its keys. *)
Definition role_choices : list (string * list string) :=
  [("Roads-Pve",
    ["🛡️ Incubus"; "🔥 Blazing"; "💀 Shadowcaller"; "🌳 Ironroot"; "❄️ Frost";
     "🕊️ Holy Staff"; "🏹 Longbow"; "⚔️ Spirit-Hunter"; "⚡ Realm-Breaker"]);
   ("Static Run",
    ["🛡️ 1hand-Mace"; "🛡️ Incubus"; "⚖️ HoJ"; "🌿 EarthRune"; "🕊️ Holy Staff";
     "💀 Shadowcaller"; "⚡ Realm-Breaker"; "🔥 Blazing"; "⭐ Astral-staff"]);
   ("Ava-Raid",
    ["🌟 Lightcaller1"; "🌟 Lightcaller2"; "🏹 Xbow1"; "🏹 Xbow2"; "🏹 Xbow3";
     "🏹 Xbow4"; "🔥 Blazing"; "🔆 Dawnsong"; "❄️ Chillhowl1"; "❄️ Chillhowl2";
     "❄️ Chillhowl3"; "👻 Specterjacket"; "💀 Curse"; "⚔️ Carving";
     "⚔️ Spirit-Hunter"; "⚡ Realm-Breaker"; "💀 Curse'supp"; "🌳 Iron-root";
     "✨ 1hand-arcane"; "✨ Great-arcane"; "🕊️ Mainheal"; "🛡️ Offtank"]);
   ("Ganking",
    ["🏃 Doubble-bladed1"; "🏃 Doubble-bladed2"; "🏃 Doubble-bladed3";
     "💥 Oneshot-Xbow1"; "💥 Oneshot-Xbow2"; "💥 Oneshot-Xbow3";
     "👹 Claws Fiend-robe Swap1"; "👹 Claws Fiend-robe Swap2";
     "👹 Claws Fiend-robe Swap3"; "💀 1hand Curse Fiend-Robe Swap1";
     "💀 1hand Curse Fiend-Robe Swap2"; "💀 1hand Curse Fiend-Robe Swap3";
     "✨ Staff of Balance"; "🐾 Bearpaws Fiend-Robe Swap1";
     "🐾 Bearpaws Fiend-Robe Swap2"; "🐾 Bearpaws Fiend-Robe Swap3"])].

(** [self.role_choices[title]], [None] when [title] is not a key. *)
Fixpoint choices_for (table : list (string * list string)) (title : string)
    : option (list string) :=
  match table with
  | [] => None
  | (key, roles) :: rest =>
      if String.eqb key title then Some roles else choices_for rest title
  end.

Fixpoint join (sep : string) (l : list string) : string :=
  match l with
  | [] => ""
  | [x] => x
  | x :: rest => x ++ sep ++ join sep rest
  end.

Definition invalid_title_text : string :=
  "Invalid title. Available titles are: " ++ join ", " (role_choices.*1) ++ ".".

(** [ff] up to the call of [track_event_time]: the title is looked up after
    the event id is drawn. *)
Definition ff (title start_time : string) (now : Z) (draws : list Z)
    (channel msg : Z) (st : registry) : setup :=
  match strptime_hm start_time with
  | None => Refused invalid_time_text
  | Some (h, m) =>
      let event_start_time := start_time_for h m now in
      match pick_event_id draws (active_events st) with
      | None => Drawing
      | Some event_id =>
          match choices_for role_choices title with
          | Some roles_list =>
              Tracking
                (announce roles_list event_id channel event_start_time msg st)
                event_id event_start_time
          | None => Refused invalid_title_text
          end
      end
  end.






End Creation.

Import Creation.

(** ** Showing numbers *)

Module Display.

(** [str(n)] for an integer. *)
Definition str_Z (z : Z) : string := NilZero.string_of_int (Z.to_int z).

(** The integer nearest to [num / den], ties to the even one. *)
Definition round_half_even (num den : Z) : Z :=
  let q := num / den in
  let r := num mod den in
  match 2 * r ?= den with
  | Lt => q
  | Gt => q + 1
  | Eq => if Z.even q then q else q + 1
  end.

(** [f"{x:.1f}"]: the exact value of the float rounded to one decimal. *)
Definition format_1f (x : pyfloat) : string :=
  match x with
  | S754_nan => "nan"
  | S754_infinity s => if s then "-inf" else "inf"
  | S754_zero s => if s then "-0.0" else "0.0"
  | S754_finite s m e =>
      let tenths :=
        if 0 <=? e then Z.pos m * 2 ^ e * 10
        else round_half_even (Z.pos m * 10) (2 ^ (- e)) in
      ((if s then "-" else "") ++ str_Z (tenths / 10) ++ "."
         ++ str_Z (tenths mod 10))%string
  end.

(** What [format_number] gives: a text, or the exception of [int(value)]. *)
Inductive formatted : Type :=
| Text (t : string)
| IntOfNaN      (** ValueError: cannot convert float NaN to integer *)
| IntOfInfinity (** OverflowError: cannot convert float infinity to integer *).

(** [int(value)] of a finite float: towards 0. *)
Definition trunc (s : bool) (m : positive) (e : Z) : Z :=
  let a := if 0 <=? e then Z.pos m * 2 ^ e else Z.pos m / 2 ^ (- e) in
  if s then - a else a.

Definition format_number (value : pyfloat) : formatted :=
  if fleb (of_Z 1000000) value then
    Text (format_1f (fdiv value (of_Z 1000000)) ++ "m")
  else if fleb (of_Z 1000) value then
    Text (format_1f (fdiv value (of_Z 1000)) ++ "k")
  else
    match value with
    | S754_nan => IntOfNaN
    | S754_infinity _ => IntOfInfinity
    | S754_zero _ => Text "0"
    | S754_finite s m e => Text (str_Z (trunc s m e))
    end.

End Display.

Import Display.

(** ** The value commands *)

Module Admin.

(** How a value command ends: with an answer, with the exception of
    [format_number] in place of the answer, or with the TypeError of
    [current_value + amount] and [current_value - amount] on [None]. *)
Inductive reply : Type :=
| Said (f : formatted)
| NoneOperand.

(** [add_value]: the ledger after the command, and its end. *)
Definition add_value (player_id : Z) (display_name value : string)
    (conn : gmap Z pyfloat) : gmap Z pyfloat * reply :=
  match parse_value value with
  | None => (conn, Said (Text invalid_value_text))
  | Some amount =>
      if reads_none conn player_id then (conn, NoneOperand)
      else
        (add_to_player_value conn player_id amount,
         Said match format_number amount with
              | Text t =>
                  Text ("Added " ++ t ++ " to " ++ display_name
                        ++ "'s total value.")
              | failure => failure
              end)
  end.

Definition remove_value (player_id : Z) (display_name value : string)
    (conn : gmap Z pyfloat) : gmap Z pyfloat * reply :=
  match parse_value value with
  | None => (conn, Said (Text invalid_value_text))
  | Some amount =>
      if reads_none conn player_id then (conn, NoneOperand)
      else
        (remove_from_player_value conn player_id amount,
         Said match format_number amount with
              | Text t =>
                  Text ("Removed " ++ t ++ " from " ++ display_name
                        ++ "'s total value.")
              | failure => failure
              end)
  end.

Definition reset_value (player_id : Z) (display_name : string)
    (conn : gmap Z pyfloat) : gmap Z pyfloat * reply :=
  (reset_player_value conn player_id,
   Said (Text ("Reset " ++ display_name ++ "'s total value to 0."))).

End Admin.

Import Admin.

(** ** Mentions as the platform writes them *)

Module Mentions.

(** [member.mention] and its form with a nickname mark. *)
Definition mention_of (id : Z) : string := "<@" ++ str_Z id ++ ">".
Definition nick_mention_of (id : Z) : string := "<@!" ++ str_Z id ++ ">".

(** The digits of a decimal numeral. *)
Fixpoint uint_digits (d : Decimal.uint) : list Z :=
  match d with
  | Decimal.Nil => []
  | Decimal.D0 d => 0 :: uint_digits d
  | Decimal.D1 d => 1 :: uint_digits d
  | Decimal.D2 d => 2 :: uint_digits d
  | Decimal.D3 d => 3 :: uint_digits d
  | Decimal.D4 d => 4 :: uint_digits d
  | Decimal.D5 d => 5 :: uint_digits d
  | Decimal.D6 d => 6 :: uint_digits d
  | Decimal.D7 d => 7 :: uint_digits d
  | Decimal.D8 d => 8 :: uint_digits d
  | Decimal.D9 d => 9 :: uint_digits d
  end.

(** The same float, bit for bit. *)
Definition same_float (x y : pyfloat) : bool :=
  match x, y with
  | S754_nan, S754_nan => true
  | S754_infinity s, S754_infinity s' => Bool.eqb s s'
  | S754_zero s, S754_zero s' => Bool.eqb s s'
  | S754_finite s m e, S754_finite s' m' e' =>
      Bool.eqb s s' && Pos.eqb m m' && (e =? e')
  | _, _ => false
  end.

(** A number shown by [format_number] and read by [parse_value] is the
    number itself. *)
Definition shown_reads_back (v : Z) : bool :=
  match format_number (of_Z v) with
  | Text t =>
      match parse_value t with
      | Some x => same_float x (of_Z v)
      | None => false
      end
  | _ => false
  end.

End Mentions.

Import Mentions.

(** ** The split commands with their embeds *)

(** [split_members] and [on_message] build the lines of the tracker embed
    with [format_number], which raises on a share or a total that [int]
    cannot convert.  Here the two functions are taken with these calls and
    with the calls to the platform that [on_message] makes. *)

Module Rendered.

(** [format_number] returns. *)
Definition can_show (v : pyfloat) : bool :=
  match format_number v with
  | Text _ => true
  | _ => false
  end.

(** [format_number(current_total_value)] returns for every member of the
    loop over [members]. *)
Definition totals_shown (conn : gmap Z pyfloat) (members : list Z) : bool :=
  forallb (fun id => can_show (get_player_value conn id)) members.

(** How a command ends: as before, or with the exception of
    [format_number]. *)
Inductive ending : Type :=
| Finished (o : outcome)
| FormatRaised.

Definition split_members (fetch_member : Z -> fetched) (post_id tracker : Z)
    (players : string) (value : option string) (st : world)
    : world * list split_effect * ending :=
  if String.eqb players "" then
    (st, [Plain (Respond no_players_text)], Finished Returned)
  else
    match read_mentions fetch_member (py_split players) [] with
    | InvalidMention mention =>
        (st, [Plain (Respond (invalid_mention_text mention))], Finished Returned)
    | InvalidFormat mention =>
        (st, [Plain (Respond (invalid_format_text mention))], Finished Returned)
    | FetchRaised => (st, [], Finished (Raised HTTPException))
    | Members members =>
        let stored :=
          <[post_id := SplitOf (fresh_players members) fzero]> (tagged_members st) in
        let without_value :=
          if totals_shown (conn st) members then
            (World stored (<[post_id := tracker]> (tracked_message_ids st))
               (conn st),
             [SplitStarted members None], Finished Returned)
          else
            (World stored (tracked_message_ids st) (conn st), [], FormatRaised) in
        match value with
        | Some value_text =>
            if (0 <? length members)%nat then
              match parse_value value_text with
              | None =>
                  (World stored (tracked_message_ids st) (conn st),
                   [Plain (Respond invalid_value_text)], Finished Returned)
              | Some total =>
                  let share := fdiv total (of_Z (Z.of_nat (length members))) in
                  let with_share :=
                    <[post_id := SplitOf (fresh_players members) share]> stored in
                  if can_show share && totals_shown (conn st) members then
                    (World with_share
                       (<[post_id := tracker]> (tracked_message_ids st))
                       (conn st),
                     [SplitStarted members (Some share)], Finished Returned)
                  else
                    (World with_share (tracked_message_ids st) (conn st), [],
                     FormatRaised)
              end
            else without_value
        | None => without_value
        end
    end.

(** [on_message].  [react_ok] tells whether [add_reaction] succeeds,
    [tracker_ok] whether the tracker message is fetched, has its embed and is
    edited, [prompt_ok] whether the verification prompt is sent; what is
    raised inside the [try] is caught and printed. *)
Definition on_message (react_ok tracker_ok prompt_ok : bool) (m : message)
    (st : world) : world * list effect * outcome :=
  if carries_proof m then
    match tagged_members st !! msg_channel m with
    | None => (st, [], Returned)
    | Some sp =>
        match players sp !! msg_author m with
        | None => (st, [], Returned)
        | Some info =>
            let info' :=
              PlayerInfo true (image_count info + 1) (value_added info) in
            let ps := <[msg_author m := info']> (players sp) in
            let st' :=
              World (<[msg_channel m := SplitOf ps (worth sp)]> (tagged_members st))
                (tracked_message_ids st) (conn st) in
            let shown :=
              (fun p => (fst p, submitted (snd p))) <$> map_to_list ps in
            if react_ok then
              match tracked_message_ids st !! msg_channel m with
              | Some tracker =>
                  if tracker =? 0 then (st', [React (msg_id m)], Returned)
                  else if tracker_ok && can_show (worth sp)
                          && totals_shown (conn st) (fst <$> map_to_list ps) then
                    (st',
                     [React (msg_id m); EditTracker tracker shown]
                       ++ (if all_submitted ps && prompt_ok
                           then [VerificationPrompt (msg_channel m) (msg_channel m)]
                           else []),
                     Returned)
                  else (st', [React (msg_id m)], Returned)
              | None => (st', [React (msg_id m)], Returned)
              end
            else (st', [], Raised HTTPException)
        end
    end
  else (st, [], Returned).

End Rendered.

(** ** Further predicates *)

Module More.

(** A word that stops the loop of [split_members]: not of the form of a
    mention, or without an integer between the brackets, or with an id whose
    fetch fails. *)
Definition unreadable (fetch_member : Z → fetched) (word : list ascii) : Prop :=
  is_mention word = false ∨
  py_int (member_id_text word) = None ∨
  ∃ id, py_int (member_id_text word) = Some id ∧ fetch_member id = FetchFails.

(** The character of a digit, and the texts of a number below 100 with and
    without a leading zero. *)
Definition digit_char (d : Z) : ascii := ascii_of_N (Z.to_N (48 + d)).

Definition pad2 (n : Z) : string :=
  String (digit_char (n / 10)) (String (digit_char (n mod 10)) EmptyString).

Definition short (n : Z) : string := String (digit_char n) EmptyString.

(** The texts that [strptime] reads as the hour or minute [v]: two digits,
    or one digit when [v] is below 10. *)
Definition field_text (v : Z) (t : string) : Prop :=
  t = pad2 v ∨ (v < 10 ∧ t = short v).

(** The texts, in characters, that the pattern of [strptime] takes for an
    hour and for a minute, with what [int] reads them as: the two characters
    of 20 to 23 and the leading 0 and 1 are those of ASCII, the other digits
    are any decimal digits of Unicode. *)
Inductive hour_text : list Z → Z → Prop :=
| hour_twenties (b : Z) : 48 ≤ b ≤ 51 → hour_text [50; b] (20 + (b - 48))
| hour_tens (a b d : Z) :
    a = 48 ∨ a = 49 → decimal b = Some d → hour_text [a; b] (10 * (a - 48) + d)
| hour_digit (a d : Z) : decimal a = Some d → hour_text [a] d.

Inductive minute_text : list Z → Z → Prop :=
| minute_tens (a b d : Z) :
    48 ≤ a ≤ 53 → decimal b = Some d → minute_text [a; b] (10 * (a - 48) + d)
| minute_digit (a d : Z) : decimal a = Some d → minute_text [a] d.

(** All of them are read back, as far as they are texts of [h] and [m]. *)
Definition reads_back (h m : Z) : bool :=
  (match strptime_hm (pad2 h ++ ":" ++ pad2 m) with
   | Some (h', m') => (h' =? h) && (m' =? m)
   | None => false
   end)
  && ((9 <? m) || match strptime_hm (pad2 h ++ ":" ++ short m) with
                 | Some (h', m') => (h' =? h) && (m' =? m)
                 | None => false
                 end)
  && ((9 <? h) || match strptime_hm (short h ++ ":" ++ pad2 m) with
                 | Some (h', m') => (h' =? h) && (m' =? m)
                 | None => false
                 end)
  && ((9 <? h) || (9 <? m)
      || match strptime_hm (short h ++ ":" ++ short m) with
         | Some (h', m') => (h' =? h) && (m' =? m)
         | None => false
         end).

(** A registry in which every id that [random.randint(1000, 9999)] can give
    is that of an event. *)
Definition full_registry : registry :=
  Registry
    (list_to_map ((fun id => (id, new_event [] 10 0)) <$> seqZ 1000 9000)) ∅.

End More.

Import More.

(** * Properties *)

(** ** The value parser *)

Section ParseValue.

Lemma lower_app (s t : string) : lower (s ++ t) = (lower s ++ lower t)%string.
Proof. induction s as [|c s IH]; simpl; [reflexivity | now rewrite IH]. Qed.

Lemma endswith_snoc (s : string) (c d : ascii) :
  endswith (s ++ String c EmptyString) d = Ascii.eqb c d.
Proof.
  induction s as [|a s IH]; simpl; [reflexivity |].
  rewrite IH. destruct s; reflexivity.
Qed.

Lemma drop_last_snoc (s : string) (c : ascii) :
  drop_last (s ++ String c EmptyString) = s.
Proof.
  induction s as [|a s IH]; simpl; [reflexivity |].
  rewrite IH. destruct s; reflexivity.
Qed.

(** A text whose last character is [k] or [K]: the prefix, in lower case,
    goes through [float()] and the result is multiplied by 1000. *)
Lemma parse_value_k (p : string) (c : ascii) :
  lower_ascii c = "k"%char ->
  parse_value (p ++ String c EmptyString) =
  (fun x => fmul x (of_Z 1000)) <$> float_of_string (lower p).
Proof.
  intros Hc. unfold parse_value.
  rewrite lower_app. simpl lower. rewrite Hc.
  rewrite endswith_snoc, drop_last_snoc. simpl.
  destruct (float_of_string (lower p)); reflexivity.
Qed.

Lemma parse_value_m (p : string) (c : ascii) :
  lower_ascii c = "m"%char ->
  parse_value (p ++ String c EmptyString) =
  (fun x => fmul x (of_Z 1000000)) <$> float_of_string (lower p).
Proof.
  intros Hc. unfold parse_value.
  rewrite lower_app. simpl lower. rewrite Hc.
  rewrite !endswith_snoc, drop_last_snoc. simpl.
  destruct (float_of_string (lower p)); reflexivity.
Qed.

End ParseValue.

(** C8. [parse_value] maps "2.5k" to 2500 and "1m" to 1000000, returns
    [None] (no number, no exception) on "abc"; and for every prefix [p], the
    text [p] followed by k is the number [float(p)] times 1000, the text [p]
    followed by m is [float(p)] times 1000000, the result being [None]
    exactly when [float(p)] raises ValueError. *)
Theorem parse_value_magnitudes :
  parse_value "2.5k" = Some (of_Z 2500) /\
  parse_value "1m" = Some (of_Z 1000000) /\
  parse_value "abc" = None /\
  (forall p : string,
      parse_value (p ++ "k") =
      (fun x => fmul x (of_Z 1000)) <$> float_of_string (lower p)) /\
  (forall p : string,
      parse_value (p ++ "m") =
      (fun x => fmul x (of_Z 1000000)) <$> float_of_string (lower p)).
Proof.
  split; [vm_compute; reflexivity |].
  split; [vm_compute; reflexivity |].
  split; [vm_compute; reflexivity |].
  split; intros p.
  - apply parse_value_k. reflexivity.
  - apply parse_value_m. reflexivity.
Qed.

(** ** The ledger *)

Section LedgerFacts.

Variable conn : gmap Z pyfloat.
Variables player_id : Z.

Lemma get_update_same (v : pyfloat) :
  get_player_value (update_player_value conn player_id v) player_id = v.
Proof.
  unfold get_player_value, update_player_value.
  now rewrite lookup_insert_eq.
Qed.

Lemma get_update_other (other : Z) (v : pyfloat) :
  other <> player_id ->
  get_player_value (update_player_value conn player_id v) other =
  get_player_value conn other.
Proof.
  intros Hne. unfold get_player_value, update_player_value.
  rewrite lookup_insert_ne by congruence. reflexivity.
Qed.

Lemma py_max_not_below (x : pyfloat) : fltb (py_max x fzero) fzero = false.
Proof.
  unfold py_max. destruct (fltb x fzero) eqn:E; [reflexivity | exact E].
Qed.

End LedgerFacts.

(** C9. [remove_from_player_value] stores [max(current - amount, 0)] for the
    player, whatever the current value and the amount (so in particular for
    every non-negative amount), and the stored value is never below 0. *)
Theorem remove_from_player_value_floor (conn : gmap Z pyfloat)
    (player_id : Z) (amount : pyfloat) :
  let conn' := remove_from_player_value conn player_id amount in
  get_player_value conn' player_id =
    py_max (fsub (get_player_value conn player_id) amount) fzero /\
  fltb (get_player_value conn' player_id) fzero = false.
Proof.
  cbv zeta. unfold remove_from_player_value.
  rewrite get_update_same. split; [reflexivity | apply py_max_not_below].
Qed.

(** C10. [add_to_player_value] stores [current + amount] with no clamp;
    [parse_value] accepts a negative text: "-5k" is -5000; and adding that
    amount to a player without an entry leaves the entry at -5000, below 0,
    where removing 5000 leaves it at 0. *)
Theorem add_to_player_value_unclamped :
  (forall (conn : gmap Z pyfloat) (player_id : Z) (amount : pyfloat),
      get_player_value (add_to_player_value conn player_id amount) player_id =
      fadd (get_player_value conn player_id) amount) /\
  parse_value "-5k" = Some (of_Z (-5000)) /\
  get_player_value (add_to_player_value ∅ 7 (of_Z (-5000))) 7 = of_Z (-5000) /\
  fltb (get_player_value (add_to_player_value ∅ 7 (of_Z (-5000))) 7) fzero = true /\
  get_player_value (remove_from_player_value ∅ 7 (of_Z 5000)) 7 = fzero.
Proof.
  split.
  - intros conn player_id amount. unfold add_to_player_value.
    apply get_update_same.
  - repeat split; vm_compute; reflexivity.
Qed.

(** ** Sign-ups *)

Section PyRemove.

Implicit Types (l : list string) (u x : string).

Lemma py_remove_absent u l : u ∉ l → py_remove u l = l.
Proof.
  induction l as [|y l IH]; simpl; [done |].
  intros Hn. apply not_elem_of_cons in Hn as [Hne Hn].
  destruct (decide (u = y)); [done |]. by rewrite IH.
Qed.

Lemma py_remove_sub u x l : x ∈ py_remove u l → x ∈ l.
Proof.
  induction l as [|y l IH]; simpl; [done |].
  destruct (decide (u = y)); rewrite !elem_of_cons; tauto.
Qed.

Lemma py_remove_other u x l : x ≠ u → x ∈ py_remove u l ↔ x ∈ l.
Proof.
  intros Hne. induction l as [|y l IH]; simpl; [done |].
  destruct (decide (u = y)) as [<-|]; rewrite !elem_of_cons; tauto.
Qed.

Lemma py_remove_NoDup u l : NoDup l → NoDup (py_remove u l).
Proof.
  induction 1 as [|y l Hy Hl IH]; simpl; [constructor |].
  destruct (decide (u = y)); [done |].
  constructor; [| done]. intros ?%py_remove_sub. done.
Qed.

Lemma py_remove_gone u l : NoDup l → u ∉ py_remove u l.
Proof.
  induction 1 as [|y l Hy Hl IH]; simpl; [apply not_elem_of_nil |].
  destruct (decide (u = y)) as [->|]; [done |].
  rewrite elem_of_cons. intros [->|]; tauto.
Qed.

Lemma filter_absent u l : u ∉ l → filter (fun x => x ≠ u) l = l.
Proof.
  induction l as [|y l IH]; [done |].
  intros [Hne Hn]%not_elem_of_cons.
  rewrite filter_cons_True by congruence. by rewrite IH.
Qed.

Lemma py_remove_filter u l :
  NoDup l → py_remove u l = filter (fun x => x ≠ u) l.
Proof.
  induction 1 as [|y l Hy Hl IH]; simpl; [done |].
  destruct (decide (u = y)) as [->|Hne].
  - rewrite filter_cons_False by (intros Hc; by apply Hc).
    by rewrite filter_absent.
  - rewrite filter_cons_True by congruence. by rewrite IH.
Qed.

End PyRemove.

Section Toggle.

Variables (role user : string) (ev : event).

Let sweep (others : list string) : list string :=
  if bool_decide (user ∈ others) then py_remove user others else others.

Lemma sweep_remove (others : list string) : sweep others = py_remove user others.
Proof.
  unfold sweep. case_bool_decide; [done |]. by rewrite py_remove_absent.
Qed.

Lemma occupies_with_slots x r ur aur :
  occupies x r (with_slots ev ur aur) ↔ ∃ l, ur !! r = Some l ∧ x ∈ l.
Proof. done. Qed.

(** The sign-up branch, once the two tests have failed. *)
Lemma slot_toggle_signup (l : list string) :
  user_roles ev !! role = Some l →
  user ∉ l →
  active_users_roles ev !! user = None →
  slot_toggle role user ev =
  SignedUp (with_slots ev
              (<[role := l ++ [user]]> (py_remove user <$> user_roles ev))
              (<[user := role]> (active_users_roles ev))).
Proof.
  intros Hl Hn Ha. unfold slot_toggle. rewrite Hl.
  rewrite bool_decide_eq_false_2 by done.
  rewrite bool_decide_eq_false_2 by (rewrite Ha; by intros [? ?]).
  assert ((λ others : list string,
             if bool_decide (user ∈ others)
             then py_remove user others else others) <$> user_roles ev
          = py_remove user <$> user_roles ev) as ->.
  { apply map_fmap_ext. intros ? others _. apply sweep_remove. }
  rewrite lookup_fmap, Hl. simpl. by rewrite py_remove_absent.
Qed.

Lemma slot_toggle_unsign (l : list string) :
  user_roles ev !! role = Some l →
  user ∈ l →
  slot_toggle role user ev =
  Unsigned (with_slots ev
              (<[role := py_remove user l]> (user_roles ev))
              (delete user (active_users_roles ev))).
Proof.
  intros Hl Hin. unfold slot_toggle. rewrite Hl.
  by rewrite bool_decide_eq_true_2.
Qed.

Lemma slot_toggle_conflict (l : list string) :
  user_roles ev !! role = Some l →
  user ∉ l →
  is_Some (active_users_roles ev !! user) →
  slot_toggle role user ev = AlreadySignedUp.
Proof.
  intros Hl Hn Ha. unfold slot_toggle. rewrite Hl.
  rewrite bool_decide_eq_false_2 by done.
  by rewrite bool_decide_eq_true_2.
Qed.

Lemma slot_toggle_no_role :
  user_roles ev !! role = None → slot_toggle role user ev = NoSuchRole.
Proof. intros Hl. unfold slot_toggle. by rewrite Hl. Qed.

(** The slots after an unsign. *)
Lemma unsign_slots_wf (l : list string) :
  slots_wf ev →
  user_roles ev !! role = Some l →
  slots_wf (with_slots ev (<[role := py_remove user l]> (user_roles ev))
              (delete user (active_users_roles ev))).
Proof.
  intros [Hnd Hone] Hl.
  assert (∀ x r, occupies x r (with_slots ev
              (<[role := py_remove user l]> (user_roles ev))
              (delete user (active_users_roles ev))) → occupies x r ev) as Hsub.
  { intros x r [l0 [Hr Hx]]. simpl in Hr. rewrite lookup_insert in Hr.
    case_decide as Hd.
    - subst r. injection Hr as <-. exists l. split; [done |].
      by eapply py_remove_sub.
    - by exists l0. }
  split.
  - intros r l0 Hr. simpl in Hr. rewrite lookup_insert in Hr.
    case_decide.
    + injection Hr as <-. apply py_remove_NoDup. by eapply Hnd.
    + by eapply Hnd.
  - intros x r1 r2 H1 H2. eapply Hone; by apply Hsub.
Qed.

(** The slots after a sign-up: the sweep leaves the user in no other slot. *)
Lemma signup_slots_wf (l : list string) :
  slots_wf ev →
  user_roles ev !! role = Some l →
  user ∉ l →
  slots_wf (with_slots ev
              (<[role := l ++ [user]]> (py_remove user <$> user_roles ev))
              (<[user := role]> (active_users_roles ev))).
Proof.
  intros [Hnd Hone] Hl Hn.
  split.
  - intros r l0 Hr. simpl in Hr. rewrite lookup_insert in Hr.
    case_decide.
    + injection Hr as <-. apply NoDup_app. split; [by eapply Hnd |].
      split; [| apply NoDup_singleton].
      intros x Hx ->%list_elem_of_singleton. done.
    + rewrite lookup_fmap in Hr.
      destruct (user_roles ev !! r) as [l1|] eqn:Hr1; [| done].
      injection Hr as <-. apply py_remove_NoDup. by eapply Hnd.
  - assert (∀ x r, occupies x r (with_slots ev
              (<[role := l ++ [user]]> (py_remove user <$> user_roles ev))
              (<[user := role]> (active_users_roles ev))) →
            (x = user ∧ r = role) ∨ (x ≠ user ∧ occupies x r ev)) as Hcase.
    { intros x r [l0 [Hr Hx]]. simpl in Hr. rewrite lookup_insert in Hr.
      case_decide as Hd.
      - subst r. injection Hr as <-. apply elem_of_app in Hx as [Hx|Hx].
        + right. split; [intros ->; done |]. by exists l.
        + apply list_elem_of_singleton in Hx. by left.
      - rewrite lookup_fmap in Hr.
        destruct (user_roles ev !! r) as [l1|] eqn:Hr1; [| done].
        injection Hr as <-. right.
        assert (x ≠ user) as Hne.
        { intros ->. eapply py_remove_gone; [| exact Hx]. by eapply Hnd. }
        split; [done |]. exists l1. split; [done |].
        by eapply py_remove_sub. }
    intros x r1 r2 H1 H2.
    destruct (Hcase _ _ H1) as [[-> ->]|[Hx1 Ho1]],
             (Hcase _ _ H2) as [[Hx ->]|[Hx2 Ho2]]; try done.
    by eapply Hone.
Qed.

(** [slot_toggle] keeps the slots well formed, from any event. *)
Lemma slot_toggle_slots_wf :
  slots_wf ev →
  match slot_toggle role user ev with
  | Unsigned ev' | SignedUp ev' => slots_wf ev'
  | AlreadySignedUp | NoSuchRole => True
  end.
Proof.
  intros Hwf.
  destruct (user_roles ev !! role) as [l|] eqn:Hl;
    [| by rewrite slot_toggle_no_role].
  destruct (decide (user ∈ l)) as [Hin|Hn].
  { rewrite (slot_toggle_unsign l) by done. by apply unsign_slots_wf. }
  destruct (active_users_roles ev !! user) as [r|] eqn:Ha.
  { by rewrite (slot_toggle_conflict l) by (rewrite ?Ha; done). }
  rewrite (slot_toggle_signup l) by done. by apply signup_slots_wf.
Qed.

End Toggle.

Section ToggleMarkers.

Variables (role user : string) (ev : event).
Hypothesis Hwf : event_wf ev.

(** A user whose marker is not set is in no slot, so the sweep of the
    sign-up branch changes nothing. *)
Lemma unmarked_free :
  active_users_roles ev !! user = None → ∀ other, ¬ occupies user other ev.
Proof.
  intros Ha other Ho. destruct Hwf as [_ Hm].
  assert (is_Some (active_users_roles ev !! user)) as [? Hs]
    by (apply Hm; by exists other).
  congruence.
Qed.

Lemma sweep_nothing :
  active_users_roles ev !! user = None →
  py_remove user <$> user_roles ev = user_roles ev.
Proof.
  intros Ha. apply map_eq. intros r. rewrite lookup_fmap.
  destruct (user_roles ev !! r) as [l|] eqn:Hr; [| done]. simpl.
  rewrite py_remove_absent; [done |].
  intros Hin. eapply unmarked_free; [done |]. by exists l.
Qed.

Lemma unsign_event_wf (l : list string) :
  user_roles ev !! role = Some l →
  user ∈ l →
  event_wf (with_slots ev (<[role := py_remove user l]> (user_roles ev))
              (delete user (active_users_roles ev))).
Proof.
  intros Hl Hin. split; [apply unsign_slots_wf; [apply Hwf | done] |].
  destruct Hwf as [[Hnd Hone] Hm]. unfold markers_wf in Hm.
  intros x. simpl. destruct (decide (x = user)) as [->|Hne].
  - rewrite lookup_delete_eq. split; [by intros [? ?] |].
    intros [r [l0 [Hr Hx]]]. exfalso. simpl in Hr.
    rewrite lookup_insert in Hr. case_decide as Hd.
    + injection Hr as <-. eapply py_remove_gone; [| exact Hx]. by eapply Hnd.
    + apply Hd. eapply Hone; [by exists l | by exists l0].
  - rewrite lookup_delete_ne by done. rewrite Hm.
    split; intros [r [l0 [Hr Hx]]]; exists r.
    + destruct (decide (role = r)) as [<-|Hd].
      * exists (py_remove user l). simpl. rewrite lookup_insert_eq.
        split; [done |]. apply py_remove_other; [done |]. congruence.
      * exists l0. simpl. by rewrite lookup_insert_ne.
    + simpl in Hr. rewrite lookup_insert in Hr. case_decide as Hd.
      * subst r. injection Hr as <-. exists l. split; [done |].
        by eapply py_remove_sub.
      * by exists l0.
Qed.

Lemma signup_event_wf (l : list string) :
  user_roles ev !! role = Some l →
  user ∉ l →
  active_users_roles ev !! user = None →
  event_wf (with_slots ev
              (<[role := l ++ [user]]> (py_remove user <$> user_roles ev))
              (<[user := role]> (active_users_roles ev))).
Proof.
  intros Hl Hn Ha. split; [apply signup_slots_wf; [apply Hwf | done | done] |].
  rewrite sweep_nothing by done.
  destruct Hwf as [_ Hm]. unfold markers_wf in Hm.
  intros x. simpl. destruct (decide (x = user)) as [->|Hne].
  - rewrite lookup_insert_eq. split; [| by eauto].
    intros _. exists role, (l ++ [user]). simpl. rewrite lookup_insert_eq.
    split; [done |]. apply elem_of_app. right. by apply list_elem_of_singleton.
  - rewrite lookup_insert_ne by done. rewrite Hm.
    split; intros [r [l0 [Hr Hx]]]; exists r.
    + destruct (decide (role = r)) as [<-|Hd].
      * exists (l ++ [user]). simpl. rewrite lookup_insert_eq.
        split; [done |]. apply elem_of_app. left. congruence.
      * exists l0. simpl. by rewrite lookup_insert_ne.
    + simpl in Hr. rewrite lookup_insert in Hr. case_decide as Hd.
      * subst r. injection Hr as <-. exists l. split; [done |].
        apply elem_of_app in Hx as [Hx|Hx]; [done |].
        by apply list_elem_of_singleton in Hx.
      * by exists l0.
Qed.

(** [slot_toggle] keeps an event well formed. *)
Lemma slot_toggle_event_wf :
  match slot_toggle role user ev with
  | Unsigned ev' | SignedUp ev' => event_wf ev'
  | AlreadySignedUp | NoSuchRole => True
  end.
Proof.
  destruct (user_roles ev !! role) as [l|] eqn:Hl;
    [| by rewrite slot_toggle_no_role].
  destruct (decide (user ∈ l)) as [Hin|Hn].
  { rewrite (slot_toggle_unsign _ _ _ l) by done. by apply unsign_event_wf. }
  destruct (active_users_roles ev !! user) as [r|] eqn:Ha.
  { by rewrite (slot_toggle_conflict _ _ _ l) by (rewrite ?Ha; done). }
  rewrite (slot_toggle_signup _ _ _ l) by done. by apply signup_event_wf.
Qed.

(** On a well-formed event the code is the toggle of the specification. *)
Lemma slot_toggle_meets_spec (l : list string) :
  user_roles ev !! role = Some l →
  toggle_spec role user ev (slot_toggle role user ev).
Proof.
  intros Hl. destruct (decide (user ∈ l)) as [Hin|Hn].
  { rewrite (slot_toggle_unsign _ _ _ l) by done.
    rewrite py_remove_filter by (eapply Hwf; done).
    by apply spec_unsign. }
  destruct (active_users_roles ev !! user) as [r|] eqn:Ha.
  { rewrite (slot_toggle_conflict _ _ _ l) by (rewrite ?Ha; done).
    destruct Hwf as [_ Hm].
    destruct (proj1 (Hm user)) as [other Ho]; [by rewrite Ha |].
    by eapply spec_conflict. }
  rewrite (slot_toggle_signup _ _ _ l) by done.
  rewrite sweep_nothing by done.
  apply spec_signup; [done |]. by apply unmarked_free.
Qed.

End ToggleMarkers.

Section Reached.

Lemma empty_slots_lookup (roles_list : list string) (r : string) (l : list string) :
  empty_slots roles_list !! r = Some l → l = [].
Proof.
  unfold empty_slots. intros H%elem_of_list_to_map_2.
  apply list_elem_of_fmap in H as [x [Heq _]]. congruence.
Qed.

Lemma new_event_wf (roles_list : list string) (msg : option Z) (channel start : Z) :
  event_wf (Event msg channel (empty_slots roles_list) ∅ start false).
Proof.
  assert (∀ x r, ¬ occupies x r
            (Event msg channel (empty_slots roles_list) ∅ start false)) as Hfree.
  { intros x r [l [Hr Hx]]. simpl in Hr.
    apply empty_slots_lookup in Hr as ->. by apply not_elem_of_nil in Hx. }
  split; [split |].
  - intros r l Hr. simpl in Hr. apply empty_slots_lookup in Hr as ->. constructor.
  - intros x r1 r2 H1 _. by apply Hfree in H1.
  - intros x. simpl. rewrite lookup_empty. split; [by intros [? ?] |].
    intros [r Ho]. by apply Hfree in Ho.
Qed.

Lemma set_cancelled_wf (ev : event) : event_wf ev → event_wf (set_cancelled ev).
Proof. by destruct ev. Qed.

Lemma signup_body_wf shown role msg user st :
  registry_wf st → registry_wf (signup_body shown role msg user st).1.1.
Proof.
  intros Hst. unfold signup_body.
  destruct (message_id_to_event_id st !! msg) as [eid|]; [| done].
  destruct (active_events st !! eid) as [ev|] eqn:Hev; [| done].
  destruct (cancelled ev); [done |].
  pose proof (slot_toggle_event_wf role user ev (Hst _ _ Hev)) as Ht.
  destruct (slot_toggle role user ev) as [ev'|ev'| |]; simpl; try done.
  all: intros i e; unfold put_event; simpl; rewrite lookup_insert;
    case_decide; [congruence | apply Hst].
Qed.

Lemma act_wf (a : action) (st : registry) : registry_wf st → registry_wf (act st a).
Proof.
  intros Hst. destruct a as [roles eid ch start msg|shown role msg u|rs pm msg|rs pm msg];
    simpl.
  - intros i e. unfold announce. simpl. rewrite lookup_insert.
    case_decide; [| apply Hst].
    intros [= <-]. apply new_event_wf.
  - by apply signup_body_wf.
  - unfold RaidAnnouncement.cancel_event_callback.
    destruct (message_id_to_event_id st !! msg) as [eid|]; [| done].
    destruct rs; [| done]. destruct pm; [| done].
    destruct (active_events st !! eid) as [ev|] eqn:Hev; [| done].
    intros i e. simpl. rewrite lookup_delete. case_decide; [done |].
    rewrite lookup_insert_ne by done. apply Hst.
  - unfold FFAnnouncement.cancel_event_callback.
    destruct (message_id_to_event_id st !! msg) as [eid|]; [| done].
    destruct rs; [| done]. destruct pm; [| done].
    destruct (active_events st !! eid) as [ev|] eqn:Hev; [| done].
    intros i e. simpl. rewrite lookup_delete. case_decide; [done |].
    rewrite lookup_insert_ne by done. apply Hst.
Qed.

Lemma fold_act_wf (acts : list action) (st : registry) :
  registry_wf st → registry_wf (fold_left act acts st).
Proof.
  revert st. induction acts as [|a acts IH]; intros st Hst; [done |].
  simpl. apply IH. by apply act_wf.
Qed.

Lemma run_actions_wf (acts : list action) : registry_wf (run_actions acts).
Proof. apply fold_act_wf. intros i e. simpl. by rewrite lookup_empty. Qed.

End Reached.

(** C4. In every registry reached by announcements, button presses and
    cancellations, for an event that is found and not cancelled and a role
    that has a slot in it, the toggle of the code is the toggle of the
    specification: a user of the slot is taken out of it and loses the
    marker; otherwise a user of another slot gets the already-signed-up
    answer and nothing changes; otherwise the user is appended to the slot
    and the marker is set.  Both sign-up callbacks answer accordingly. *)
Theorem signup_toggle_algorithm (acts : list action) (shown : list string)
    (msg event_id : Z) (ev : event) (role user : string) (l : list string) :
  message_id_to_event_id (run_actions acts) !! msg = Some event_id →
  active_events (run_actions acts) !! event_id = Some ev →
  cancelled ev = false →
  user_roles ev !! role = Some l →
  toggle_spec role user ev (slot_toggle role user ev) ∧
  RaidAnnouncement.role_signup_callback role msg user (run_actions acts) =
    answer RaidAnnouncement.roles_list event_id (run_actions acts)
      (slot_toggle role user ev) ∧
  FFAnnouncement.signup_callback shown role msg user (run_actions acts) =
    answer shown event_id (run_actions acts) (slot_toggle role user ev).
Proof.
  intros Hmsg Hev Hc Hl.
  split; [| split].
  - eapply slot_toggle_meets_spec; [| done]. by eapply run_actions_wf.
  - unfold RaidAnnouncement.role_signup_callback, signup_body.
    rewrite Hmsg, Hev, Hc. by destruct (slot_toggle role user ev).
  - unfold FFAnnouncement.signup_callback, signup_body.
    rewrite Hmsg, Hev, Hc. by destruct (slot_toggle role user ev).
Qed.

Lemma signup_toggle_algorithm_witness :
  toggle_spec "Healer" "<@1>" two_signups_event
    (slot_toggle "Healer" "<@1>" two_signups_event) ∧
  RaidAnnouncement.role_signup_callback "Healer" 55 "<@1>" (run_actions two_signups) =
    answer RaidAnnouncement.roles_list 1234 (run_actions two_signups)
      (slot_toggle "Healer" "<@1>" two_signups_event) ∧
  FFAnnouncement.signup_callback ["Tank"; "Healer"] "Healer" 55 "<@1>"
      (run_actions two_signups) =
    answer ["Tank"; "Healer"] 1234 (run_actions two_signups)
      (slot_toggle "Healer" "<@1>" two_signups_event).
Proof.
  apply (signup_toggle_algorithm two_signups ["Tank"; "Healer"] 55 1234
           two_signups_event "Healer" "<@1>" ["<@2>"]);
    vm_compute; reflexivity.
Defined.

(** The scenario of the specification: A takes Tank; A asks for Healer and
    is refused; A leaves Tank; A takes Healer. *)
Example tank_then_healer :
  let ev0 := new_event ["Tank"; "Healer"] 10 600000000 in
  ∃ ev1 ev2 ev3,
    slot_toggle "Tank" "<@1>" ev0 = SignedUp ev1 ∧
    slot_toggle "Healer" "<@1>" ev1 = AlreadySignedUp ∧
    slot_toggle "Tank" "<@1>" ev1 = Unsigned ev2 ∧
    user_roles ev2 !! "Tank" = Some [] ∧
    slot_toggle "Healer" "<@1>" ev2 = SignedUp ev3 ∧
    user_roles ev3 !! "Healer" = Some ["<@1>"] ∧
    user_roles ev3 !! "Tank" = Some [].
Proof.
  do 3 eexists. repeat split; vm_compute; reflexivity.
Qed.

(** C5. In every registry reached by announcements, button presses and
    cancellations, no user is in two slots of an event, and whatever toggle
    is applied next leaves the event so. *)
Theorem at_most_one_role_reachable (acts : list action) (event_id : Z) (ev : event) :
  active_events (run_actions acts) !! event_id = Some ev →
  at_most_one_role ev ∧
  ∀ role user,
    match slot_toggle role user ev with
    | Unsigned ev' | SignedUp ev' => at_most_one_role ev'
    | AlreadySignedUp | NoSuchRole => True
    end.
Proof.
  intros Hev. pose proof (run_actions_wf acts _ _ Hev) as [Hs Hm].
  split; [apply Hs |].
  intros role user.
  pose proof (slot_toggle_slots_wf role user ev Hs) as Ht.
  destruct (slot_toggle role user ev); [apply Ht | apply Ht | done | done].
Qed.

Lemma at_most_one_role_reachable_witness :
  at_most_one_role two_signups_event ∧
  ∀ role user,
    match slot_toggle role user two_signups_event with
    | Unsigned ev' | SignedUp ev' => at_most_one_role ev'
    | AlreadySignedUp | NoSuchRole => True
    end.
Proof.
  apply (at_most_one_role_reachable two_signups 1234 two_signups_event).
  vm_compute. reflexivity.
Defined.

(** ** The countdown *)

Section CountdownLoops.

Variables (event_id start channel : Z).

Lemma live_unflagged (p : poll) : live event_id p → unflagged event_id p.
Proof. intros [ev [Hev Hc]] ev' Hev'. congruence. Qed.

(** The loop of [f2b] on polls that do not see the flag. *)
Lemma raid_track_event_time_spec (polls : list poll) :
  Forall (unflagged event_id) polls →
  ∀ sent,
    RaidAnnouncement.track_event_time event_id start channel sent polls =
    countdown_spec start channel sent polls.
Proof.
  induction 1 as [|[st now] rest Hp _ IH]; intros sent.
  { unfold countdown_spec, reminded, fired. simpl.
    by rewrite andb_false_r, orb_false_r. }
  simpl.
  assert (match active_events st !! event_id with
          | Some ev => cancelled ev
          | None => false
          end = false) as ->.
  { destruct (active_events st !! event_id) as [ev|] eqn:Hev; [| done].
    by apply Hp. }
  unfold countdown_spec, reminded, fired. simpl.
  destruct (total_seconds_le (start - now) 0) eqn:H0; simpl.
  { by rewrite andb_false_r. }
  destruct (total_seconds_le (start - now) 300) eqn:H300; simpl.
  - destruct sent; simpl.
    + rewrite IH. reflexivity.
    + rewrite IH. unfold countdown_spec. simpl. reflexivity.
  - rewrite IH. reflexivity.
Qed.

(** The loop of [ff] is left at its first poll, before any test and any
    message, by the AttributeError of [interaction.cog]. *)
Lemma track_event_time_raises (p : poll) (rest : list poll) (sent : bool) :
  track_event_time event_id start channel sent (p :: rest) =
  ([], Crashed AttributeError).
Proof. by destruct p. Qed.

Lemma sends_countdown_spec (polls : list poll) :
  sends reminder_text (countdown_spec start channel false polls).1 =
    (if reminded start polls then 1 else 0)%nat ∧
  sends start_text (countdown_spec start channel false polls).1 =
    (if fired start polls then 1 else 0)%nat.
Proof.
  unfold countdown_spec. simpl.
  destruct (reminded start polls), (fired start polls); split; reflexivity.
Qed.

(** Once the event is out of the registry, as after a cancellation, the
    loop of [f2b] does not leave on its cancellation test. *)
Lemma raid_track_event_time_absent (polls : list poll) (sent : bool) :
  Forall (fun p : poll => active_events p.1 !! event_id = None) polls →
  RaidAnnouncement.track_event_time event_id start channel sent polls =
  countdown_spec start channel sent polls.
Proof.
  intros Hp. apply raid_track_event_time_spec.
  eapply Forall_impl; [exact Hp |]. intros p Hn ev Hev. congruence.
Qed.

End CountdownLoops.

(** A successful press on the cancel button of [f2b] takes the event out of
    the registry. *)
Lemma raid_cancel_removes (st : registry) (msg event_id : Z) :
  message_id_to_event_id st !! msg = Some event_id →
  active_events (RaidAnnouncement.cancel_event_callback true true msg st).1.1
    !! event_id = None.
Proof.
  intros Hmsg. unfold RaidAnnouncement.cancel_event_callback. rewrite Hmsg.
  destruct (active_events st !! event_id) as [ev|] eqn:Hev; simpl; [| done].
  by rewrite lookup_delete_eq.
Qed.

(** C2. The cancel button of an [f2b] announcement is pressed by its creator
    360 s before the start: the press is answered, the event leaves the
    registry, and the loop of the event, polling every 60 s, still sends the
    reminder and the start message. *)
Theorem raid_cancel_not_observed :
  cancel_pressed.1.2 = [Respond cancel_done_text; DeleteMessage 55] ∧
  active_events cancel_pressed.1.1 !! 1234 = None ∧
  RaidAnnouncement.track_event_time 1234 600000000 10 false polls_around_cancel =
    ([ChannelSend 10 reminder_text; ChannelSend 10 start_text], Broke).
Proof. repeat split; vm_compute; reflexivity. Qed.

(** C6, as the code has it.  For an event that every poll finds in the
    registry and not cancelled, the loop of [f2b] behaves as
    [countdown_spec]: the reminder is sent once if some poll before the first
    one without time left finds at most 300 s left, and not at all otherwise;
    the start message is sent once, at the first poll that finds no time
    left, where the loop is left; nothing else is sent. *)
Theorem countdown_latch (event_id start channel : Z) (polls : list poll) :
  Forall (live event_id) polls →
  RaidAnnouncement.track_event_time event_id start channel false polls =
    countdown_spec start channel false polls ∧
  sends reminder_text (countdown_spec start channel false polls).1 =
    (if reminded start polls then 1 else 0)%nat ∧
  sends start_text (countdown_spec start channel false polls).1 =
    (if fired start polls then 1 else 0)%nat ∧
  ((countdown_spec start channel false polls).2 = Broke ↔
   fired start polls = true).
Proof.
  intros Hlive. split; [| split; [| split]].
  - apply raid_track_event_time_spec.
    eapply Forall_impl; [exact Hlive |]. apply live_unflagged.
  - apply sends_countdown_spec.
  - apply sends_countdown_spec.
  - unfold countdown_spec. cbn [snd]. by destruct (fired start polls).
Qed.

Lemma countdown_latch_witness :
  let polls := (fun now => (run_actions two_signups, now))
                 <$> [240000000; 300000000; 360000000; 600000000] in
  RaidAnnouncement.track_event_time 1234 600000000 10 false polls =
    countdown_spec 600000000 10 false polls ∧
  sends reminder_text (countdown_spec 600000000 10 false polls).1 =
    (if reminded 600000000 polls then 1 else 0)%nat ∧
  sends start_text (countdown_spec 600000000 10 false polls).1 =
    (if fired 600000000 polls then 1 else 0)%nat ∧
  ((countdown_spec 600000000 10 false polls).2 = Broke ↔
   fired 600000000 polls = true).
Proof.
  apply (countdown_latch 1234 600000000 10).
  repeat constructor; exists two_signups_event; split; vm_compute; reflexivity.
Defined.

(** C6, as the claim has it, fails: the first poll of the loop of [f2b]
    comes 0.2 s after the start time; the event is there and not cancelled;
    the loop sends the start message and is left, and no reminder was
    sent. *)
Lemma countdown_latch_counterexample :
  let polls := [(run_actions two_signups, 600200000)] in
  Forall (live 1234) polls ∧
  RaidAnnouncement.track_event_time 1234 600000000 10 false polls =
    ([ChannelSend 10 start_text], Broke) ∧
  ¬ exactly_once_each
      (RaidAnnouncement.track_event_time 1234 600000000 10 false polls).1.
Proof.
  cbv zeta. split; [| split].
  - repeat constructor. exists two_signups_event. split; vm_compute; reflexivity.
  - vm_compute; reflexivity.
  - intros [H _]. vm_compute in H. discriminate H.
Qed.

(** ** Loot splits *)

Section Crediting.

Variable share : pyfloat.

(** The ledger after the loop of [finalize_split]. *)
Lemma fold_credit_lookup (ps : gmap Z player_info) (c : gmap Z pyfloat) (player : Z) :
  get_player_value (map_fold (credit share) c ps) player =
  match ps !! player with
  | Some info =>
      if eligible info then fadd (get_player_value c player) share
      else get_player_value c player
  | None => get_player_value c player
  end.
Proof.
  revert player.
  apply (map_fold_weak_ind
           (fun r m => ∀ player,
                get_player_value r player =
                match m !! player with
                | Some info =>
                    if eligible info then fadd (get_player_value c player) share
                    else get_player_value c player
                | None => get_player_value c player
                end)).
  { intros player. by rewrite lookup_empty. }
  intros i info m r Hi IH player. unfold credit.
  rewrite lookup_insert. case_decide as Hd.
  - subst player. pose proof (IH i) as Hr. rewrite Hi in Hr.
    destruct (eligible info); [| done].
    unfold add_to_player_value. by rewrite get_update_same, Hr.
  - destruct (eligible info); [| apply IH].
    unfold add_to_player_value. rewrite get_update_other by congruence.
    apply IH.
Qed.

(** The loop credits nobody when nobody is eligible. *)
Lemma fold_credit_idle (ps : gmap Z player_info) (c : gmap Z pyfloat) :
  (∀ player info, ps !! player = Some info → eligible info = false) →
  map_fold (credit share) c ps = c.
Proof.
  apply (map_fold_weak_ind
           (fun r m =>
              (∀ player info, m !! player = Some info → eligible info = false) →
              r = c)); [done |].
  intros i info m r Hi IH Hall. unfold credit.
  rewrite (Hall i info) by apply lookup_insert_eq.
  apply IH. intros player info' Hp. apply (Hall player).
  rewrite lookup_insert_ne; [done |]. intros ->. congruence.
Qed.

Lemma mark_not_eligible (info : player_info) : eligible (mark info) = false.
Proof.
  unfold mark. destruct (eligible info) eqn:He; [| done].
  unfold eligible. simpl. apply andb_false_r.
Qed.

Lemma mark_value_added (info : player_info) :
  value_added (mark info) = false →
  eligible info = false ∧ value_added info = false.
Proof.
  unfold mark. destruct (eligible info) eqn:He; simpl; [done |]. done.
Qed.

Lemma marked_idle (ps : gmap Z player_info) (c : gmap Z pyfloat) :
  map_fold (credit share) c (mark <$> ps) = c.
Proof.
  apply fold_credit_idle. intros player info. rewrite lookup_fmap.
  destruct (ps !! player); simpl; [| done].
  intros [= <-]. apply mark_not_eligible.
Qed.

End Crediting.

(** *** A call of [finalize_split] on its own *)

Section Alone.

Variable post_id : Z.

Lemma run_S (from : origin) (respond_ok : bool) (fuel : nat) (s : stage) (m : shared) :
  run from respond_ok post_id (S fuel) s m =
  let '(s1, m1, out1) := step from respond_ok post_id s m in
  let '(s2, m2, out2) := run from respond_ok post_id fuel s1 m1 in
  (s2, m2, out1 ++ out2).
Proof. reflexivity. Qed.

Lemma run_ended (from : origin) (respond_ok : bool) (fuel : nat) (o : outcome) (m : shared) :
  run from respond_ok post_id fuel (Ended o) m = (Ended o, m, []).
Proof.
  induction fuel as [|fuel IH]; [done |]. rewrite run_S. simpl. by rewrite IH.
Qed.

(** Every step leaves the splits of the other contexts alone. *)
Lemma step_other (from : origin) (respond_ok : bool) (other : Z) (s : stage) (m : shared) :
  other ≠ post_id →
  tagged_members (the_world (step from respond_ok post_id s m).1.2) !! other =
  tagged_members (the_world m) !! other.
Proof.
  intros Hne. destruct s as [|p w todo|p v todo|p todo| | |o]; simpl; try done.
  - by destruct (tagged_members (the_world m) !! post_id).
  - by destruct (reads_none (conn (the_world m)) p).
  - by rewrite lookup_alter_ne.
  - destruct respond_ok; [| done].
    destruct (tagged_members (the_world m) !! post_id); [| done].
    simpl. by rewrite lookup_delete_ne.
Qed.

Lemma run_other (from : origin) (respond_ok : bool) (other : Z) (fuel : nat) :
  other ≠ post_id →
  ∀ s m,
    tagged_members (the_world (run from respond_ok post_id fuel s m).1.2) !! other =
    tagged_members (the_world m) !! other.
Proof.
  intros Hne. induction fuel as [|fuel IH]; intros s m; [done |].
  rewrite run_S. pose proof (step_other from respond_ok other s m Hne) as Hs.
  destruct (step from respond_ok post_id s m) as [[s1 m1] out1].
  specialize (IH s1 m1).
  destruct (run from respond_ok post_id fuel s1 m1) as [[s2 m2] out2].
  simpl in *. congruence.
Qed.

Lemma scan_left (todo : list Z) (m : shared) :
  scan post_id todo m ≠ Connecting ∧
  (steps_left (scan post_id todo m) ≤ 3 * length todo + 2)%nat.
Proof.
  induction todo as [|p todo [IH1 IH2]]; simpl; [split; [done | lia] |].
  destruct (held m !! p) as [info|]; [| split; [done | lia]].
  destruct (eligible info); [| split; [done | lia]].
  destruct (tagged_members (the_world m) !! post_id); simpl; split; done || lia.
Qed.

Lemma step_left (from : origin) (respond_ok : bool) (s : stage) (m : shared) (n : nat) :
  s ≠ Connecting → (steps_left s ≤ S n)%nat →
  (step from respond_ok post_id s m).1.1 ≠ Connecting ∧
  (steps_left (step from respond_ok post_id s m).1.1 ≤ n)%nat.
Proof.
  intros Hs Hn. destruct s as [|p w todo|p v todo|p todo| | |o]; simpl in *.
  - done.
  - destruct (reads_none (conn (the_world m)) p); simpl; split; done || lia.
  - split; [done | lia].
  - destruct (scan_left todo (flag post_id p m)) as [H1 H2]. split; [done | lia].
  - split; [done | lia].
  - destruct respond_ok; [| simpl; split; done || lia].
    destruct (tagged_members (the_world m) !! post_id); simpl; split; done || lia.
  - split; [done | lia].
Qed.

Lemma run_ends (from : origin) (respond_ok : bool) (fuel : nat) :
  ∀ s m, s ≠ Connecting → (steps_left s ≤ fuel)%nat →
         ∃ o, (run from respond_ok post_id fuel s m).1.1 = Ended o.
Proof.
  induction fuel as [|fuel IH]; intros s m Hs Hn.
  - destruct s; simpl in *; try done; try lia. by eexists.
  - rewrite run_S. destruct (step_left from respond_ok s m fuel Hs Hn) as [H1 H2].
    destruct (step from respond_ok post_id s m) as [[s1 m1] out1].
    destruct (IH s1 m1 H1 H2) as [o Ho].
    destruct (run from respond_ok post_id fuel s1 m1) as [[s2 m2] out2].
    by exists o.
Qed.

(** The steps counted by [steps_of] bring a call to its end. *)
Lemma finalize_split_ends (from : origin) (respond_ok : bool) (st : world) :
  ∃ o, (run from respond_ok post_id (steps_of post_id st) Connecting
          (start post_id st)).1.1 = Ended o.
Proof.
  unfold steps_of, start.
  destruct (tagged_members st !! post_id) as [sp|] eqn:Hsp.
  - replace (3 * length (map_to_list (players sp)) + 3)%nat
      with (S (3 * length (map_to_list (players sp)) + 2)) by lia.
    rewrite run_S. cbn [step the_world]. rewrite Hsp.
    set (m := Shared st (players sp)).
    destruct (scan_left (map_to_list (players sp)).*1 m) as [H1 H2].
    rewrite length_fmap in H2.
    destruct (run_ends from respond_ok _ (scan post_id (map_to_list (players sp)).*1 m) m H1 H2)
      as [o Ho].
    destruct (run from respond_ok post_id _ _ m) as [[s2 m2] out2].
    by exists o.
  - rewrite run_S. cbn [step the_world]. rewrite Hsp. by eexists.
Qed.

(** The loop on the participants of [todo], each of them once, when the row
    of none that is credited holds NULL: every one who has [submitted] and
    not [value_added] is credited and flagged; then the answer, and the
    split is deleted. *)
Lemma run_scan (from : origin) (respond_ok : bool) (w : pyfloat) (T : gmap Z split) (K : gmap Z Z) (todo : list Z) :
  NoDup todo →
  ∀ (d : gmap Z player_info) (c : gmap Z pyfloat) (fuel : nat),
    (∀ p info, p ∈ todo → d !! p = Some info → eligible info = true →
               reads_none c p = false) →
    (3 * length todo + 2 ≤ fuel)%nat →
    let m := Shared (World (<[post_id := SplitOf d w]> T) K c) d in
    ∃ d' c',
      run from respond_ok post_id fuel (scan post_id todo m) m =
        (Ended (if respond_ok then Returned else Raised HTTPException),
         Shared
           (World (if respond_ok then delete post_id T
                   else <[post_id := SplitOf d' w]> T) K c') d',
         if respond_ok then answers from else []) ∧
      (∀ q, d' !! q = if decide (q ∈ todo) then mark <$> d !! q else d !! q) ∧
      (∀ q, c' !! q =
            match d !! q with
            | Some info =>
                if decide (q ∈ todo) then
                  if eligible info then Some (fadd (get_player_value c q) w)
                  else c !! q
                else c !! q
            | None => c !! q
            end).
Proof.
  induction 1 as [|p todo Hp Hnd IH]; intros d c fuel Hnull Hfuel; cbv zeta.
  - exists d, c. split; [| split].
    + destruct fuel as [|[|fuel]]; [simpl in Hfuel; lia | simpl in Hfuel; lia |].
      rewrite run_S. cbn [scan step]. rewrite run_S.
      cbn [step the_world tagged_members tracked_message_ids conn held].
      rewrite lookup_insert_eq. destruct respond_ok.
      * rewrite run_ended. cbn [app]. rewrite app_nil_r.
        by rewrite delete_insert_eq.
      * by rewrite run_ended.
    + intros q. destruct (decide (q ∈ [])) as [Hin|_]; [| done].
      by apply not_elem_of_nil in Hin.
    + intros q. destruct (d !! q); [| done].
      destruct (decide (q ∈ [])) as [Hin|_]; [| done].
      by apply not_elem_of_nil in Hin.
  - assert (∀ q, q ∈ todo → q ≠ p) as Hother by (intros q Hq ->; done).
    assert (∀ (d1 : gmap Z player_info) (c1 : gmap Z pyfloat),
              (∀ q, q ≠ p → d1 !! q = d !! q) →
              (∀ q, q ≠ p → c1 !! q = c !! q) →
              ∀ q info, q ∈ todo → d1 !! q = Some info → eligible info = true →
                        reads_none c1 q = false) as Hkeep.
    { intros d1 c1 Hd Hc q info Hq Hi He. unfold reads_none.
      rewrite Hc by auto. rewrite Hd in Hi by auto.
      apply (Hnull q info); [by right | done | done]. }
    assert (3 * length todo + 2 ≤ fuel - 3)%nat as Hfuel3
      by (cbn [length] in Hfuel; lia).
    assert (3 * length todo + 2 ≤ fuel)%nat as Hfuel0
      by (cbn [length] in Hfuel; lia).
    cbn [scan held].
    destruct (d !! p) as [info|] eqn:Hi.
    2: { destruct (IH d c fuel (Hkeep d c ltac:(done) ltac:(done)) Hfuel0)
           as [d' [c' [Hrun [Hd' Hc']]]].
         exists d', c'. split; [exact Hrun |]. split.
         - intros q. rewrite Hd'.
           destruct (decide (q ∈ todo)) as [Hq|Hq],
             (decide (q ∈ p :: todo)) as [Hq'|Hq']; try done.
           + exfalso. apply Hq'. by right.
           + apply elem_of_cons in Hq' as [->|Hq']; [by rewrite Hi | done].
         - intros q. rewrite Hc'. destruct (d !! q) as [info|] eqn:Hq0; [| done].
           destruct (decide (q ∈ todo)) as [Hq|Hq],
             (decide (q ∈ p :: todo)) as [Hq'|Hq']; try done.
           + exfalso. apply Hq'. by right.
           + apply elem_of_cons in Hq' as [->|Hq']; [congruence | done]. }
    destruct (eligible info) eqn:He.
    2: { destruct (IH d c fuel (Hkeep d c ltac:(done) ltac:(done)) Hfuel0)
           as [d' [c' [Hrun [Hd' Hc']]]].
         exists d', c'. split; [exact Hrun |]. split.
         - intros q. rewrite Hd'.
           destruct (decide (q ∈ todo)) as [Hq|Hq],
             (decide (q ∈ p :: todo)) as [Hq'|Hq']; try done.
           + exfalso. apply Hq'. by right.
           + apply elem_of_cons in Hq' as [->|Hq']; [| done].
             rewrite Hi. simpl. unfold mark. by rewrite He.
         - intros q. rewrite Hc'. destruct (d !! q) as [info'|] eqn:Hq0; [| done].
           destruct (decide (q ∈ todo)) as [Hq|Hq],
             (decide (q ∈ p :: todo)) as [Hq'|Hq']; try done.
           + exfalso. apply Hq'. by right.
           + apply elem_of_cons in Hq' as [->|Hq']; [| done].
             assert (info' = info) as -> by congruence. by rewrite He. }
    cbn [the_world tagged_members]. rewrite lookup_insert_eq. cbn [worth].
    destruct fuel as [|[|[|fuel]]]; try (cbn [length] in Hfuel; lia).
    rewrite run_S. cbn [step the_world conn tagged_members tracked_message_ids held].
    rewrite (Hnull p info) by (done || by left).
    rewrite run_S. cbn [step the_world conn tagged_members tracked_message_ids held].
    rewrite run_S. cbn [step flag the_world conn tagged_members
      tracked_message_ids held].
    unfold flag. cbn [the_world conn tagged_members tracked_message_ids held].
    rewrite alter_insert_eq. cbn [players worth app].
    set (d1 := alter set_added p d).
    set (c1 := update_player_value c p (fadd (get_player_value c p) w)).
    assert (∀ q, q ≠ p → d1 !! q = d !! q) as Hd1
      by (intros q Hq; subst d1; by rewrite lookup_alter_ne).
    assert (∀ q, q ≠ p → c1 !! q = c !! q) as Hc1
      by (intros q Hq; subst c1; unfold update_player_value;
          by rewrite lookup_insert_ne).
    replace (S (S (S fuel)) - 3)%nat with fuel in Hfuel3 by lia.
    destruct (IH d1 c1 fuel (Hkeep d1 c1 Hd1 Hc1) Hfuel3)
      as [d' [c' [Hrun [Hd' Hc']]]].
    cbv zeta in Hrun. rewrite Hrun. cbn [app].
    exists d', c'. split; [done |]. split.
    + intros q. rewrite Hd'.
      destruct (decide (q ∈ todo)) as [Hq|Hq],
        (decide (q ∈ p :: todo)) as [Hq'|Hq']; try done.
      * by rewrite Hd1 by auto.
      * exfalso. apply Hq'. by right.
      * apply elem_of_cons in Hq' as [->|Hq']; [| done].
        subst d1. rewrite lookup_alter_eq, Hi. simpl. unfold mark. by rewrite He.
      * rewrite Hd1; [done |]. intros ->. apply Hq'. by left.
    + intros q. rewrite Hc'.
      destruct (decide (q ∈ todo)) as [Hq|Hq],
        (decide (q ∈ p :: todo)) as [Hq'|Hq'].
      * rewrite Hd1 by auto. destruct (d !! q) as [info'|]; [| by apply Hc1; auto].
        unfold get_player_value. rewrite Hc1 by auto. done.
      * exfalso. apply Hq'. by right.
      * apply elem_of_cons in Hq' as [->|Hq']; [| done].
        subst d1 c1. rewrite lookup_alter_eq, Hi. simpl. rewrite He.
        unfold update_player_value. by rewrite lookup_insert_eq.
      * assert (q ≠ p) as Hqp by (intros ->; apply Hq'; by left).
        rewrite Hd1 by done. destruct (d !! q); by rewrite Hc1.
Qed.

End Alone.

Section Crediting2.

Variable share : pyfloat.

(** The row of a player after the loop of [credit]. *)
Lemma fold_credit_raw (ps : gmap Z player_info) (c : gmap Z pyfloat) (player : Z) :
  map_fold (credit share) c ps !! player =
  match ps !! player with
  | Some info =>
      if eligible info then Some (fadd (get_player_value c player) share)
      else c !! player
  | None => c !! player
  end.
Proof.
  revert player.
  apply (map_fold_weak_ind
           (fun r m => ∀ player,
                r !! player =
                match m !! player with
                | Some info =>
                    if eligible info
                    then Some (fadd (get_player_value c player) share)
                    else c !! player
                | None => c !! player
                end)).
  { intros player. by rewrite lookup_empty. }
  intros i info m r Hi IH player. unfold credit.
  rewrite lookup_insert. case_decide as Hd.
  - subst player. pose proof (IH i) as Hr. rewrite Hi in Hr.
    destruct (eligible info); [| done].
    unfold add_to_player_value, update_player_value, get_player_value.
    by rewrite lookup_insert_eq, Hr.
  - destruct (eligible info); [| apply IH].
    unfold add_to_player_value, update_player_value.
    rewrite lookup_insert_ne by congruence. apply IH.
Qed.

End Crediting2.

Section Finalize.

Variables (post_id : Z) (st : world).

(** A call on its own, when the row of no participant that it credits holds
    NULL: the ledger is that of [credit] for every participant, and the
    participants are those of [mark]. *)
Lemma finalize_split_found (from : origin) (respond_ok : bool) (sp : split) :
  tagged_members st !! post_id = Some sp →
  (∀ player info, players sp !! player = Some info → eligible info = true →
                  reads_none (conn st) player = false) →
  finalize_split from respond_ok post_id st =
  (World (if respond_ok then delete post_id (tagged_members st)
          else <[post_id := SplitOf (mark <$> players sp) (worth sp)]>
                 (tagged_members st))
     (tracked_message_ids st)
     (map_fold (credit (worth sp)) (conn st) (players sp)),
   if respond_ok then answers from else [],
   if respond_ok then Returned else Raised HTTPException).
Proof.
  intros Hsp Hnull. unfold finalize_split, steps_of, start. rewrite Hsp.
  replace (3 * length (map_to_list (players sp)) + 3)%nat
    with (S (3 * length (map_to_list (players sp)) + 2)) by lia.
  rewrite run_S. cbn [step the_world]. rewrite Hsp.
  destruct st as [T K c]. destruct sp as [d w]. cbn [players worth] in *.
  cbn [tagged_members conn tracked_message_ids] in *.
  rewrite <- (insert_id T post_id (SplitOf d w) Hsp) at 1 2.
  rewrite <- (insert_id T post_id (SplitOf d w) Hsp) in Hsp.
  assert (∀ q, q ∈ (map_to_list d).*1 ↔ is_Some (d !! q)) as Hkeys.
  { intros q. rewrite list_elem_of_fmap. split.
    - intros [[q' info] [-> Hin]]. apply elem_of_map_to_list in Hin. by eexists.
    - intros [info Hq]. exists (q, info). split; [done |].
      by apply elem_of_map_to_list. }
  destruct (run_scan post_id from respond_ok w T K (map_to_list d).*1
              (NoDup_fst_map_to_list d) d c
              (3 * length (map_to_list d) + 2))
    as [d' [c' [Hrun [Hd' Hc']]]].
  { intros p info _ Hi He. by apply (Hnull p info). }
  { by rewrite length_fmap. }
  cbv zeta in Hrun. rewrite Hrun. cbn [app the_world].
  assert (d' = mark <$> d) as ->.
  { apply map_eq. intros q. rewrite Hd', lookup_fmap.
    destruct (decide (q ∈ (map_to_list d).*1)) as [Hq|Hq]; [done |].
    destruct (d !! q) as [info|] eqn:Hq0; [| done].
    exfalso. apply Hq, Hkeys. by eexists. }
  assert (c' = map_fold (credit w) c d) as ->.
  { apply map_eq. intros q. rewrite Hc', fold_credit_raw.
    destruct (d !! q) as [info|] eqn:Hq0; [| done].
    destruct (decide (q ∈ (map_to_list d).*1)) as [Hq|Hq]; [done |].
    exfalso. apply Hq, Hkeys. by eexists. }
  done.
Qed.

Lemma finalize_split_missing (from : origin) (respond_ok : bool) :
  tagged_members st !! post_id = None →
  finalize_split from respond_ok post_id st = (st, [], Raised KeyError).
Proof.
  intros Hsp. unfold finalize_split, steps_of, start. rewrite Hsp.
  rewrite run_S. cbn [step the_world]. by rewrite Hsp.
Qed.

(** A call on its own leaves the splits of the other contexts alone. *)
Lemma finalize_split_other (from : origin) (respond_ok : bool) (other : Z) :
  other ≠ post_id →
  tagged_members (state_of (finalize_split from respond_ok post_id st)) !! other =
  tagged_members st !! other.
Proof.
  intros Hne. unfold finalize_split, state_of.
  pose proof (run_other post_id from respond_ok other (steps_of post_id st) Hne
                Connecting (start post_id st)) as Hrun.
  destruct (run from respond_ok post_id _ _ _) as [[s m] out].
  exact Hrun.
Qed.

Lemma cancel_split_missing :
  tagged_members st !! post_id = None →
  cancel_split post_id st = (st, [], Raised KeyError).
Proof. intros Hsp. unfold cancel_split. by rewrite Hsp. Qed.

Lemma on_message_missing (m : message) :
  tagged_members st !! post_id = None →
  msg_channel m = post_id →
  on_message m st = (st, [], Returned).
Proof.
  intros Hsp Hm. unfold on_message. rewrite Hm, Hsp.
  by destruct (carries_proof m).
Qed.

End Finalize.

Section Deliveries.

(** A message changes at most the record of its author in the split of its
    channel: the flag and the count of proofs. *)
Lemma on_message_state (m : message) (st : world) :
  state_of (on_message m st) = st ∨
  ∃ sp info,
    tagged_members st !! msg_channel m = Some sp ∧
    players sp !! msg_author m = Some info ∧
    state_of (on_message m st) =
    World (<[msg_channel m :=
               SplitOf (<[msg_author m :=
                            PlayerInfo true (image_count info + 1) (value_added info)]>
                          (players sp))
                 (worth sp)]> (tagged_members st))
      (tracked_message_ids st) (conn st).
Proof.
  unfold on_message.
  destruct (carries_proof m); [| by left].
  destruct (tagged_members st !! msg_channel m) as [sp|] eqn:Hsp; [| by left].
  destruct (players sp !! msg_author m) as [info|] eqn:Hinfo; [| by left].
  right. exists sp, info. split; [done |]. split; [done |].
  destruct (tracked_message_ids st !! msg_channel m) as [t|]; [| done].
  by destruct (t =? 0).
Qed.

Lemma deliver_keeps (m : message) (st : world) (post_id : Z) :
  conn (deliver st m) = conn st ∧
  match tagged_members st !! post_id with
  | Some sp =>
      ∃ sp', tagged_members (deliver st m) !! post_id = Some sp' ∧
             same_credit sp sp'
  | None => tagged_members (deliver st m) !! post_id = None
  end.
Proof.
  unfold deliver.
  destruct (on_message_state m st) as [->|[sp [info [Hsp [Hinfo ->]]]]].
  { split; [done |]. destruct (tagged_members st !! post_id) as [sp|]; [| done].
    exists sp. by split. }
  simpl. split; [done |].
  destruct (decide (msg_channel m = post_id)) as [<-|Hne].
  - rewrite Hsp, lookup_insert_eq. eexists. split; [done |].
    split; [done |]. intros player. simpl. rewrite lookup_insert.
    case_decide as Hd; [| done]. subst player. by rewrite Hinfo.
  - rewrite lookup_insert_ne by done.
    destruct (tagged_members st !! post_id) as [sp0|]; [| done].
    exists sp0. by split.
Qed.

Lemma same_credit_trans (a b c : split) :
  same_credit a b → same_credit b c → same_credit a c.
Proof.
  intros [Hw1 Hv1] [Hw2 Hv2]. split; [congruence |].
  intros player. by rewrite Hv2, Hv1.
Qed.

Lemma deliveries_keep (msgs : list message) (st : world) (post_id : Z) :
  conn (fold_left deliver msgs st) = conn st ∧
  match tagged_members st !! post_id with
  | Some sp =>
      ∃ sp', tagged_members (fold_left deliver msgs st) !! post_id = Some sp' ∧
             same_credit sp sp'
  | None => tagged_members (fold_left deliver msgs st) !! post_id = None
  end.
Proof.
  revert st. induction msgs as [|m msgs IH]; intros st; simpl.
  { split; [done |]. destruct (tagged_members st !! post_id) as [sp|]; [| done].
    exists sp. by split. }
  destruct (IH (deliver st m)) as [Hc Ht].
  destruct (deliver_keeps m st post_id) as [Hc1 Ht1].
  split; [congruence |].
  destruct (tagged_members st !! post_id) as [sp|].
  - destruct Ht1 as [sp1 [Hsp1 Hs1]]. rewrite Hsp1 in Ht.
    destruct Ht as [sp2 [Hsp2 Hs2]]. exists sp2. split; [done |].
    by eapply same_credit_trans.
  - by rewrite Ht1 in Ht.
Qed.

End Deliveries.

Section Retried.

Variables (post_id : Z) (st : world) (sp : split).

Hypothesis Hsp : tagged_members st !! post_id = Some sp.

(** No row of a participant holds NULL. *)
Hypothesis Hrows :
  ∀ player, is_Some (players sp !! player) → reads_none (conn st) player = false.

Lemma finalize_split_state (from : origin) (respond_ok : bool) :
  state_of (finalize_split from respond_ok post_id st) =
  World (if respond_ok then delete post_id (tagged_members st)
         else <[post_id := SplitOf (mark <$> players sp) (worth sp)]>
                (tagged_members st))
    (tracked_message_ids st)
    (map_fold (credit (worth sp)) (conn st) (players sp)).
Proof.
  rewrite (finalize_split_found post_id st from respond_ok sp Hsp); [done |].
  intros player info Hi _. apply Hrows. by eexists.
Qed.

(** Calls that do not overlap.  A call on its own adds the share once to
    the entry of every participant with [submitted] and without
    [value_added], and to no other entry; when it ends normally the split is
    gone, and when a call to the chat platform fails after the loop the split
    stays with [value_added] set for those participants, none of them being
    eligible any more.  A second call made after the first has ended leaves
    the ledger as it is; and when proofs arrive between the two calls, the
    second call adds the share only to an entry that the first call did not
    touch. *)
Lemma finalize_split_retried (from1 from2 : origin) (ok1 ok2 : bool)
    (msgs : list message) (player : Z) :
  let st1 := state_of (finalize_split from1 ok1 post_id st) in
  let st2 := state_of (finalize_split from2 ok2 post_id st1) in
  let st3 := state_of (finalize_split from2 ok2 post_id (fold_left deliver msgs st1)) in
  get_player_value (conn st1) player = credited_once sp (conn st) player ∧
  tagged_members st1 !! post_id =
    (if ok1 then None else Some (SplitOf (mark <$> players sp) (worth sp))) ∧
  (∀ info, eligible (mark info) = false) ∧
  conn st2 = conn st1 ∧
  (get_player_value (conn st3) player = get_player_value (conn st1) player ∨
   (get_player_value (conn st1) player = get_player_value (conn st) player ∧
    get_player_value (conn st3) player =
      fadd (get_player_value (conn st) player) (worth sp))).
Proof.
  cbv zeta. rewrite (finalize_split_state from1 ok1).
  set (st1 := World _ _ _).
  assert (get_player_value (conn st1) player = credited_once sp (conn st) player)
    as Hfirst by apply fold_credit_lookup.
  assert (tagged_members st1 !! post_id =
          (if ok1 then None else Some (SplitOf (mark <$> players sp) (worth sp))))
    as Hreg.
  { subst st1. simpl. destruct ok1;
      [apply lookup_delete_eq | apply lookup_insert_eq]. }
  split; [exact Hfirst |]. split; [exact Hreg |].
  split; [apply mark_not_eligible |].
  split.
  - destruct ok1.
    + by rewrite (finalize_split_missing post_id st1 from2 ok2 Hreg).
    + rewrite (finalize_split_found post_id st1 from2 ok2 _ Hreg).
      * unfold state_of. cbn [fst conn players worth]. apply marked_idle.
      * intros p info. cbn [players]. rewrite lookup_fmap.
        destruct (players sp !! p) as [info0|]; [| done]. simpl.
        intros [= <-]. by rewrite mark_not_eligible.
  - destruct (deliveries_keep msgs st1 post_id) as [Hconn Hkeep].
    rewrite Hreg in Hkeep. destruct ok1.
    + rewrite (finalize_split_missing _ _ from2 ok2 Hkeep).
      left. unfold state_of. simpl. by rewrite Hconn.
    + destruct Hkeep as [sp' [Hsp' [Hw Hv]]]. simpl in Hw.
      assert (∀ p info', players sp' !! p = Some info' → eligible info' = true →
                         ∃ info, players sp !! p = Some info ∧
                                 eligible info = false) as Hnew.
      { intros p info' Hi' He. specialize (Hv p). simpl in Hv.
        rewrite lookup_fmap, Hi' in Hv.
        destruct (players sp !! p) as [info|] eqn:Hi; [| done].
        exists info. split; [done |]. simpl in Hv. injection Hv as Hv.
        apply andb_true_iff in He as [_ Hva]. apply negb_true_iff in Hva.
        rewrite Hva in Hv. symmetry in Hv.
        by apply mark_value_added in Hv as [Hne _]. }
      rewrite (finalize_split_found _ _ from2 ok2 sp' Hsp').
      2: { intros p info' Hi' He. rewrite Hconn. subst st1. cbn [conn].
           destruct (Hnew p info' Hi' He) as [info [Hi Hne]].
           unfold reads_none. rewrite fold_credit_raw, Hi, Hne.
           apply Hrows. by eexists. }
      unfold state_of. cbn [fst conn].
      rewrite fold_credit_lookup, Hconn.
      destruct (players sp' !! player) as [info'|] eqn:Hi'; [| by left].
      destruct (eligible info') eqn:He; [| by left].
      right. destruct (Hnew player info' Hi' He) as [info [Hi Hne]].
      assert (get_player_value (conn st1) player = get_player_value (conn st) player)
        as Hsame.
      { rewrite Hfirst. unfold credited_once. by rewrite Hi, Hne. }
      split; [exact Hsame |]. by rewrite Hsame, Hw.
Qed.

End Retried.

(** The scenario of the specification, on the ledger: confirming credits
    the two members who sent a proof with 3000 each and not the third;
    confirming again, after the first confirmation could not be answered,
    changes nothing. *)
Example confirm_twice :
  let st1 := state_of (finalize_split Channel false 5 split_running) in
  let st2 := state_of (finalize_split Channel true 5 st1) in
  get_player_value (conn st1) 1 = of_Z 3100 ∧
  get_player_value (conn st1) 2 = of_Z 3000 ∧
  get_player_value (conn st1) 3 = fzero ∧
  conn st2 = conn st1 ∧
  outcome_of (finalize_split Channel true 5 st2) = Raised KeyError.
Proof. repeat split; vm_compute; reflexivity. Qed.

(** C1.  Two presses on the Confirm button of the split of channel 5, in
    which members 1 and 2 have sent a proof and the share is 3000; the ledger
    holds 100 for member 1 and nothing for member 2, and [value_added] is
    set for neither.  When the second call runs while the first awaits the
    store, both calls test a participant before either has set
    [value_added], and the share is added twice to the entry of each: 6100
    and 6000.  The first call ends normally, the second by KeyError on the
    deleted split after it has answered too.  When the second call starts
    after the first has ended, the entries are 3100 and 3000. *)
Theorem finalize_split_overlapping :
  let before := conn split_running in
  let share := worth three_way in
  let both := interleave 5 overlapping confirm_pressed confirm_pressed
                (start 5 split_running) in
  let after := conn (the_world both.1.2) in
  let apart := interleave 5 one_after_the_other confirm_pressed confirm_pressed
                 (start 5 split_running) in
  (eligible <$> players three_way !! 1) = Some true ∧
  (eligible <$> players three_way !! 2) = Some true ∧
  stage_of both.1.1.1 = Ended Returned ∧
  stage_of both.1.1.2 = Ended (Raised KeyError) ∧
  both.2 = [Respond confirmed_text; Respond confirmed_text] ∧
  get_player_value after 1 =
    fadd (fadd (get_player_value before 1) share) share ∧
  get_player_value after 2 =
    fadd (fadd (get_player_value before 2) share) share ∧
  get_player_value after 1 = of_Z 6100 ∧
  get_player_value after 2 = of_Z 6000 ∧
  stage_of apart.1.1.1 = Ended Returned ∧
  stage_of apart.1.1.2 = Ended (Raised KeyError) ∧
  get_player_value (conn (the_world apart.1.2)) 1 = of_Z 3100 ∧
  get_player_value (conn (the_world apart.1.2)) 2 = of_Z 3000 ∧
  the_world apart.1.2 = state_of (finalize_split Channel true 5 split_running).
Proof. cbv zeta. repeat split; vm_compute; reflexivity. Qed.

(** C3, as the code has it.  On a context without a split, a message with a
    proof is ignored in silence: [on_message] returns, sends nothing and
    changes nothing; and neither [finalize_split] nor [cancel_split] changes
    the registry or the ledger. *)
Theorem missing_context_unchanged (post_id : Z) (st : world) (m : message)
    (from : origin) (respond_ok : bool) :
  tagged_members st !! post_id = None →
  msg_channel m = post_id →
  on_message m st = (st, [], Returned) ∧
  state_of (finalize_split from respond_ok post_id st) = st ∧
  state_of (cancel_split post_id st) = st.
Proof.
  intros Hsp Hm. split; [by eapply on_message_missing |].
  split.
  - by rewrite finalize_split_missing.
  - by rewrite cancel_split_missing.
Qed.

Lemma missing_context_unchanged_witness :
  on_message proof_message no_split = (no_split, [], Returned) ∧
  state_of (finalize_split Channel true 5 no_split) = no_split ∧
  state_of (cancel_split 5 no_split) = no_split.
Proof.
  apply (missing_context_unchanged 5 no_split proof_message Channel true);
    vm_compute; reflexivity.
Defined.

(** C3, as the claim has it, fails on the context 5 of a tracker without
    splits: none of the three operations is a call that returns, tells the
    caller and changes nothing.  [finalize_split] and [cancel_split] raise
    KeyError; [on_message] returns without a word. *)
Lemma missing_context_counterexample :
  tagged_members no_split !! 5 = None ∧
  ¬ reports_not_found no_split (finalize_split Channel true 5 no_split) ∧
  ¬ reports_not_found no_split (cancel_split 5 no_split) ∧
  ¬ reports_not_found no_split (on_message proof_message no_split) ∧
  outcome_of (finalize_split Channel true 5 no_split) = Raised KeyError ∧
  outcome_of (cancel_split 5 no_split) = Raised KeyError ∧
  effects_of (on_message proof_message no_split) = [].
Proof.
  split; [vm_compute; reflexivity |].
  split; [intros [H _]; vm_compute in H; discriminate H |].
  split; [intros [H _]; vm_compute in H; discriminate H |].
  split; [intros [_ [H _]]; apply H; vm_compute; reflexivity |].
  repeat split; vm_compute; reflexivity.
Qed.

(** C7.  A [players] text of one space passes the test for an empty text and
    holds no mention: [split_members] answers that the split starts and
    stores a split without participants under the context, in place of the
    split that was there, whether a value is given or not. *)
Theorem split_members_blank_players :
  let fetch_member := fun _ : Z => IsMember in
  let r := split_members fetch_member 5 78 " " (Some "9000") split_running in
  py_split " " = [] ∧
  outcome_of r = Returned ∧
  effects_of r = [SplitStarted [] None] ∧
  tagged_members (state_of r) !! 5 = Some (SplitOf ∅ fzero) ∧
  split_members fetch_member 5 78 " " None split_running = r ∧
  split_members fetch_member 5 78 "" (Some "9000") split_running =
    (split_running, [Plain (Respond no_players_text)], Returned).
Proof. repeat split; vm_compute; reflexivity. Qed.

(** What [split_members] stores when the text holds mentions: with a value
    that parses, the share is the value divided by the number of mentions
    read; without a value it is 0; the entry of the context is replaced. *)
Lemma split_members_share (fetch_member : Z → fetched) (post_id tracker : Z)
    (players value : string) (st : world) (members : list Z) (total : pyfloat) :
  players ≠ ""%string →
  read_mentions fetch_member (py_split players) [] = Members members →
  members ≠ [] →
  parse_value value = Some total →
  tagged_members
    (state_of (split_members fetch_member post_id tracker players (Some value) st))
    !! post_id =
  Some (SplitOf (fresh_players members)
          (fdiv total (of_Z (Z.of_nat (length members))))).
Proof.
  intros Hp Hread Hm Hv. unfold split_members.
  rewrite (proj2 (String.eqb_neq players "") Hp), Hread, Hv.
  destruct members as [|m members]; [done |]. simpl.
  apply lookup_insert_eq.
Qed.

Lemma split_members_no_value (fetch_member : Z → fetched) (post_id tracker : Z)
    (players : string) (st : world) (members : list Z) :
  players ≠ ""%string →
  read_mentions fetch_member (py_split players) [] = Members members →
  tagged_members
    (state_of (split_members fetch_member post_id tracker players None st))
    !! post_id =
  Some (SplitOf (fresh_players members) fzero).
Proof.
  intros Hp Hread. unfold split_members.
  rewrite (proj2 (String.eqb_neq players "") Hp), Hread. simpl.
  apply lookup_insert_eq.
Qed.

(** 9000 among three mentions is 3000 each, stored in place of the split
    that was running in the channel. *)
Example nine_thousand_by_three :
  tagged_members
    (state_of (split_members (fun _ => IsMember) 5 78 "<@1> <@!2> <@3>"
                 (Some "9000") split_running)) !! 5 =
  Some (SplitOf (fresh_players [1; 2; 3]) (of_Z 3000)).
Proof. vm_compute. reflexivity. Qed.

(** * Further properties of the code *)

(** ** Sign-up buttons *)

Section PressTwice.

Lemma py_remove_snoc (u : string) (l : list string) :
  u ∉ l → py_remove u (l ++ [u]) = l.
Proof.
  induction l as [|y l IH]; simpl.
  - intros _. by rewrite decide_True.
  - intros [Hne Hn]%not_elem_of_cons.
    rewrite decide_False by done. by rewrite IH.
Qed.

Lemma filter_py_remove (u : string) (l : list string) :
  filter (fun x => x ≠ u) (py_remove u l) = filter (fun x => x ≠ u) l.
Proof.
  induction l as [|y l IH]; simpl; [done |].
  destruct (decide (u = y)) as [->|Hne].
  - by rewrite filter_cons_False by (intros Hc; by apply Hc).
  - rewrite !filter_cons_True by congruence. by rewrite IH.
Qed.

Lemma filter_snoc_self (u : string) (l : list string) :
  filter (fun x => x ≠ u) (l ++ [u]) = filter (fun x => x ≠ u) l.
Proof.
  rewrite filter_app.
  rewrite (filter_cons_False _ u []) by (intros Hc; by apply Hc).
  apply app_nil_r.
Qed.

(** On a well-formed event, signing up a user who is in no slot and
    toggling again gives the event back. *)
Lemma slot_toggle_twice (role user : string) (ev : event) (l : list string) :
  event_wf ev →
  user_roles ev !! role = Some l →
  (∀ other, ¬ occupies user other ev) →
  ∃ ev1, slot_toggle role user ev = SignedUp ev1 ∧
         occupies user role ev1 ∧
         slot_toggle role user ev1 = Unsigned ev.
Proof.
  intros Hwf Hl Hfree.
  assert (user ∉ l) as Hn by (intros Hin; eapply Hfree; by exists l).
  assert (active_users_roles ev !! user = None) as Ha.
  { destruct (active_users_roles ev !! user) eqn:E; [| done].
    destruct Hwf as [_ Hm]. destruct (proj1 (Hm user)) as [o Ho]; [by rewrite E |].
    by apply Hfree in Ho. }
  eexists. split; [| split].
  - rewrite (slot_toggle_signup role user ev l) by done.
    by rewrite (sweep_nothing user ev Hwf).
  - exists (l ++ [user]). simpl. rewrite lookup_insert_eq. split; [done |].
    apply elem_of_app. right. by apply list_elem_of_singleton.
  - rewrite (slot_toggle_unsign role user _ (l ++ [user])).
    + simpl. rewrite py_remove_snoc by done.
      rewrite insert_insert_eq, (insert_id (user_roles ev) role l) by done.
      rewrite delete_insert_id by done. by destruct ev.
    + simpl. by rewrite lookup_insert_eq.
    + apply elem_of_app. right. by apply list_elem_of_singleton.
Qed.

End PressTwice.

(** X1. In every registry reached by announcements, presses and
    cancellations, a user who is in no slot of a live event and presses the
    button of a role twice is signed up by the first press and signed off
    by the second, and the registry is then exactly what it was. *)
Theorem press_twice_restores (acts : list action) (shown : list string)
    (msg event_id : Z) (ev : event) (role user : string) (l : list string) :
  message_id_to_event_id (run_actions acts) !! msg = Some event_id →
  active_events (run_actions acts) !! event_id = Some ev →
  cancelled ev = false →
  user_roles ev !! role = Some l →
  (∀ other, ¬ occupies user other ev) →
  let first := signup_body shown role msg user (run_actions acts) in
  let second := signup_body shown role msg user (state_of first) in
  (∃ ev1, active_events (state_of first) !! event_id = Some ev1 ∧
          occupies user role ev1) ∧
  outcome_of first = Returned ∧
  outcome_of second = Returned ∧
  state_of second = run_actions acts.
Proof.
  intros Hmsg Hev Hc Hl Hfree. cbv zeta.
  destruct (slot_toggle_twice role user ev l) as [ev1 [H1 [Ho H2]]];
    [by eapply run_actions_wf | done | done |].
  assert (cancelled ev1 = false) as Hc1.
  { rewrite (slot_toggle_signup role user ev l) in H1.
    - injection H1 as <-. done.
    - done.
    - intros Hin. eapply Hfree. by exists l.
    - destruct (active_users_roles ev !! user) eqn:E; [| done].
      destruct (run_actions_wf acts _ _ Hev) as [_ Hm].
      destruct (proj1 (Hm user)) as [o Hoc]; [by rewrite E |].
      by apply Hfree in Hoc. }
  set (st := run_actions acts) in *.
  assert (signup_body shown role msg user st =
          (put_event event_id ev1 st,
           [EditRoles (listing shown (user_roles ev1))], Returned)) as E1.
  { unfold signup_body. by rewrite Hmsg, Hev, Hc, H1. }
  rewrite E1. unfold state_of, outcome_of. simpl.
  split; [exists ev1; by rewrite lookup_insert_eq |].
  split; [done |].
  unfold signup_body. simpl. rewrite Hmsg, lookup_insert_eq, Hc1, H2. simpl.
  split; [done |].
  unfold put_event. simpl. rewrite insert_insert_eq, insert_id by done.
  by destruct st.
Qed.

Lemma press_twice_restores_witness :
  let st := run_actions two_signups in
  let first := signup_body ["Tank"; "Healer"] "Tank" 55 "<@3>" st in
  let second := signup_body ["Tank"; "Healer"] "Tank" 55 "<@3>" (state_of first) in
  (∃ ev1, active_events (state_of first) !! 1234 = Some ev1 ∧
          occupies "<@3>" "Tank" ev1) ∧
  outcome_of first = Returned ∧
  outcome_of second = Returned ∧
  state_of second = st.
Proof.
  apply (press_twice_restores two_signups ["Tank"; "Healer"] 55 1234
           two_signups_event "Tank" "<@3>" ["<@1>"]);
    try (vm_compute; reflexivity).
  intros other [l [Hl Hin]].
  unfold two_signups_event in Hl. simpl in Hl.
  rewrite lookup_insert in Hl. case_decide.
  - injection Hl as <-. apply list_elem_of_singleton in Hin. discriminate Hin.
  - rewrite lookup_insert in Hl. case_decide; [| by rewrite lookup_empty in Hl].
    injection Hl as <-. apply list_elem_of_singleton in Hin. discriminate Hin.
Defined.

(** X2. Whatever the event, a toggle by one user leaves the other users
    where they are: in every slot the sequence of the other users is the
    same before and after, and so is the marker of every other user. *)
Theorem toggle_keeps_others (role user : string) (ev : event) :
  match slot_toggle role user ev with
  | Unsigned ev' | SignedUp ev' =>
      (∀ r, filter (fun x => x ≠ user) <$> user_roles ev' !! r =
            filter (fun x => x ≠ user) <$> user_roles ev !! r) ∧
      (∀ x, x ≠ user →
            active_users_roles ev' !! x = active_users_roles ev !! x)
  | AlreadySignedUp | NoSuchRole => True
  end.
Proof.
  destruct (user_roles ev !! role) as [l|] eqn:Hl;
    [| by rewrite slot_toggle_no_role].
  destruct (decide (user ∈ l)) as [Hin|Hn].
  { rewrite (slot_toggle_unsign role user ev l) by done. simpl. split.
    - intros r. rewrite lookup_insert. case_decide as Hd.
      + subst r. rewrite Hl. simpl. by rewrite filter_py_remove.
      + done.
    - intros x Hx. by rewrite lookup_delete_ne. }
  destruct (active_users_roles ev !! user) as [r0|] eqn:Ha.
  { by rewrite (slot_toggle_conflict role user ev l) by (rewrite ?Ha; done). }
  rewrite (slot_toggle_signup role user ev l) by done. simpl. split.
  - intros r. rewrite lookup_insert. case_decide as Hd.
    + subst r. rewrite Hl. simpl. by rewrite filter_snoc_self.
    + rewrite lookup_fmap. destruct (user_roles ev !! r); [| done].
      simpl. by rewrite filter_py_remove.
  - intros x Hx. by rewrite lookup_insert_ne.
Qed.

(** ** Cancel buttons *)

(** X3. Once the cancel button of an announcement has been pressed with
    success, in either cog, the event and the entry of the message are gone,
    and every later press on a sign-up or cancel button of that message is
    answered "Error: Event not found." and changes nothing. *)
Theorem cancel_then_not_found (st : registry) (msg event_id : Z) (ev : event) :
  message_id_to_event_id st !! msg = Some event_id →
  active_events st !! event_id = Some ev →
  ∀ after,
    after = state_of (RaidAnnouncement.cancel_event_callback true true msg st) ∨
    after = state_of (FFAnnouncement.cancel_event_callback true true msg st) →
    active_events after !! event_id = None ∧
    message_id_to_event_id after !! msg = None ∧
    (∀ shown role user,
        signup_body shown role msg user after =
        (after, [Respond not_found_text], Returned)) ∧
    (∀ role_set permitted,
        RaidAnnouncement.cancel_event_callback role_set permitted msg after =
        (after, [Respond not_found_text], Returned) ∧
        FFAnnouncement.cancel_event_callback role_set permitted msg after =
        (after, [Respond not_found_text], Returned)).
Proof.
  intros Hmsg Hev after Hafter.
  assert (active_events after !! event_id = None ∧
          message_id_to_event_id after !! msg = None) as [Ha Hm].
  { destruct Hafter as [-> | ->].
    - unfold RaidAnnouncement.cancel_event_callback, state_of.
      rewrite Hmsg, Hev. simpl. by rewrite !lookup_delete_eq.
    - unfold FFAnnouncement.cancel_event_callback, state_of.
      rewrite Hmsg, Hev. simpl. by rewrite !lookup_delete_eq. }
  split; [done |]. split; [done |]. split.
  - intros shown role user. unfold signup_body. by rewrite Hm.
  - intros role_set permitted. split.
    + unfold RaidAnnouncement.cancel_event_callback. by rewrite Hm.
    + unfold FFAnnouncement.cancel_event_callback. by rewrite Hm.
Qed.

Lemma cancel_then_not_found_witness :
  let after := cancel_pressed.1.1 in
  active_events after !! 1234 = None ∧
  message_id_to_event_id after !! 55 = None ∧
  (∀ shown role user,
      signup_body shown role 55 user after =
      (after, [Respond not_found_text], Returned)) ∧
  (∀ role_set permitted,
      RaidAnnouncement.cancel_event_callback role_set permitted 55 after =
      (after, [Respond not_found_text], Returned) ∧
      FFAnnouncement.cancel_event_callback role_set permitted 55 after =
      (after, [Respond not_found_text], Returned)).
Proof.
  apply (cancel_then_not_found (run_actions two_signups) 55 1234 two_signups_event).
  - vm_compute. reflexivity.
  - vm_compute. reflexivity.
  - left. reflexivity.
Defined.

(** ** The ledger helpers *)

(** X4. Each ledger helper called for one player leaves the value read for
    every other player as it was. *)
Theorem ledger_helpers_frame (conn : gmap Z pyfloat) (player_id other : Z)
    (amount : pyfloat) :
  other ≠ player_id →
  get_player_value (update_player_value conn player_id amount) other =
    get_player_value conn other ∧
  get_player_value (add_to_player_value conn player_id amount) other =
    get_player_value conn other ∧
  get_player_value (remove_from_player_value conn player_id amount) other =
    get_player_value conn other ∧
  get_player_value (reset_player_value conn player_id) other =
    get_player_value conn other.
Proof.
  intros Hne. repeat split.
  - by apply get_update_other.
  - unfold add_to_player_value. by apply get_update_other.
  - unfold remove_from_player_value. by apply get_update_other.
  - unfold reset_player_value, get_player_value.
    rewrite lookup_alter_ne by congruence. done.
Qed.

Lemma ledger_helpers_frame_witness :
  let conn := conn split_running in
  get_player_value (update_player_value conn 2 (of_Z 5)) 1 =
    get_player_value conn 1 ∧
  get_player_value (add_to_player_value conn 2 (of_Z 5)) 1 =
    get_player_value conn 1 ∧
  get_player_value (remove_from_player_value conn 2 (of_Z 5)) 1 =
    get_player_value conn 1 ∧
  get_player_value (reset_player_value conn 2) 1 =
    get_player_value conn 1.
Proof.
  apply (ledger_helpers_frame (conn split_running) 2 1 (of_Z 5)). lia.
Defined.

(** X5. After [reset_player_value] the value read for the player is 0,
    whatever it was; the helper is an UPDATE, so a player without a row
    still has no row; and resetting twice is resetting once. *)
Theorem reset_player_value_zero (conn : gmap Z pyfloat) (player_id : Z) :
  get_player_value (reset_player_value conn player_id) player_id = fzero ∧
  (reset_player_value conn player_id !! player_id = None ↔
   conn !! player_id = None) ∧
  reset_player_value (reset_player_value conn player_id) player_id =
    reset_player_value conn player_id.
Proof.
  unfold reset_player_value, get_player_value. split; [| split].
  - rewrite lookup_alter_eq. by destruct (conn !! player_id).
  - rewrite lookup_alter_eq.
    destruct (conn !! player_id); simpl; split; intros H; done || discriminate H.
  - apply map_eq. intros i. destruct (decide (player_id = i)) as [<-|Hne].
    + rewrite !lookup_alter_eq. by destruct (conn !! player_id).
    + by rewrite !lookup_alter_ne.
Qed.

(** ** Proof messages *)

Section ProofMessages.


(** What a proof of a participant does to the state and asks of the
    platform. *)
Lemma on_message_proof (m : message) (st : world) (sp : split) (info : player_info) :
  carries_proof m = true →
  tagged_members st !! msg_channel m = Some sp →
  players sp !! msg_author m = Some info →
  let ps := <[msg_author m :=
                PlayerInfo true (image_count info + 1) (value_added info)]>
              (players sp) in
  state_of (on_message m st) =
    World (<[msg_channel m := SplitOf ps (worth sp)]> (tagged_members st))
      (tracked_message_ids st) (conn st) ∧
  ∀ tracker, tracked_message_ids st !! msg_channel m = Some tracker →
             tracker ≠ 0 →
             effects_of (on_message m st) =
             [React (msg_id m);
              EditTracker tracker
                ((fun p => (p.1, submitted p.2)) <$> map_to_list ps)]
               ++ (if all_submitted ps
                   then [VerificationPrompt (msg_channel m) (msg_channel m)]
                   else []).
Proof.
  intros Hp Hsp Hinfo. cbv zeta. unfold on_message. rewrite Hp, Hsp, Hinfo.
  split.
  - destruct (tracked_message_ids st !! msg_channel m) as [t|]; [| done].
    by destruct (t =? 0).
  - intros tracker -> Hne. apply Z.eqb_neq in Hne. by rewrite Hne.
Qed.

End ProofMessages.

(** What a message does to the state. *)
Lemma deliver_touches_author_only (m : message) (st : world)
    (post_id player : Z) :
  conn (deliver st m) = conn st ∧
  tracked_message_ids (deliver st m) = tracked_message_ids st ∧
  match tagged_members st !! post_id with
  | Some sp =>
      ∃ sp', tagged_members (deliver st m) !! post_id = Some sp' ∧
             worth sp' = worth sp ∧
             (players sp' !! player = players sp !! player ∨
              (carries_proof m = true ∧ post_id = msg_channel m ∧
               player = msg_author m ∧
               ∃ info, players sp !! player = Some info ∧
                       players sp' !! player =
                       Some (PlayerInfo true (image_count info + 1)
                               (value_added info))))
  | None => tagged_members (deliver st m) !! post_id = None
  end.
Proof.
  unfold deliver.
  assert (state_of (on_message m st) = st →
          conn (state_of (on_message m st)) = conn st ∧
          tracked_message_ids (state_of (on_message m st)) = tracked_message_ids st ∧
          match tagged_members st !! post_id with
          | Some sp =>
              ∃ sp', tagged_members (state_of (on_message m st)) !! post_id = Some sp' ∧
                     worth sp' = worth sp ∧
                     (players sp' !! player = players sp !! player ∨
                      (carries_proof m = true ∧ post_id = msg_channel m ∧
                       player = msg_author m ∧
                       ∃ info, players sp !! player = Some info ∧
                               players sp' !! player =
                               Some (PlayerInfo true (image_count info + 1)
                                       (value_added info))))
          | None => tagged_members (state_of (on_message m st)) !! post_id = None
          end) as Hsame.
  { intros ->. split; [done |]. split; [done |].
    destruct (tagged_members st !! post_id) as [sp|]; [| done].
    exists sp. split; [done |]. split; [done |]. by left. }
  destruct (carries_proof m) eqn:Hp;
    [| apply Hsame; unfold on_message; by rewrite Hp].
  destruct (tagged_members st !! msg_channel m) as [sp|] eqn:Hsp;
    [| apply Hsame; unfold on_message; by rewrite Hp, Hsp].
  destruct (players sp !! msg_author m) as [info|] eqn:Hinfo;
    [| apply Hsame; unfold on_message; by rewrite Hp, Hsp, Hinfo].
  clear Hsame.
  destruct (on_message_proof m st sp info Hp Hsp Hinfo) as [-> _]. simpl.
  split; [done |]. split; [done |].
  destruct (decide (msg_channel m = post_id)) as [<-|Hne].
  - rewrite Hsp, lookup_insert_eq. eexists. split; [done |]. split; [done |].
    simpl. destruct (decide (msg_author m = player)) as [<-|Hne].
    + right. rewrite lookup_insert_eq. repeat split; try done. by exists info.
    + left. by rewrite lookup_insert_ne.
  - rewrite lookup_insert_ne by done.
    destruct (tagged_members st !! post_id) as [sp0|]; [| done].
    exists sp0. split; [done |]. split; [done |]. by left.
Qed.

Lemma totals_shown_spec (c : gmap Z pyfloat) (members : list Z) :
  Rendered.totals_shown c members = true ↔
  ∀ id, id ∈ members → Rendered.can_show (get_player_value c id) = true.
Proof.
  unfold Rendered.totals_shown. rewrite forallb_forall. split.
  - intros H id Hin. apply H. by apply list_elem_of_In.
  - intros H id Hin. apply H. by apply list_elem_of_In.
Qed.

Lemma totals_shown_players (c : gmap Z pyfloat) (ps : gmap Z player_info) :
  Rendered.totals_shown c (fst <$> map_to_list ps) = true ↔
  ∀ player info, ps !! player = Some info →
                 Rendered.can_show (get_player_value c player) = true.
Proof.
  rewrite totals_shown_spec. split.
  - intros H player info Hl. apply H. apply list_elem_of_fmap.
    exists (player, info). split; [done |]. by apply elem_of_map_to_list.
  - intros H id Hin. apply list_elem_of_fmap in Hin as [[player info] [-> Hin]].
    apply elem_of_map_to_list in Hin. by apply (H player info).
Qed.

(** A message does to the state what [deliver] says, whatever becomes of the
    calls to the platform and of the embed. *)
Lemma rendered_on_message_state (react_ok tracker_ok prompt_ok : bool)
    (m : message) (st : world) :
  state_of (Rendered.on_message react_ok tracker_ok prompt_ok m st) = deliver st m.
Proof.
  unfold deliver, Rendered.on_message, on_message, state_of.
  destruct (carries_proof m); [| done].
  destruct (tagged_members st !! msg_channel m) as [sp|]; [| done].
  destruct (players sp !! msg_author m) as [info|]; [| done].
  destruct react_ok; [| by destruct (tracked_message_ids st !! msg_channel m)
                                 as [t|]; [destruct (t =? 0) |]].
  destruct (tracked_message_ids st !! msg_channel m) as [t|]; [| done].
  destruct (t =? 0); [done |].
  by destruct (tracker_ok && Rendered.can_show (worth sp)
               && Rendered.totals_shown (conn st) _).
Qed.

(** When the platform answers and the embed can be built, nothing is left
    out of [on_message]. *)
Lemma rendered_on_message_agrees (m : message) (st : world) :
  (∀ sp, tagged_members st !! msg_channel m = Some sp →
         Rendered.can_show (worth sp) = true ∧
         ∀ player info, players sp !! player = Some info →
                        Rendered.can_show (get_player_value (conn st) player) = true) →
  Rendered.on_message true true true m st = on_message m st.
Proof.
  intros Hshow. unfold Rendered.on_message, on_message.
  destruct (carries_proof m); [| done].
  destruct (tagged_members st !! msg_channel m) as [sp|]; [| done].
  destruct (Hshow sp eq_refl) as [Hw Ht].
  destruct (players sp !! msg_author m) as [info|] eqn:Hinfo; [| done].
  destruct (tracked_message_ids st !! msg_channel m) as [t|]; [| done].
  destruct (t =? 0); [done |].
  rewrite Hw. cbn [andb].
  rewrite (proj2 (totals_shown_players (conn st) _)); [by rewrite andb_true_r |].
  intros player info'. rewrite lookup_insert. case_decide as Hd.
  - subst player. intros _. by apply (Ht _ info).
  - apply Ht.
Qed.

(** X6. A message never changes the ledger nor the tracker ids, never the
    share of a split, and no record of a participant but that of its author
    in the split of its channel, and that one only when the message carries
    an attachment or a link: [submitted] becomes true, the count of proofs
    grows by one and [value_added] stays.  This holds whether or not the
    reaction, the edit of the tracker and the prompt succeed. *)
Theorem on_message_touches_author_only (react_ok tracker_ok prompt_ok : bool)
    (m : message) (st : world) (post_id player : Z) :
  let after := state_of (Rendered.on_message react_ok tracker_ok prompt_ok m st) in
  conn after = conn st ∧
  tracked_message_ids after = tracked_message_ids st ∧
  match tagged_members st !! post_id with
  | Some sp =>
      ∃ sp', tagged_members after !! post_id = Some sp' ∧
             worth sp' = worth sp ∧
             (players sp' !! player = players sp !! player ∨
              (carries_proof m = true ∧ post_id = msg_channel m ∧
               player = msg_author m ∧
               ∃ info, players sp !! player = Some info ∧
                       players sp' !! player =
                       Some (PlayerInfo true (image_count info + 1)
                               (value_added info))))
  | None => tagged_members after !! post_id = None
  end.
Proof.
  cbv zeta. rewrite rendered_on_message_state.
  apply deliver_touches_author_only.
Qed.



(** ** Starting, cancelling and confirming a split *)

(** X8. [cancel_split] on a context with a split returns, removes the
    split and leaves the ledger as it is; after it a confirmation for that
    context raises KeyError without touching the ledger, and proofs sent in
    that context are ignored. *)
Theorem cancel_split_discards (post_id : Z) (st : world) (sp : split)
    (from : origin) (respond_ok react_ok tracker_ok prompt_ok : bool)
    (m : message) :
  tagged_members st !! post_id = Some sp →
  msg_channel m = post_id →
  let after := state_of (cancel_split post_id st) in
  outcome_of (cancel_split post_id st) = Returned ∧
  tagged_members after !! post_id = None ∧
  conn after = conn st ∧
  finalize_split from respond_ok post_id after = (after, [], Raised KeyError) ∧
  Rendered.on_message react_ok tracker_ok prompt_ok m after = (after, [], Returned).
Proof.
  intros Hsp Hm. cbv zeta. unfold cancel_split. rewrite Hsp.
  unfold state_of, outcome_of. simpl.
  assert (tagged_members
            (World (delete post_id (tagged_members st)) (tracked_message_ids st)
               (conn st)) !! post_id = None) as Hgone
    by (simpl; apply lookup_delete_eq).
  split; [done |]. split; [exact Hgone |]. split; [done |]. split.
  - by apply finalize_split_missing.
  - unfold Rendered.on_message. rewrite Hm, Hgone.
    by destruct (carries_proof m).
Qed.

Lemma cancel_split_discards_witness :
  let after := state_of (cancel_split 5 split_running) in
  outcome_of (cancel_split 5 split_running) = Returned ∧
  tagged_members after !! 5 = None ∧
  conn after = conn split_running ∧
  finalize_split Channel true 5 after = (after, [], Raised KeyError) ∧
  Rendered.on_message true true true proof_message after = (after, [], Returned).
Proof.
  apply (cancel_split_discards 5 split_running three_way Channel true true true
           true proof_message);
    vm_compute; reflexivity.
Defined.

(** X9. [split_members], [finalize_split] and [cancel_split] called for one
    context leave the split of every other context as it is; and neither
    [split_members] nor [cancel_split] ever changes the ledger. *)
Theorem split_operations_frame (fetch_member : Z → fetched) (post_id tracker other : Z)
    (players_text : string) (value : option string) (from : origin)
    (respond_ok : bool) (st : world) :
  other ≠ post_id →
  let started :=
    (Rendered.split_members fetch_member post_id tracker players_text value st).1.1 in
  tagged_members started !! other = tagged_members st !! other ∧
  tagged_members (state_of (finalize_split from respond_ok post_id st)) !! other =
    tagged_members st !! other ∧
  tagged_members (state_of (cancel_split post_id st)) !! other =
    tagged_members st !! other ∧
  conn started = conn st ∧
  conn (state_of (cancel_split post_id st)) = conn st.
Proof.
  intros Hne. cbv zeta.
  assert (∀ s : split, <[post_id := s]> (tagged_members st) !! other =
                       tagged_members st !! other) as Hins
    by (intros s; by rewrite lookup_insert_ne).
  split; [| split; [| split; [| split]]].
  - unfold Rendered.split_members.
    destruct (String.eqb players_text ""); [done |].
    destruct (read_mentions _ _ _) as [ms| | |]; try done.
    cbv zeta.
    destruct (Rendered.totals_shown (conn st) ms);
      (destruct value as [v|]; simpl; [| apply Hins]);
      (destruct (0 <? length ms)%nat; simpl; [| apply Hins]);
      (destruct (parse_value v); simpl; [| apply Hins]);
      rewrite ?andb_true_r, ?andb_false_r;
      try destruct (Rendered.can_show _); simpl;
      by rewrite lookup_insert_ne, Hins.
  - by apply finalize_split_other.
  - unfold cancel_split, state_of.
    destruct (tagged_members st !! post_id) as [sp|]; [| done].
    simpl. by rewrite lookup_delete_ne.
  - unfold Rendered.split_members.
    destruct (String.eqb players_text ""); [done |].
    destruct (read_mentions _ _ _) as [ms| | |]; try done.
    cbv zeta.
    destruct (Rendered.totals_shown (conn st) ms);
      (destruct value as [v|]; simpl; [| done]);
      (destruct (0 <? length ms)%nat; simpl; [| done]);
      (destruct (parse_value v); simpl; [| done]);
      rewrite ?andb_true_r, ?andb_false_r;
      try destruct (Rendered.can_show _); done.
  - unfold cancel_split, state_of.
    by destruct (tagged_members st !! post_id).
Qed.

Lemma split_operations_frame_witness :
  let started :=
    (Rendered.split_members (fun _ => IsMember) 6 78 "<@1>" (Some "9k")
       split_running).1.1 in
  tagged_members started !! 5 = tagged_members split_running !! 5 ∧
  tagged_members (state_of (finalize_split Channel true 6 split_running)) !! 5 =
    tagged_members split_running !! 5 ∧
  tagged_members (state_of (cancel_split 6 split_running)) !! 5 =
    tagged_members split_running !! 5 ∧
  conn started = conn split_running ∧
  conn (state_of (cancel_split 6 split_running)) = conn split_running.
Proof.
  apply (split_operations_frame (fun _ => IsMember) 6 78 5 "<@1>" (Some "9k")
           Channel true split_running).
  lia.
Defined.

Section ReadMentions.

Variable fetch_member : Z → fetched.

Lemma read_mentions_unreadable (words : list (list ascii)) (word : list ascii) :
  word ∈ words → unreadable fetch_member word →
  ∀ acc members, read_mentions fetch_member words acc ≠ Members members.
Proof.
  intros Hin Hbad. induction words as [|w words IH]; [by apply not_elem_of_nil in Hin |].
  intros acc members. simpl.
  apply elem_of_cons in Hin as [<-|Hin].
  - destruct Hbad as [Hm|[Hi|[id [Hi Hf]]]].
    + by rewrite Hm.
    + destruct (is_mention word); [| done]. by rewrite Hi.
    + destruct (is_mention word); [| done]. by rewrite Hi, Hf.
  - destruct (is_mention w); [| done].
    destruct (py_int (member_id_text w)) as [id|]; [| done].
    destruct (fetch_member id); [by apply IH | by apply IH | done].
Qed.

(** The members read are the ids of the words, in the order of the text,
    without those for which the fetch gives nothing. *)
Lemma read_mentions_members (words : list (list ascii)) :
  ∀ acc members,
    read_mentions fetch_member words acc = Members members →
    ∃ read, members = acc ++ read ∧ (length read ≤ length words)%nat ∧
            ∀ id, id ∈ read → fetch_member id = IsMember ∧
                  ∃ word, word ∈ words ∧ is_mention word = true ∧
                          py_int (member_id_text word) = Some id.
Proof.
  induction words as [|w words IH]; intros acc members; simpl.
  { intros [= <-]. exists []. rewrite app_nil_r. split; [done |]. split; [done |].
    intros id Hin. by apply not_elem_of_nil in Hin. }
  destruct (is_mention w) eqn:Hm; [| done].
  destruct (py_int (member_id_text w)) as [id|] eqn:Hi; [| done].
  destruct (fetch_member id) eqn:Hf; [| | done].
  - intros H. destruct (IH _ _ H) as [read [-> [Hlen Hall]]].
    exists (id :: read). rewrite <- app_assoc. split; [done |].
    split; [simpl; lia |].
    intros id' [->|Hin]%elem_of_cons.
    + split; [done |]. exists w. split; [by left | done].
    + destruct (Hall id' Hin) as [Hf' [word [Hw Hrest]]].
      split; [done |]. exists word. split; [by right | done].
  - intros H. destruct (IH _ _ H) as [read [-> [Hlen Hall]]].
    exists read. split; [done |]. split; [simpl; lia |].
    intros id' Hin. destruct (Hall id' Hin) as [Hf' [word [Hw Hrest]]].
    split; [done |]. exists word. split; [by right | done].
Qed.

End ReadMentions.

Lemma fresh_players_lookup (members : list Z) (player : Z) :
  fresh_players members !! player =
  if decide (player ∈ members) then Some fresh_info else None.
Proof.
  unfold fresh_players. induction members as [|m members IH].
  { destruct (decide (player ∈ [])) as [Hin|_]; [| done].
    by apply not_elem_of_nil in Hin. }
  cbn [fmap list_fmap list_to_map foldr]. rewrite lookup_insert.
  cbn [fst snd]. destruct (decide (m = player)) as [->|Hd].
  - destruct (decide (player ∈ player :: members)) as [_|Hn]; [done |].
    exfalso. apply Hn. by left.
  - rewrite IH. destruct (decide (player ∈ members)) as [Hin|Hn],
      (decide (player ∈ m :: members)) as [Hin'|Hn']; try done.
    + exfalso. apply Hn'. by right.
    + apply elem_of_cons in Hin' as [->|Hin']; done.
Qed.

(** X10. When a word of the [players] text is not of the form of a mention,
    or holds no integer between its brackets, or names an id whose fetch
    fails, [split_members] stores nothing and announces no split: the state
    is untouched, also when earlier words were good mentions. *)
Theorem split_members_rejects (fetch_member : Z → fetched) (post_id tracker : Z)
    (players_text : string) (value : option string) (st : world)
    (word : list ascii) :
  word ∈ py_split players_text →
  unreadable fetch_member word →
  let r := Rendered.split_members fetch_member post_id tracker players_text
             value st in
  r.1.1 = st ∧
  r.2 ≠ Rendered.FormatRaised ∧
  ∀ members share, SplitStarted members share ∉ r.1.2.
Proof.
  intros Hin Hbad. cbv zeta. unfold Rendered.split_members.
  assert (∀ members share text,
            SplitStarted members share ∉ [Plain (Respond text)]) as Hno.
  { intros members share text [H|H]%elem_of_cons; [done |].
    by apply not_elem_of_nil in H. }
  destruct (String.eqb players_text "");
    [split; [done | split; [done | intros; apply Hno]] |].
  pose proof (read_mentions_unreadable fetch_member _ _ Hin Hbad []) as Hne.
  destruct (read_mentions fetch_member (py_split players_text) []) as [ms| | |].
  - by destruct (Hne ms).
  - split; [done | split; [done | intros; apply Hno]].
  - split; [done | split; [done | intros; apply Hno]].
  - split; [done |]. split; [done |]. intros members share. apply not_elem_of_nil.
Qed.

Lemma split_members_rejects_witness :
  let r := Rendered.split_members (fun _ => IsMember) 5 78 "<@1> @2" (Some "9k")
             split_running in
  r.1.1 = split_running ∧
  r.2 ≠ Rendered.FormatRaised ∧
  ∀ members share, SplitStarted members share ∉ r.1.2.
Proof.
  apply (split_members_rejects (fun _ => IsMember) 5 78 "<@1> @2" (Some "9k")
           split_running (list_ascii_of_string "@2")).
  - vm_compute. right. left.
  - left. vm_compute. reflexivity.
Defined.

(** X11. When the mentions are read, at least one member is found and the
    value does not parse, [split_members] answers that the value is invalid
    after it has replaced the split of the context by a new one with share
    0; the tracker id of the context and the ledger are as before. *)
Theorem split_members_invalid_value (fetch_member : Z → fetched)
    (post_id tracker : Z) (players_text value : string) (st : world)
    (members : list Z) :
  players_text ≠ ""%string →
  read_mentions fetch_member (py_split players_text) [] = Members members →
  members ≠ [] →
  parse_value value = None →
  let r := Rendered.split_members fetch_member post_id tracker players_text
             (Some value) st in
  r.2 = Rendered.Finished Returned ∧
  r.1.2 = [Plain (Respond invalid_value_text)] ∧
  tagged_members r.1.1 !! post_id = Some (SplitOf (fresh_players members) fzero) ∧
  tracked_message_ids r.1.1 = tracked_message_ids st ∧
  conn r.1.1 = conn st.
Proof.
  intros Hp Hread Hm Hv. cbv zeta. unfold Rendered.split_members.
  rewrite (proj2 (String.eqb_neq players_text "") Hp), Hread, Hv.
  destruct members as [|m members]; [done |]. simpl.
  by rewrite lookup_insert_eq.
Qed.

Lemma split_members_invalid_value_witness :
  let r := Rendered.split_members (fun _ => IsMember) 5 78 "<@1> <@2>" (Some "abc")
             split_running in
  r.2 = Rendered.Finished Returned ∧
  r.1.2 = [Plain (Respond invalid_value_text)] ∧
  tagged_members r.1.1 !! 5 = Some (SplitOf (fresh_players [1; 2]) fzero) ∧
  tracked_message_ids r.1.1 = tracked_message_ids split_running ∧
  conn r.1.1 = conn split_running.
Proof.
  apply (split_members_invalid_value (fun _ => IsMember) 5 78 "<@1> <@2>" "abc"
           split_running [1; 2]);
    try (vm_compute; reflexivity); discriminate.
Defined.

(** X12. When the mentions are read, at least one member is found, the value
    parses, and the share and the total of every member read can be shown by
    [format_number], [split_members] announces the split and stores it under
    the context with the id of the tracker message: the share is the value
    divided by the number of mentions read; the participants are the members
    read, each once, with nothing submitted and nothing credited; and every
    member read was fetched for the id of a mention of the text. *)
Theorem split_members_starts (fetch_member : Z → fetched)
    (post_id tracker : Z) (players_text value : string) (st : world)
    (members : list Z) (total : pyfloat) :
  players_text ≠ ""%string →
  read_mentions fetch_member (py_split players_text) [] = Members members →
  members ≠ [] →
  parse_value value = Some total →
  Rendered.can_show (fdiv total (of_Z (Z.of_nat (length members)))) = true →
  Rendered.totals_shown (conn st) members = true →
  let r := Rendered.split_members fetch_member post_id tracker players_text
             (Some value) st in
  let share := fdiv total (of_Z (Z.of_nat (length members))) in
  r.2 = Rendered.Finished Returned ∧
  r.1.2 = [SplitStarted members (Some share)] ∧
  tracked_message_ids r.1.1 !! post_id = Some tracker ∧
  (∃ sp, tagged_members r.1.1 !! post_id = Some sp ∧
         worth sp = share ∧
         ∀ player, players sp !! player =
                   if decide (player ∈ members) then Some fresh_info else None) ∧
  ∀ id, id ∈ members →
        fetch_member id = IsMember ∧
        ∃ word, word ∈ py_split players_text ∧ is_mention word = true ∧
                py_int (member_id_text word) = Some id.
Proof.
  intros Hp Hread Hm Hv Hshare Htotals. cbv zeta.
  split; [| split; [| split; [| split]]].
  5: { destruct (read_mentions_members fetch_member _ _ _ Hread)
         as [read [Heq [_ Hall]]].
       simpl in Heq. subst read. exact Hall. }
  all: unfold Rendered.split_members;
    rewrite (proj2 (String.eqb_neq players_text "") Hp), Hread, Hv;
    destruct members as [|m members]; [done |];
    cbv zeta; change (0 <? length (m :: members))%nat with true; cbn iota;
    rewrite Hshare, Htotals; cbn [andb fst snd].
  - done.
  - done.
  - cbn [tracked_message_ids]. by rewrite lookup_insert_eq.
  - eexists. cbn [tagged_members]. rewrite lookup_insert_eq.
    split; [done |]. split; [done |].
    intros player. cbn [players]. apply (fresh_players_lookup (m :: members)).
Qed.

Lemma split_members_starts_witness :
  let r := Rendered.split_members (fun _ => IsMember) 5 78 "<@1> <@!2> <@1>"
             (Some "9k") split_running in
  let share := fdiv (of_Z 9000) (of_Z (Z.of_nat (length [1; 2; 1]))) in
  r.2 = Rendered.Finished Returned ∧
  r.1.2 = [SplitStarted [1; 2; 1] (Some share)] ∧
  tracked_message_ids r.1.1 !! 5 = Some 78 ∧
  (∃ sp, tagged_members r.1.1 !! 5 = Some sp ∧
         worth sp = share ∧
         ∀ player, players sp !! player =
                   if decide (player ∈ [1; 2; 1]) then Some fresh_info else None) ∧
  ∀ id, id ∈ [1; 2; 1] →
        (fun _ : Z => IsMember) id = IsMember ∧
        ∃ word, word ∈ py_split "<@1> <@!2> <@1>" ∧ is_mention word = true ∧
                py_int (member_id_text word) = Some id.
Proof.
  apply (split_members_starts (fun _ => IsMember) 5 78 "<@1> <@!2> <@1>" "9k"
           split_running [1; 2; 1] (of_Z 9000));
    try (vm_compute; reflexivity); discriminate.
Defined.

(** Where the embed is not reached, or can be built, [split_members] is the
    function without the calls to [format_number]; where it cannot, the
    command differs in its end, its messages and the tracker id only. *)
Lemma rendered_split_members_agrees (fetch_member : Z → fetched)
    (post_id tracker : Z) (players_text : string) (value : option string)
    (st : world) :
  let r := split_members fetch_member post_id tracker players_text value st in
  let r' := Rendered.split_members fetch_member post_id tracker players_text
              value st in
  r' = (r.1.1, r.1.2, Rendered.Finished r.2) ∨
  (r'.2 = Rendered.FormatRaised ∧ r'.1.2 = [] ∧
   tagged_members r'.1.1 = tagged_members r.1.1 ∧
   tracked_message_ids r'.1.1 = tracked_message_ids st ∧
   conn r'.1.1 = conn st ∧ conn r.1.1 = conn st).
Proof.
  cbv zeta. unfold Rendered.split_members, split_members.
  destruct (String.eqb players_text ""); [by left |].
  destruct (read_mentions _ _ _) as [ms| | |]; try (by left).
  cbv zeta.
  destruct value as [v|].
  - destruct (0 <? length ms)%nat.
    + destruct (parse_value v) as [total|]; [| by left].
      destruct (Rendered.can_show _ && Rendered.totals_shown _ _);
        [by left | by right].
    + destruct (Rendered.totals_shown _ _); [by left | by right].
  - destruct (Rendered.totals_shown _ _); [by left | by right].
Qed.

(** X26. When the mentions are read and at least one member is found, but the
    share (as for the value "nan") or the total of a member read cannot be
    shown by [format_number], [split_members] ends in that exception after it
    has replaced the split of the context by the new one with its share: no
    message is sent and the tracker id of the context is not set, so an
    earlier one stays; the ledger is as before. *)
Theorem split_members_format_raises (fetch_member : Z → fetched)
    (post_id tracker : Z) (players_text value : string) (st : world)
    (members : list Z) (total : pyfloat) :
  players_text ≠ ""%string →
  read_mentions fetch_member (py_split players_text) [] = Members members →
  members ≠ [] →
  parse_value value = Some total →
  Rendered.can_show (fdiv total (of_Z (Z.of_nat (length members)))) = false ∨
  Rendered.totals_shown (conn st) members = false →
  let r := Rendered.split_members fetch_member post_id tracker players_text
             (Some value) st in
  let share := fdiv total (of_Z (Z.of_nat (length members))) in
  r.2 = Rendered.FormatRaised ∧
  r.1.2 = [] ∧
  tagged_members r.1.1 !! post_id = Some (SplitOf (fresh_players members) share) ∧
  tracked_message_ids r.1.1 = tracked_message_ids st ∧
  conn r.1.1 = conn st.
Proof.
  intros Hp Hread Hm Hv Hfail. cbv zeta.
  unfold Rendered.split_members.
  rewrite (proj2 (String.eqb_neq players_text "") Hp), Hread, Hv.
  destruct members as [|m members]; [done |].
  cbv zeta. change (0 <? length (m :: members))%nat with true. cbn iota.
  assert (Rendered.can_show (fdiv total (of_Z (Z.of_nat (length (m :: members)))))
          && Rendered.totals_shown (conn st) (m :: members) = false) as ->.
  { apply andb_false_iff. exact Hfail. }
  cbn [fst snd tagged_members tracked_message_ids conn].
  by rewrite lookup_insert_eq.
Qed.

Lemma split_members_format_raises_witness :
  let r := Rendered.split_members (fun _ => IsMember) 5 78 "<@1> <@2>"
             (Some "nan") split_running in
  let share := fdiv S754_nan (of_Z (Z.of_nat (length [1; 2]))) in
  r.2 = Rendered.FormatRaised ∧
  r.1.2 = [] ∧
  tagged_members r.1.1 !! 5 = Some (SplitOf (fresh_players [1; 2]) share) ∧
  tracked_message_ids r.1.1 = tracked_message_ids split_running ∧
  conn r.1.1 = conn split_running.
Proof.
  apply (split_members_format_raises (fun _ => IsMember) 5 78 "<@1> <@2>" "nan"
           split_running [1; 2] S754_nan);
    try (vm_compute; reflexivity); try discriminate.
  left. vm_compute. reflexivity.
Defined.


(** ** Settings and permissions *)

(** X13. As long as no role is stored under "Content Admin rights", a press
    on the cancel button of either cog changes nothing, whoever presses, the
    creator of the event included, and a role stored under another name
    does not help.  Once [set_role_setting] has stored a role there, the
    creator, and every user who holds that role while the guild has it,
    cancels the event; every other user is refused and changes nothing. *)
Theorem cancel_needs_setting (settings : gmap string Z) (guild_roles : list Z)
    (creator msg event_id role_id other_role : Z) (ev : event) (st : registry) :
  get_role_setting settings content_admin = None →
  message_id_to_event_id st !! msg = Some event_id →
  active_events st !! event_id = Some ev →
  role_id ≠ 0 →
  let elsewhere := set_role_setting settings split_admin other_role in
  let stored := set_role_setting settings content_admin role_id in
  let allowed (user : member) :=
    user_id user = creator ∨ (role_id ∈ guild_roles ∧ role_id ∈ roles_held user) in
  (∀ user : member,
     raid_cancel_pressed settings guild_roles user creator msg st =
       (st, [Respond role_unset_text], Returned) ∧
     ff_cancel_pressed settings guild_roles user creator msg st =
       (st, [Respond role_unset_text], Returned) ∧
     raid_cancel_pressed elsewhere guild_roles user creator msg st =
       (st, [Respond role_unset_text], Returned) ∧
     ff_cancel_pressed elsewhere guild_roles user creator msg st =
       (st, [Respond role_unset_text], Returned)) ∧
  (∀ user : member, allowed user →
     active_events
       (state_of (raid_cancel_pressed stored guild_roles user creator msg st))
       !! event_id = None ∧
     active_events
       (state_of (ff_cancel_pressed stored guild_roles user creator msg st))
       !! event_id = None) ∧
  (∀ user : member, ¬ allowed user →
     raid_cancel_pressed stored guild_roles user creator msg st =
       (st, [Respond no_permission_text], Returned) ∧
     ff_cancel_pressed stored guild_roles user creator msg st =
       (st, [Respond no_permission_text], Returned)).
Proof.
  intros Hnone Hmsg Hev Hr. cbv zeta.
  assert (get_role_setting (set_role_setting settings split_admin other_role)
            content_admin = None) as Helse.
  { unfold get_role_setting, set_role_setting in *.
    rewrite lookup_insert_ne; [done |]. discriminate. }
  assert (get_role_setting (set_role_setting settings content_admin role_id)
            content_admin = Some role_id) as Hset.
  { unfold get_role_setting, set_role_setting. apply lookup_insert_eq. }
  assert (truthy (Some role_id) = true) as Htruthy.
  { simpl. apply negb_true_iff. by apply Z.eqb_neq. }
  assert (∀ user : member,
            may_cancel guild_roles role_id user creator = true ↔
            user_id user = creator ∨
            (role_id ∈ guild_roles ∧ role_id ∈ roles_held user)) as Hmay.
  { intros user. unfold may_cancel, get_role, holds.
    rewrite orb_true_iff, Z.eqb_eq.
    destruct (decide (role_id ∈ guild_roles)) as [Hg|Hg].
    - rewrite (bool_decide_eq_true_2 _ Hg), bool_decide_eq_true. tauto.
    - rewrite (bool_decide_eq_false_2 _ Hg). split; [| tauto].
      intros [H|H]; [done | by left]. }
  unfold raid_cancel_pressed, ff_cancel_pressed.
  rewrite Hnone, Helse, Hset, Htruthy.
  unfold RaidAnnouncement.cancel_event_callback,
    FFAnnouncement.cancel_event_callback, state_of.
  rewrite Hmsg, Hev. cbn [truthy].
  split; [done |]. split.
  - intros user Hwho. apply Hmay in Hwho. rewrite Hwho. simpl.
    by rewrite !lookup_delete_eq.
  - intros user Hwho.
    destruct (may_cancel guild_roles role_id user creator) eqn:Hm; [| done].
    exfalso. apply Hwho. by apply Hmay.
Qed.

Lemma cancel_needs_setting_witness :
  let st := run_actions two_signups in
  let elsewhere := set_role_setting ∅ split_admin 8 in
  let stored := set_role_setting ∅ content_admin 8 in
  let allowed (user : member) :=
    user_id user = 1 ∨ (8 ∈ [7; 8; 9] ∧ 8 ∈ roles_held user) in
  (∀ user : member,
     raid_cancel_pressed ∅ [7; 8; 9] user 1 55 st =
       (st, [Respond role_unset_text], Returned) ∧
     ff_cancel_pressed ∅ [7; 8; 9] user 1 55 st =
       (st, [Respond role_unset_text], Returned) ∧
     raid_cancel_pressed elsewhere [7; 8; 9] user 1 55 st =
       (st, [Respond role_unset_text], Returned) ∧
     ff_cancel_pressed elsewhere [7; 8; 9] user 1 55 st =
       (st, [Respond role_unset_text], Returned)) ∧
  (∀ user : member, allowed user →
     active_events (state_of (raid_cancel_pressed stored [7; 8; 9] user 1 55 st))
       !! 1234 = None ∧
     active_events (state_of (ff_cancel_pressed stored [7; 8; 9] user 1 55 st))
       !! 1234 = None) ∧
  (∀ user : member, ¬ allowed user →
     raid_cancel_pressed stored [7; 8; 9] user 1 55 st =
       (st, [Respond no_permission_text], Returned) ∧
     ff_cancel_pressed stored [7; 8; 9] user 1 55 st =
       (st, [Respond no_permission_text], Returned)).
Proof.
  apply (cancel_needs_setting ∅ [7; 8; 9] 1 55 1234 8 8
           two_signups_event (run_actions two_signups)).
  - reflexivity.
  - vm_compute. reflexivity.
  - vm_compute. reflexivity.
  - lia.
Defined.

(** X14. [AdminCommands.cog_check] lets a user through exactly when a role
    other than 0 is stored under "Split-admin rights", the guild has that
    role and the user holds it; it sends a message exactly when it refuses. *)
Theorem cog_check_grants (settings : gmap string Z) (guild_roles : list Z)
    (user : member) :
  ((cog_check settings guild_roles user).1 = true ↔
   ∃ role_id, get_role_setting settings split_admin = Some role_id ∧
              role_id ≠ 0 ∧ role_id ∈ guild_roles ∧ role_id ∈ roles_held user) ∧
  ((cog_check settings guild_roles user).2 = [] ↔
   (cog_check settings guild_roles user).1 = true).
Proof.
  unfold cog_check.
  destruct (get_role_setting settings split_admin) as [r|] eqn:Hget; simpl.
  2: { split; split; try done. by intros [r [Hr _]]. }
  destruct (r =? 0) eqn:Hz; simpl.
  { apply Z.eqb_eq in Hz. split; split; try done.
    intros [r' [[= <-] [Hne _]]]. done. }
  apply Z.eqb_neq in Hz. unfold get_role.
  destruct (decide (r ∈ guild_roles)) as [Hg|Hg].
  - rewrite bool_decide_eq_true_2 by done. simpl.
    destruct (decide (r ∈ roles_held user)) as [Hu|Hu].
    + rewrite bool_decide_eq_true_2 by done. simpl.
      split; split; try done. intros _. by exists r.
    + rewrite bool_decide_eq_false_2 by done. simpl.
      split; split; try done. intros [r' [[= <-] [_ [_ Hu']]]]. done.
  - rewrite bool_decide_eq_false_2 by done. simpl.
    split; split; try done. intros [r' [[= <-] [_ [Hg' _]]]]. done.
Qed.

(** ** The start time of an event *)

Section TimeTexts.

Lemma list_ascii_app (s t : string) :
  list_ascii_of_string (s ++ t) = list_ascii_of_string s ++ list_ascii_of_string t.
Proof. induction s as [|c s IH]; simpl; [done | by rewrite IH]. Qed.

Lemma decimal_range (c d : Z) : decimal c = Some d → 0 ≤ d ≤ 9.
Proof.
  unfold decimal.
  destruct (List.find _ decimal_zeros) as [z|] eqn:Hz; [| done].
  apply find_some in Hz as [_ [H1 H2]%andb_true_iff].
  apply Z.leb_le in H1, H2. intros [= <-]. lia.
Qed.

Lemma decimal_ascii (a : Z) : 48 ≤ a ≤ 57 → decimal a = Some (a - 48).
Proof.
  intros Ha. unfold decimal, decimal_zeros. cbn [List.find].
  replace ((48 <=? a) && (a <=? 48 + 9)) with true; [done |].
  symmetry. apply andb_true_iff. split; apply Z.leb_le; lia.
Qed.

Lemma decimal_colon : decimal 58 = None.
Proof. vm_compute. reflexivity. Qed.

(** What an alternative of the hour has matched. *)
Lemma hour_alternatives_inv (l rest : list Z) (h : Z) :
  (h, rest) ∈ hour_alternatives l → ∃ H, l = H ++ rest ∧ hour_text H h.
Proof.
  unfold hour_alternatives. intros [Hin|Hin]%elem_of_app.
  - destruct l as [|a [|b r]]; try by apply not_elem_of_nil in Hin.
    apply elem_of_app in Hin as [Hin|Hin].
    + destruct ((a =? 50) && (48 <=? b) && (b <=? 51)) eqn:Hc;
        [| by apply not_elem_of_nil in Hin].
      apply list_elem_of_singleton in Hin. injection Hin as -> ->.
      apply andb_true_iff in Hc as [[Ha H1]%andb_true_iff H2].
      apply Z.eqb_eq in Ha. apply Z.leb_le in H1, H2. subst a.
      exists [50; b]. split; [done |]. by constructor.
    + destruct ((a =? 48) || (a =? 49)) eqn:Hc;
        [| by apply not_elem_of_nil in Hin].
      destruct (decimal b) as [d|] eqn:Hd; [| by apply not_elem_of_nil in Hin].
      apply list_elem_of_singleton in Hin. injection Hin as -> ->.
      exists [a; b]. split; [done |]. apply hour_tens; [| done].
      apply orb_true_iff in Hc as [Hc|Hc]; apply Z.eqb_eq in Hc; tauto.
  - destruct l as [|a r]; [by apply not_elem_of_nil in Hin |].
    destruct (decimal a) as [d|] eqn:Hd; [| by apply not_elem_of_nil in Hin].
    apply list_elem_of_singleton in Hin. injection Hin as -> ->.
    exists [a]. split; [done |]. by constructor.
Qed.

Lemma read_minute_inv (l rest : list Z) (m : Z) :
  read_minute l = Some (m, rest) → ∃ M, l = M ++ rest ∧ minute_text M m.
Proof.
  unfold read_minute. destruct l as [|a r]; [done |].
  assert (match decimal a with
          | Some d => Some (d, r)
          | None => None
          end = Some (m, rest) →
          ∃ M, a :: r = M ++ rest ∧ minute_text M m) as Hone.
  { destruct (decimal a) as [d|] eqn:Hd; [| done]. intros [= <- <-].
    exists [a]. split; [done |]. by constructor. }
  destruct ((48 <=? a) && (a <=? 53)) eqn:Hc; [| exact Hone].
  destruct r as [|b r']; [exact Hone |].
  destruct (decimal b) as [d|] eqn:Hd; [| exact Hone].
  intros [= <- <-]. apply andb_true_iff in Hc as [H1 H2].
  apply Z.leb_le in H1, H2.
  exists [a; b]. split; [done |]. by constructor.
Qed.

Lemma read_minute_text (M : list Z) (m : Z) :
  minute_text M m → read_minute M = Some (m, []).
Proof.
  intros [a b d Ha Hd|a d Hd]; unfold read_minute.
  - replace ((48 <=? a) && (a <=? 53)) with true; [by rewrite Hd |].
    symmetry. apply andb_true_iff. split; apply Z.leb_le; lia.
  - rewrite Hd. by destruct ((48 <=? a) && (a <=? 53)).
Qed.

Lemma head_hour_text (H M : list Z) (h m : Z) :
  hour_text H h → minute_text M m →
  head (omap after_hour (hour_alternatives (H ++ 58 :: M))) = Some (h, m, []).
Proof.
  intros HH HM.
  assert (∀ v, after_hour (v, 58 :: M) = Some (v, m, [])) as Hafter.
  { intros v. unfold after_hour. cbn [fst snd]. change (58 =? 58) with true.
    cbn iota. by rewrite (read_minute_text M m HM). }
  destruct HH as [b Hb|a b d Ha Hd|a d Hd]; unfold hour_alternatives;
    cbn [app].
  - replace ((50 =? 50) && (48 <=? b) && (b <=? 51)) with true.
    + cbn [app omap list_omap]. by rewrite Hafter.
    + symmetry. apply andb_true_iff. split; [| apply Z.leb_le; lia].
      apply andb_true_iff. split; [done | apply Z.leb_le; lia].
  - replace ((a =? 50) && (48 <=? b) && (b <=? 51)) with false.
    + replace ((a =? 48) || (a =? 49)) with true.
      * rewrite Hd. cbn [app omap list_omap]. by rewrite Hafter.
      * symmetry. apply orb_true_iff. destruct Ha as [->| ->]; [by left | by right].
    + symmetry. apply andb_false_iff. left. apply andb_false_iff. left.
      apply Z.eqb_neq. lia.
  - replace ((a =? 50) && (48 <=? 58) && (58 <=? 51)) with false
      by (symmetry; apply andb_false_r).
    rewrite decimal_colon, Hd.
    destruct ((a =? 48) || (a =? 49)); cbn [app omap list_omap];
      by rewrite Hafter.
Qed.

(** The hour and the minute that [strptime] gives are those of a time of
    day. *)
Lemma strptime_hm_texts (time : string) (h m : Z) :
  strptime_hm time = Some (h, m) ↔
  ∃ H M, code_points (list_ascii_of_string time) = Some (H ++ 58 :: M) ∧
         hour_text H h ∧ minute_text M m.
Proof.
  unfold strptime_hm. split.
  - destruct (code_points (list_ascii_of_string time)) as [l|]; [| done].
    destruct (head (omap after_hour (hour_alternatives l)))
      as [[[h' m'] [|? ?]]|] eqn:Hhead; [| done | done].
    intros [= <- <-].
    apply head_Some_elem_of, list_elem_of_omap in Hhead as [[hh rest] [Hin Hafter]].
    apply hour_alternatives_inv in Hin as [H [-> HH]].
    unfold after_hour in Hafter. cbn [fst snd] in Hafter.
    destruct rest as [|c r]; [done |].
    destruct (c =? 58) eqn:Hc; [| done]. apply Z.eqb_eq in Hc. subst c.
    destruct (read_minute r) as [[mm rest']|] eqn:Hm; [| done].
    injection Hafter as <- <- ->.
    apply read_minute_inv in Hm as [M [-> HM]]. rewrite app_nil_r.
    by exists H, M.
  - intros [H [M [-> [HH HM]]]]. by rewrite (head_hour_text H M h m HH HM).
Qed.

Lemma strptime_hm_range (time : string) (h m : Z) :
  strptime_hm time = Some (h, m) → 0 ≤ h ≤ 23 ∧ 0 ≤ m ≤ 59.
Proof.
  intros [H [M [_ [HH HM]]]]%strptime_hm_texts. split.
  - destruct HH as [b Hb|a b d Ha Hd|a d Hd]; [lia | |].
    + apply decimal_range in Hd. lia.
    + apply decimal_range in Hd. lia.
  - destruct HM as [a b d Ha Hd|a d Hd]; apply decimal_range in Hd; lia.
Qed.

Lemma reads_back_all :
  forallb (fun h => forallb (reads_back h) (seqZ 0 60)) (seqZ 0 24) = true.
Proof. vm_compute. reflexivity. Qed.

Lemma reads_back_in_range (h m : Z) :
  0 ≤ h ≤ 23 → 0 ≤ m ≤ 59 → reads_back h m = true.
Proof.
  intros Hh Hm. pose proof reads_back_all as Hall.
  rewrite forallb_forall in Hall.
  assert (In h (seqZ 0 24)) as Hin
    by (apply list_elem_of_In, elem_of_seqZ; lia).
  specialize (Hall h Hin). rewrite forallb_forall in Hall.
  apply Hall. apply list_elem_of_In, elem_of_seqZ. lia.
Qed.

End TimeTexts.

(** X15. [strptime] with "%H:%M" accepts exactly the texts made of an hour,
    a colon and a minute, where the hour is 20 to 23 in ASCII, or an ASCII 0
    or 1 and a decimal digit, or one decimal digit, and the minute is an
    ASCII 0 to 5 and a decimal digit, or one decimal digit; the decimal
    digits are those of any script of Unicode.  It gives back the hour and
    the minute that [int] reads, a time of day; and every hour from 0 to 23
    and minute from 0 to 59 written in ASCII with two digits or, below 10,
    with one, is accepted as itself. *)
Theorem strptime_hm_accepts (time : string) (h m : Z) :
  (strptime_hm time = Some (h, m) ↔
   ∃ H M, code_points (list_ascii_of_string time) = Some (H ++ 58 :: M) ∧
          hour_text H h ∧ minute_text M m) ∧
  (strptime_hm time = Some (h, m) → 0 ≤ h ≤ 23 ∧ 0 ≤ m ≤ 59) ∧
  (0 ≤ h ≤ 23 → 0 ≤ m ≤ 59 →
   ∀ th tm, field_text h th → field_text m tm →
            strptime_hm (th ++ ":" ++ tm) = Some (h, m)) ∧
  strptime_hm "７:５" = Some (7, 5) ∧
  strptime_hm "1٢:30" = Some (12, 30) ∧
  strptime_hm "２3:00" = None.
Proof.
  split; [apply strptime_hm_texts |]. split; [apply strptime_hm_range |].
  split; [| by vm_compute].
  intros Hh Hm th tm Hth Htm.
  pose proof (reads_back_in_range h m Hh Hm) as Hrb. unfold reads_back in Hrb.
  apply andb_true_iff in Hrb as [[[H1 H2]%andb_true_iff H3]%andb_true_iff H4].
  assert (∀ t, match strptime_hm t with
               | Some (h', m') => (h' =? h) && (m' =? m)
               | None => false
               end = true → strptime_hm t = Some (h, m)) as Hdec.
  { intros t. destruct (strptime_hm t) as [[h' m']|]; [| done].
    intros [->%Z.eqb_eq ->%Z.eqb_eq]%andb_true_iff. done. }
  destruct Hth as [->|[Hh9 ->]], Htm as [->|[Hm9 ->]].
  - by apply Hdec.
  - apply Hdec. apply orb_true_iff in H2 as [H2|H2]; [| done].
    apply Z.ltb_lt in H2. lia.
  - apply Hdec. apply orb_true_iff in H3 as [H3|H3]; [| done].
    apply Z.ltb_lt in H3. lia.
  - apply Hdec. apply orb_true_iff in H4 as [H4|H4]; [| done].
    apply orb_true_iff in H4 as [H4|H4]; apply Z.ltb_lt in H4; lia.
Qed.

(** X16. The start time that [f2b] and [ff] compute from an accepted text
    is never before the moment of the command and less than a day after
    it, and it falls on the hour and minute asked, with no seconds, of a
    UTC day. *)
Theorem start_time_within_a_day (time : string) (h m now : Z) :
  strptime_hm time = Some (h, m) →
  now ≤ start_time_for h m now < now + day_us ∧
  start_time_for h m now mod day_us = (h * 3600 + m * 60) * 1000000.
Proof.
  intros [Hh Hm]%strptime_hm_range.
  unfold start_time_for, day_us.
  pose proof (Z.mod_pos_bound now 86400000000 ltac:(lia)) as Hmod.
  set (today := now - now mod 86400000000).
  assert (today mod 86400000000 = 0) as Htoday.
  { subst today. rewrite Zminus_mod, Zmod_mod, Z.sub_diag. done. }
  assert (0 ≤ (h * 3600 + m * 60) * 1000000 < 86400000000) as Hhm by lia.
  assert (∀ k, (today + (h * 3600 + m * 60) * 1000000 + k * 86400000000)
                 mod 86400000000 = (h * 3600 + m * 60) * 1000000) as Hres.
  { intros k. rewrite Z_mod_plus_full. rewrite Zplus_mod, Htoday, Z.add_0_l.
    rewrite Zmod_mod. by apply Z.mod_small. }
  destruct (today + (h * 3600 + m * 60) * 1000000 <? now) eqn:Hlt.
  - apply Z.ltb_lt in Hlt. split; [lia |].
    replace (today + (h * 3600 + m * 60) * 1000000 + 86400000000)
      with (today + (h * 3600 + m * 60) * 1000000 + 1 * 86400000000) by lia.
    apply Hres.
  - apply Z.ltb_ge in Hlt. split; [lia |].
    replace (today + (h * 3600 + m * 60) * 1000000)
      with (today + (h * 3600 + m * 60) * 1000000 + 0 * 86400000000) by lia.
    apply Hres.
Qed.

Lemma start_time_within_a_day_witness :
  1700000000000000 ≤ start_time_for 7 5 1700000000000000
    < 1700000000000000 + day_us ∧
  start_time_for 7 5 1700000000000000 mod day_us = (7 * 3600 + 5 * 60) * 1000000.
Proof.
  apply (start_time_within_a_day "7:05" 7 5 1700000000000000).
  vm_compute. reflexivity.
Defined.

(** ** Creating an event *)

Section EventIds.

Lemma pick_event_id_fresh (draws : list Z) (active : gmap Z event) (event_id : Z) :
  pick_event_id draws active = Some event_id →
  active !! event_id = None ∧ event_id ∈ draws.
Proof.
  induction draws as [|d draws IH]; simpl; [done |].
  case_bool_decide as Hd.
  - intros H. destruct (IH H) as [Hn Hin]. split; [done | by right].
  - intros [= <-]. split; [| by left].
    destruct (active !! d) eqn:E; [| done]. exfalso. apply Hd. by eexists.
Qed.

Lemma pick_event_id_none (draws : list Z) (active : gmap Z event) :
  Forall (fun d => is_Some (active !! d)) draws →
  pick_event_id draws active = None.
Proof.
  induction 1 as [|d draws Hd _ IH]; simpl; [done |].
  by rewrite bool_decide_eq_true_2.
Qed.

Lemma empty_slots_member (roles_list : list string) (role : string) :
  role ∈ roles_list → empty_slots roles_list !! role = Some [].
Proof.
  unfold empty_slots. induction roles_list as [|r roles_list IH];
    [by intros ?%not_elem_of_nil |].
  cbn [fmap list_fmap list_to_map foldr]. rewrite lookup_insert. cbn [fst snd].
  destruct (decide (r = role)) as [->|Hne]; [done |].
  intros [->|Hin]%elem_of_cons; [done | by apply IH].
Qed.

(** How a command that creates an event gets to [Tracking]. *)
Lemma creation_tracking (s : setup) (title time : string) (now : Z)
    (draws : list Z) (channel msg : Z) (st st' : registry) (event_id start : Z) :
  s = f2b time now draws channel msg st ∨
  s = ff title time now draws channel msg st →
  s = Tracking st' event_id start →
  ∃ roles_list h m,
    strptime_hm time = Some (h, m) ∧
    start = start_time_for h m now ∧
    pick_event_id draws (active_events st) = Some event_id ∧
    (s = f2b time now draws channel msg st ∧ roles_list = RaidAnnouncement.roles_list ∨
     s = ff title time now draws channel msg st ∧
     choices_for role_choices title = Some roles_list) ∧
    st' = announce roles_list event_id channel start msg st.
Proof.
  intros [Hs|Hs] Ht; rewrite Hs in Ht |- *; unfold f2b, ff in *;
    destruct (strptime_hm time) as [[h m]|]; try done;
    destruct (pick_event_id draws (active_events st)) as [eid|]; try done.
  - injection Ht as <- <- <-.
    exists RaidAnnouncement.roles_list, h, m. repeat split; try done. by left.
  - destruct (choices_for role_choices title) as [roles|] eqn:Hc; [| done].
    injection Ht as <- <- <-.
    exists roles, h, m. repeat split; try done. by right.
Qed.

End EventIds.

(** X17. When [f2b] or [ff] posts an announcement, the event id it drew was
    not in use: the new event is stored beside the others, none of which is
    replaced or changed, and the index gets the one entry of the new
    message.  The new event has the start time computed from the text, no
    sign-up and no cancellation. *)
Theorem creation_keeps_events (s : setup) (title time : string) (now : Z)
    (draws : list Z) (channel msg : Z) (st st' : registry) (event_id start : Z) :
  s = f2b time now draws channel msg st ∨
  s = ff title time now draws channel msg st →
  s = Tracking st' event_id start →
  active_events st !! event_id = None ∧
  event_id ∈ draws ∧
  (∀ other, other ≠ event_id →
            active_events st' !! other = active_events st !! other) ∧
  (∀ other, other ≠ msg →
            message_id_to_event_id st' !! other = message_id_to_event_id st !! other) ∧
  message_id_to_event_id st' !! msg = Some event_id ∧
  ∃ ev, active_events st' !! event_id = Some ev ∧
        message_id ev = Some msg ∧ channel_id ev = channel ∧
        start_time ev = start ∧ cancelled ev = false ∧
        active_users_roles ev = ∅ ∧
        (∀ role l, user_roles ev !! role = Some l → l = []) ∧
        (∃ h m, strptime_hm time = Some (h, m) ∧ start = start_time_for h m now).
Proof.
  intros Hs Ht.
  destruct (creation_tracking s title time now draws channel msg st st'
              event_id start Hs Ht)
    as [roles [h [m [Htime [Hstart [Hpick [_ ->]]]]]]].
  destruct (pick_event_id_fresh _ _ _ Hpick) as [Hfresh Hin].
  unfold announce. simpl.
  split; [done |]. split; [done |].
  split; [intros other Hne; by rewrite lookup_insert_ne |].
  split; [intros other Hne; by rewrite lookup_insert_ne |].
  split; [apply lookup_insert_eq |].
  eexists. rewrite lookup_insert_eq. split; [done |]. simpl.
  repeat split; try done.
  - intros role l. apply empty_slots_lookup.
  - by exists h, m.
Qed.

Lemma creation_keeps_events_witness :
  let st := run_actions two_signups in
  let st' := announce RaidAnnouncement.roles_list 2000 10
               (start_time_for 7 5 1700000000000000) 56 st in
  active_events st !! 2000 = None ∧
  2000 ∈ [1234; 2000] ∧
  (∀ other, other ≠ 2000 →
            active_events st' !! other = active_events st !! other) ∧
  (∀ other, other ≠ 56 →
            message_id_to_event_id st' !! other = message_id_to_event_id st !! other) ∧
  message_id_to_event_id st' !! 56 = Some 2000 ∧
  ∃ ev, active_events st' !! 2000 = Some ev ∧
        message_id ev = Some 56 ∧ channel_id ev = 10 ∧
        start_time ev = start_time_for 7 5 1700000000000000 ∧
        cancelled ev = false ∧
        active_users_roles ev = ∅ ∧
        (∀ role l, user_roles ev !! role = Some l → l = []) ∧
        (∃ h m, strptime_hm "7:05" = Some (h, m) ∧
                start_time_for 7 5 1700000000000000 =
                start_time_for h m 1700000000000000).
Proof.
  apply (creation_keeps_events
           (f2b "7:05" 1700000000000000 [1234; 2000] 10 56 (run_actions two_signups))
           "" "7:05" 1700000000000000 [1234; 2000] 10 56).
  - by left.
  - vm_compute. reflexivity.
Defined.

(** X18. When every id from 1000 to 9999 is that of a stored event, the
    loop that draws the event id does not end on any sequence of draws from
    that range: [f2b] and [ff] never post their announcement, and [ff] does
    not even get to refuse a wrong title. *)
Theorem creation_never_ends_when_full (title time : string) (h m now : Z)
    (draws : list Z) (channel msg : Z) (st : registry) :
  strptime_hm time = Some (h, m) →
  (∀ id, 1000 ≤ id ≤ 9999 → is_Some (active_events st !! id)) →
  Forall (fun d => 1000 ≤ d ≤ 9999) draws →
  f2b time now draws channel msg st = Drawing ∧
  ff title time now draws channel msg st = Drawing.
Proof.
  intros Htime Hfull Hdraws.
  assert (pick_event_id draws (active_events st) = None) as Hpick.
  { apply pick_event_id_none. eapply Forall_impl; [exact Hdraws |].
    intros d Hd. by apply Hfull. }
  unfold f2b, ff. by rewrite Htime, Hpick.
Qed.

Lemma full_registry_lookup (id : Z) :
  1000 ≤ id ≤ 9999 → is_Some (active_events full_registry !! id).
Proof.
  intros Hid. unfold full_registry. cbn [active_events].
  assert (∀ l : list Z, id ∈ l →
            is_Some ((list_to_map ((fun id => (id, new_event [] 10 0)) <$> l)
                      : gmap Z event) !! id)) as Hl.
  { induction l as [|x l IH]; [by intros ?%not_elem_of_nil |].
    cbn [fmap list_fmap list_to_map foldr]. rewrite lookup_insert. cbn [fst snd].
    destruct (decide (x = id)) as [->|Hne]; [by eexists |].
    intros [->|Hin]%elem_of_cons; [done | by apply IH]. }
  apply Hl. apply elem_of_seqZ. lia.
Qed.

Lemma creation_never_ends_when_full_witness :
  f2b "7:05" 1700000000000000 [1000; 5000; 9999] 10 56 full_registry = Drawing ∧
  ff "Ganking" "7:05" 1700000000000000 [1000; 5000; 9999] 10 56 full_registry
    = Drawing.
Proof.
  apply (creation_never_ends_when_full "Ganking" "7:05" 7 5 1700000000000000
           [1000; 5000; 9999] 10 56 full_registry).
  - vm_compute. reflexivity.
  - apply full_registry_lookup.
  - repeat constructor; lia.
Defined.

(** X19. After [f2b] or [ff] has posted an announcement, a press by any
    user on the button of any role of the template signs that user up: the
    answer is the re-rendered listing, and the slot of the role holds that
    user alone, with the marker set. *)
Theorem creation_then_press (s : setup) (title time : string) (now : Z)
    (draws : list Z) (channel msg : Z) (st st' : registry) (event_id start : Z)
    (roles_list shown : list string) (role user : string) :
  s = f2b time now draws channel msg st ∧ roles_list = RaidAnnouncement.roles_list ∨
  s = ff title time now draws channel msg st ∧
  choices_for role_choices title = Some roles_list →
  s = Tracking st' event_id start →
  role ∈ roles_list →
  ∃ ev',
    signup_body shown role msg user st' =
      (put_event event_id ev' st', [EditRoles (listing shown (user_roles ev'))],
       Returned) ∧
    user_roles ev' !! role = Some [user] ∧
    active_users_roles ev' !! user = Some role.
Proof.
  intros Hs Ht Hrole.
  assert (st' = announce roles_list event_id channel start msg st) as ->.
  { destruct Hs as [[Hs ->]|[Hs Hc]]; rewrite Hs in Ht; unfold f2b, ff in Ht;
      destruct (strptime_hm time) as [[h m]|]; try done;
      destruct (pick_event_id draws (active_events st)) as [eid|]; try done.
    - by injection Ht as <- <- <-.
    - rewrite Hc in Ht. by injection Ht as <- <- <-. }
  pose proof (empty_slots_member roles_list role Hrole) as Hslot.
  set (ev := Event (Some msg) channel (empty_slots roles_list) ∅ start false).
  assert (slot_toggle role user ev =
          SignedUp (with_slots ev
                      (<[role := [] ++ [user]]> (py_remove user <$> user_roles ev))
                      (<[user := role]> (active_users_roles ev)))) as Htoggle.
  { apply slot_toggle_signup; [done | apply not_elem_of_nil | done]. }
  eexists. split; [| split].
  - unfold signup_body, announce. simpl.
    rewrite lookup_insert_eq, lookup_insert_eq. simpl.
    fold ev. rewrite Htoggle. reflexivity.
  - simpl. by rewrite lookup_insert_eq.
  - simpl. by rewrite lookup_insert_eq.
Qed.

Lemma creation_then_press_witness :
  let st' := announce RaidAnnouncement.roles_list 2000 10
               (start_time_for 7 5 1700000000000000) 56 (run_actions two_signups) in
  ∃ ev',
    signup_body RaidAnnouncement.roles_list "🐻 Bear" 56 "<@9>" st' =
      (put_event 2000 ev' st',
       [EditRoles (listing RaidAnnouncement.roles_list (user_roles ev'))],
       Returned) ∧
    user_roles ev' !! "🐻 Bear" = Some ["<@9>"] ∧
    active_users_roles ev' !! "<@9>" = Some "🐻 Bear".
Proof.
  apply (creation_then_press
           (f2b "7:05" 1700000000000000 [1234; 2000] 10 56 (run_actions two_signups))
           "" "7:05" 1700000000000000 [1234; 2000] 10 56
           (run_actions two_signups) _ 2000 (start_time_for 7 5 1700000000000000)
           RaidAnnouncement.roles_list).
  - left. split; reflexivity.
  - vm_compute. reflexivity.
  - apply list_elem_of_In. vm_compute. tauto.
Defined.

(** ** The index of announcements *)

Section Linked.







End Linked.


(** ** Mentions *)

Section MentionTexts.

Lemma digit_not_other (c : ascii) :
  is_digit c = true →
  is_space c = false ∧ c ≠ "-"%char ∧ c ≠ "+"%char ∧ c ≠ "!"%char ∧ c ≠ "_"%char.
Proof.
  intros Hd. split.
  - unfold is_digit, is_space in *. apply andb_true_iff in Hd as [H1 H2].
    apply Z.leb_le in H1, H2. apply orb_false_iff. split; apply andb_false_iff.
    + right. apply Z.leb_gt. lia.
    + right. apply Z.leb_gt. lia.
  - repeat split; intros ->; vm_compute in Hd; discriminate Hd.
Qed.

Lemma chars_digits (d : Decimal.uint) :
  Forall (fun c => is_digit c = true)
    (list_ascii_of_string (NilEmpty.string_of_uint d)).
Proof. induction d; simpl; constructor; done. Qed.

Lemma digits_tail_uint (d : Decimal.uint) :
  digits_tail (list_ascii_of_string (NilEmpty.string_of_uint d)) =
  (uint_digits d, []).
Proof.
  induction d; [done | ..];
    cbn [NilEmpty.string_of_uint list_ascii_of_string digits_tail uint_digits];
    rewrite IHd; reflexivity.
Qed.

Lemma digitpart_uint (d : Decimal.uint) :
  d ≠ Decimal.Nil →
  digitpart (list_ascii_of_string (NilEmpty.string_of_uint d)) =
  Some (uint_digits d, []).
Proof.
  destruct d; [done | ..]; intros _;
    cbn [NilEmpty.string_of_uint list_ascii_of_string digitpart uint_digits];
    rewrite digits_tail_uint; reflexivity.
Qed.

Lemma fold_digits_acc (d : Decimal.uint) (acc : positive) :
  fold_left (fun acc d => 10 * acc + d) (uint_digits d) (Z.pos acc) =
  Z.pos (Pos.of_uint_acc d acc).
Proof.
  revert acc. induction d; intros acc; [done | ..]; simpl; rewrite <- IHd;
    f_equal; lia.
Qed.

Lemma digits_to_Z_uint (d : Decimal.uint) :
  digits_to_Z (uint_digits d) = Z.of_N (Pos.of_uint d).
Proof.
  unfold digits_to_Z. induction d; [done | exact IHd | ..];
    cbn [uint_digits fold_left Pos.of_uint Z.of_N];
    rewrite <- fold_digits_acc; f_equal.
Qed.

Lemma is_blank_space (c : ascii) : is_space c = false → is_blank c = false.
Proof.
  unfold is_space, is_blank. intros [H1 H2]%orb_false_iff.
  apply orb_false_iff. split; [done |].
  apply andb_false_iff in H2. apply Z.eqb_neq. intros H.
  destruct H2 as [H2|H2]; apply Z.leb_gt in H2; lia.
Qed.

Lemma lstrip_head (l : list ascii) :
  match l with c :: _ => is_space c = false | [] => True end → lstrip l = l.
Proof.
  destruct l as [|c l]; [done |]. simpl. intros H.
  by rewrite (is_blank_space c H).
Qed.

Lemma strip_nonspace (l : list ascii) :
  Forall (fun c => is_space c = false) l → strip l = l.
Proof.
  intros Hl. unfold strip. rewrite (lstrip_head l) by (by destruct Hl).
  rewrite lstrip_head; [apply rev_involutive |].
  apply Forall_rev in Hl. by destruct Hl.
Qed.

(** The text of a number that is not negative: digits, read back by the
    parsers as the number. *)
Lemma str_Z_digits (n : Z) :
  0 ≤ n →
  ∃ d, d ≠ Decimal.Nil ∧ str_Z n = NilEmpty.string_of_uint d ∧ Z.of_N (Pos.of_uint d) = n.
Proof.
  intros Hn. destruct n as [|p|p]; [| | lia].
  - exists (Decimal.D0 Decimal.Nil). by repeat split.
  - exists (Pos.to_uint p). split; [apply DecimalPos.Unsigned.to_uint_nonnil |].
    split; [| by rewrite DecimalPos.Unsigned.of_to].
    unfold str_Z. simpl. unfold NilZero.string_of_uint.
    pose proof (DecimalPos.Unsigned.to_uint_nonnil p).
    by destruct (Pos.to_uint p).
Qed.

Lemma py_int_digits (d : Decimal.uint) :
  d ≠ Decimal.Nil →
  py_int (list_ascii_of_string (NilEmpty.string_of_uint d)) =
  Some (Z.of_N (Pos.of_uint d)).
Proof.
  intros Hd. unfold py_int.
  pose proof (chars_digits d) as Hall.
  rewrite strip_nonspace
    by (eapply Forall_impl; [exact Hall |]; intros c Hc;
        by apply digit_not_other in Hc as [? _]).
  assert (opt_sign (list_ascii_of_string (NilEmpty.string_of_uint d)) =
          (false, list_ascii_of_string (NilEmpty.string_of_uint d))) as ->.
  { destruct (list_ascii_of_string (NilEmpty.string_of_uint d)) as [|c l] eqn:E;
      [done |].
    apply Forall_cons in Hall as [Hc _].
    apply digit_not_other in Hc as [_ [Hm [Hp _]]].
    unfold opt_sign. apply Ascii.eqb_neq in Hm, Hp. by rewrite Hm, Hp. }
  by rewrite digitpart_uint, digits_to_Z_uint.
Qed.

Lemma filter_bang_digits (d : Decimal.uint) :
  filter (fun c => c ≠ "!"%char)
    (list_ascii_of_string (NilEmpty.string_of_uint d)) =
  list_ascii_of_string (NilEmpty.string_of_uint d).
Proof.
  pose proof (chars_digits d) as Hall.
  induction Hall as [|c l Hc _ IH]; [done |].
  rewrite filter_cons_True; [by rewrite IH |].
  by apply digit_not_other in Hc as [_ [_ [_ [? _]]]].
Qed.

(** A mention of the platform is taken for a mention and gives its id. *)
Lemma mention_read (id : Z) (word : string) :
  0 ≤ id →
  word = mention_of id ∨ word = nick_mention_of id →
  is_mention (list_ascii_of_string word) = true ∧
  py_int (member_id_text (list_ascii_of_string word)) = Some id ∧
  list_ascii_of_string word ≠ [] ∧
  Forall (fun c => is_space c = false) (list_ascii_of_string word).
Proof.
  intros Hid Hword. destruct (str_Z_digits id Hid) as [d [Hd [Hstr Hval]]].
  pose proof (chars_digits d) as Hall.
  assert (Forall (fun c => is_space c = false)
            (list_ascii_of_string (NilEmpty.string_of_uint d))) as Hns.
  { eapply Forall_impl; [exact Hall |]. intros c Hc.
    by apply digit_not_other in Hc as [? _]. }
  destruct Hword as [-> | ->]; unfold mention_of, nick_mention_of;
    rewrite Hstr, !list_ascii_app; simpl.
  - repeat split.
    + unfold is_mention. apply andb_true_iff. split; [done |].
      apply bool_decide_eq_true_2.
      rewrite !app_comm_cons. apply last_snoc.
    + unfold member_id_text. cbn [drop]. rewrite drop_0, removelast_last.
      rewrite filter_bang_digits, py_int_digits by done. by rewrite Hval.
    + done.
    + repeat constructor. apply Forall_app. split; [done | by repeat constructor].
  - repeat split.
    + unfold is_mention. apply andb_true_iff. split; [done |].
      apply bool_decide_eq_true_2.
      rewrite !app_comm_cons. apply last_snoc.
    + unfold member_id_text. cbn [drop]. rewrite app_comm_cons, removelast_last.
      rewrite filter_cons_False by (intros Hc; by apply Hc).
      rewrite filter_bang_digits, py_int_digits by done. by rewrite Hval.
    + done.
    + repeat constructor. apply Forall_app. split; [done | by repeat constructor].
Qed.

Lemma split_ws_word (w rest cur : list ascii) :
  Forall (fun c => is_space c = false) w →
  split_ws (w ++ rest) cur = split_ws rest (rev w ++ cur).
Proof.
  intros Hw. revert cur. induction Hw as [|c w Hc _ IH]; intros cur; [done |].
  simpl. rewrite Hc, IH. by rewrite <- app_assoc.
Qed.

(** Words joined by single spaces are split into those words. *)
Lemma py_split_join (words : list string) :
  Forall (fun w => list_ascii_of_string w ≠ [] ∧
                   Forall (fun c => is_space c = false) (list_ascii_of_string w))
    words →
  py_split (join " " words) = list_ascii_of_string <$> words.
Proof.
  unfold py_split. induction 1 as [|w words [Hne Hns] Hrest IH]; [done |].
  destruct words as [|w2 words].
  - simpl. rewrite <- (app_nil_r (list_ascii_of_string w)).
    rewrite split_ws_word by done. simpl. rewrite app_nil_r.
    destruct (rev (list_ascii_of_string w)) eqn:E.
    + apply (f_equal (@rev ascii)) in E. rewrite rev_involutive in E. done.
    + by rewrite <- E, rev_involutive, app_nil_r.
  - change (join " " (w :: w2 :: words))
      with (w ++ " " ++ join " " (w2 :: words))%string.
    rewrite !list_ascii_app. rewrite split_ws_word by done.
    cbn [list_ascii_of_string app split_ws].
    change (is_space " ") with true. cbn iota. rewrite app_nil_r.
    destruct (rev (list_ascii_of_string w)) eqn:E.
    + apply (f_equal (@rev ascii)) in E. rewrite rev_involutive in E. done.
    + rewrite <- E, rev_involutive. rewrite IH. done.
Qed.

Lemma read_mentions_own (fetch_member : Z → fetched) (words : list string)
    (ids : list Z) :
  Forall2 (fun w id => w = mention_of id ∨ w = nick_mention_of id) words ids →
  Forall (fun id => 0 ≤ id ∧ fetch_member id = IsMember) ids →
  ∀ acc, read_mentions fetch_member (list_ascii_of_string <$> words) acc =
         Members (acc ++ ids).
Proof.
  induction 1 as [|w id words ids Hw _ IH]; intros Hids acc.
  { simpl. by rewrite app_nil_r. }
  apply Forall_cons in Hids as [[Hid Hf] Hids].
  destruct (mention_read id w Hid Hw) as [Hm [Hi _]].
  cbn [fmap list_fmap read_mentions]. rewrite Hm, Hi, Hf.
  change (list_fmap string (list ascii) list_ascii_of_string words)
    with (list_ascii_of_string <$> words).
  rewrite IH by done. by rewrite <- app_assoc.
Qed.

End MentionTexts.

(** X21. The mentions that the platform writes for members, with or without
    the nickname mark and joined by spaces as in the bot's own "Loot split
    starting!" line, are read back by [split_members] as exactly those
    members, in that order. *)
Theorem own_mentions_read_back (fetch_member : Z → fetched) (words : list string)
    (ids : list Z) :
  Forall2 (fun w id => w = mention_of id ∨ w = nick_mention_of id) words ids →
  Forall (fun id => 0 ≤ id ∧ fetch_member id = IsMember) ids →
  read_mentions fetch_member (py_split (join " " words)) [] = Members ids.
Proof.
  intros Hw Hids.
  rewrite py_split_join.
  - by rewrite (read_mentions_own fetch_member words ids Hw Hids []).
  - revert Hids. induction Hw as [|w id words ids Hw _ IH]; intros Hids; [done |].
    apply Forall_cons in Hids as [[Hid _] Hids].
    constructor; [| by apply IH].
    by destruct (mention_read id w Hid Hw) as [_ [_ [? ?]]].
Qed.

Lemma own_mentions_read_back_witness :
  read_mentions (fun _ => IsMember) (py_split "<@7> <@!42> <@7>") [] =
  Members [7; 42; 7].
Proof.
  apply (own_mentions_read_back (fun _ => IsMember)
           ["<@7>"; "<@!42>"; "<@7>"]%string [7; 42; 7]).
  - repeat constructor; (by left) || (by right).
  - repeat constructor; lia.
Defined.

(** ** Values shown and read *)

Lemma same_float_eq (x y : pyfloat) : same_float x y = true → x = y.
Proof.
  destruct x as [s| s| |s m e], y as [s'| s'| |s' m' e']; simpl; try done.
  - intros H. apply Bool.eqb_prop in H. by subst.
  - intros H. apply Bool.eqb_prop in H. by subst.
  - intros H. apply andb_true_iff in H as [H He].
    apply andb_true_iff in H as [Hs Hm].
    apply Bool.eqb_prop in Hs. apply Pos.eqb_eq in Hm. apply Z.eqb_eq in He.
    by subst.
Qed.

Lemma shown_reads_back_sound (v : Z) :
  shown_reads_back v = true →
  ∃ t, format_number (of_Z v) = Text t ∧ parse_value t = Some (of_Z v).
Proof.
  unfold shown_reads_back. intros H.
  destruct (format_number (of_Z v)) as [t| |]; [| done | done].
  exists t. split; [done |].
  destruct (parse_value t) as [x|]; [| done].
  by rewrite (same_float_eq _ _ H).
Qed.

Lemma shown_reads_back_units :
  forallb (fun n => shown_reads_back n && shown_reads_back (1000 * n)
                    && shown_reads_back (1000000 * n)) (seqZ 0 1000) = true.
Proof. vm_compute. reflexivity. Qed.

(** X22. A whole number below 1000, that number of thousands, and that number
    of millions are shown by [format_number] as a text that [parse_value]
    reads back as the same float. *)
Theorem format_number_reads_back (n v : Z) :
  0 ≤ n < 1000 →
  v = n ∨ v = 1000 * n ∨ v = 1000000 * n →
  ∃ t, format_number (of_Z v) = Text t ∧ parse_value t = Some (of_Z v).
Proof.
  intros Hn Hv.
  pose proof shown_reads_back_units as Hall.
  rewrite forallb_forall in Hall.
  assert (In n (seqZ 0 1000)) as Hin.
  { apply list_elem_of_In, elem_of_seqZ. lia. }
  apply Hall in Hin.
  apply andb_true_iff in Hin as [Hin H3]. apply andb_true_iff in Hin as [H1 H2].
  destruct Hv as [-> | [-> | ->]]; by apply shown_reads_back_sound.
Qed.

Lemma format_number_reads_back_witness :
  ∃ t, format_number (of_Z 25000) = Text t ∧ parse_value t = Some (of_Z 25000).
Proof.
  apply (format_number_reads_back 25 25000); [lia |].
  right. left. reflexivity.
Defined.

Lemma format_number_nan (v : pyfloat) :
  format_number v = IntOfNaN ↔ v = S754_nan.
Proof.
  destruct v as [s| [|]| |s m e]; try done.
  unfold format_number.
  destruct (fleb (of_Z 1000000) (S754_finite s m e));
    [| destruct (fleb (of_Z 1000) (S754_finite s m e))]; done.
Qed.

Lemma format_number_minus_infinity (v : pyfloat) :
  format_number v = IntOfInfinity ↔ v = S754_infinity true.
Proof.
  destruct v as [s| [|]| |s m e]; try done.
  unfold format_number.
  destruct (fleb (of_Z 1000000) (S754_finite s m e));
    [| destruct (fleb (of_Z 1000) (S754_finite s m e))]; done.
Qed.

Lemma formatted_text (f : formatted) :
  (∃ t, f = Text t) ↔ f ≠ IntOfNaN ∧ f ≠ IntOfInfinity.
Proof.
  destruct f as [t| |]; split; try (intros [t' Ht]; done); try (by intros [? ?]).
  intros _. by exists t.
Qed.

(** X23. [format_number] raises exactly on the two floats that [int] cannot
    convert and that are below 1000: ValueError on NaN, OverflowError on minus
    infinity; every other float, plus infinity too, is shown as a text. *)
Theorem format_number_raises (v : pyfloat) :
  (format_number v = IntOfNaN ↔ v = S754_nan) ∧
  (format_number v = IntOfInfinity ↔ v = S754_infinity true) ∧
  ((∃ t, format_number v = Text t) ↔ v ≠ S754_nan ∧ v ≠ S754_infinity true).
Proof.
  rewrite formatted_text, format_number_nan, format_number_minus_infinity.
  tauto.
Qed.

(** ** The value commands *)

(** X24. The commands [add_value], [remove_value] and [reset_value] leave the
    total of every player other than the one named as it was, whatever the
    value text. *)
Theorem value_commands_frame (player other : Z) (name value : string)
    (conn : gmap Z pyfloat) :
  other ≠ player →
  get_player_value (add_value player name value conn).1 other =
    get_player_value conn other ∧
  get_player_value (remove_value player name value conn).1 other =
    get_player_value conn other ∧
  get_player_value (reset_value player name conn).1 other =
    get_player_value conn other.
Proof.
  intros Hne. unfold add_value, remove_value, reset_value.
  assert (get_player_value (reset_player_value conn player) other =
          get_player_value conn other) as Hreset.
  { unfold reset_player_value, get_player_value.
    by rewrite lookup_alter_ne by congruence. }
  destruct (parse_value value) as [amount|]; cbn [fst]; [| done].
  destruct (reads_none conn player); cbn [fst]; [done |].
  unfold add_to_player_value, remove_from_player_value.
  by rewrite !get_update_other.
Qed.

Lemma value_commands_frame_witness :
  let conn := <[1 := of_Z 500]> (<[2 := of_Z 70]> ∅) in
  get_player_value (add_value 1 "Ann" "2.5k" conn).1 2 = get_player_value conn 2 ∧
  get_player_value (remove_value 1 "Ann" "2.5k" conn).1 2 = get_player_value conn 2 ∧
  get_player_value (reset_value 1 "Ann" conn).1 2 = get_player_value conn 2.
Proof.
  apply (value_commands_frame 1 2 "Ann" "2.5k"). lia.
Defined.

(** X25. [add_value] and [remove_value] answer that the value is invalid
    exactly when [parse_value] rejects the text.  When it is read and the
    row of the player holds NULL, which is what a stored NaN has become,
    they end in the TypeError of the arithmetic on [None].  Otherwise they
    end in the exception of [format_number] in place of an answer exactly
    when the text is read as NaN (ValueError) or as minus infinity
    (OverflowError), as the texts "nan" and "-inf" are.  The ledger is as it
    was after a refusal and after the TypeError. *)
Theorem value_commands_answer (player : Z) (name value : string)
    (conn : gmap Z pyfloat) :
  let added := add_value player name value conn in
  let removed := remove_value player name value conn in
  (parse_value value = None ↔ added.2 = Said (Text invalid_value_text)) ∧
  (parse_value value = None ↔ removed.2 = Said (Text invalid_value_text)) ∧
  (added.2 = NoneOperand ↔
   parse_value value ≠ None ∧ reads_none conn player = true) ∧
  (removed.2 = NoneOperand ↔
   parse_value value ≠ None ∧ reads_none conn player = true) ∧
  (added.2 = Said IntOfNaN ↔
   parse_value value = Some S754_nan ∧ reads_none conn player = false) ∧
  (removed.2 = Said IntOfNaN ↔
   parse_value value = Some S754_nan ∧ reads_none conn player = false) ∧
  (added.2 = Said IntOfInfinity ↔
   parse_value value = Some (S754_infinity true) ∧ reads_none conn player = false) ∧
  (removed.2 = Said IntOfInfinity ↔
   parse_value value = Some (S754_infinity true) ∧ reads_none conn player = false) ∧
  (parse_value value = None ∨ reads_none conn player = true →
   added.1 = conn ∧ removed.1 = conn) ∧
  parse_value "nan" = Some S754_nan ∧
  parse_value "-inf" = Some (S754_infinity true).
Proof.
  cbv zeta. unfold add_value, remove_value.
  destruct (parse_value value) as [amount|]; cbn [fst snd].
  - pose proof (format_number_nan amount) as Hnan.
    pose proof (format_number_minus_infinity amount) as Hinf.
    assert (∀ x : pyfloat, Some amount = Some x ↔ amount = x) as Hsome.
    { intros x. split; [by intros [= ->] | by intros ->]. }
    rewrite !Hsome, <- Hnan, <- Hinf.
    destruct (reads_none conn player); cbn [fst snd].
    + intuition (done || discriminate).
    + destruct (format_number amount) as [t| |];
        intuition (done || discriminate).
  - intuition (done || discriminate).
Qed.
